(** * Rebate CSV formatter: the restructuring engine of [app/main.py]

    A shallow embedding of [validate_columns] and [process_dataframe]
    together with the fragment of pandas they call, and the properties of
    the restructured table and of its metrics; then of [sanitize_filename]
    and of the handlers [process_files] and [download], with the two
    directories they write to and read from as explicit state.

    A pandas [DataFrame] is modelled row-wise: an ordered list of column
    labels and a list of rows, each row a finite map from column label to
    scalar.  A label that a row does not bind is a missing value (pandas'
    NaN / None), so that [pd.concat] filling absent columns with NaN and
    [GroupBy.first] skipping NaN come out of the map operations.  A row
    holds one value for a label: the tables of the model are those whose
    column labels are distinct, as [pd.read_csv] builds them.

    The date parser of pandas is a parameter: a call on a series raises or
    gives a result for each cell.

    Python [str] values are modelled by their UTF-8 bytes ([string]);
    comparing the bytes lexicographically orders them as Python orders the
    code points. *)

From Stdlib Require Import ZArith NArith Ascii.
From stdpp Require Import base decidable option list sorting strings gmap fin_maps.

(** ** Scalars, cells and rows *)

Inductive scalar :=
  | Str (s : string)
  | Num (n : Z).

#[global] Instance scalar_eq_dec : EqDecision scalar.
Proof. solve_decision. Defined.

(** A cell is a scalar or missing ([None] is NaN). *)
Abbreviation cell := (option scalar).
Abbreviation row := (gmap string scalar).

(** ** Orders used by sorting

    Boolean "less or equal" tests that are total orders. *)

Class LebOrder {A : Type} (ord : A → A → bool) := {
  ord_total : ∀ x y, ord x y = true ∨ ord y x = true;
  ord_antisym : ∀ x y, ord x y = true → ord y x = true → x = y;
  ord_trans : ∀ x y z, ord x y = true → ord y z = true → ord x z = true;
}.

(** Lexicographic order on lists: the first position that differs decides,
    and a proper prefix comes first. *)
Fixpoint lex_leb {A} `{EqDecision A} (ord : A → A → bool) (k1 k2 : list A) : bool :=
  match k1, k2 with
  | [], _ => true
  | _ :: _, [] => false
  | a :: k1', b :: k2' => if decide (a = b) then lex_leb ord k1' k2' else ord a b
  end.

Definition ascii_leb (a b : ascii) : bool := (N_of_ascii a <=? N_of_ascii b)%N.

(** Python's [str] comparison. *)
Definition string_leb (s t : string) : bool :=
  lex_leb ascii_leb (String.list_ascii_of_string s) (String.list_ascii_of_string t).

(** Numbers compare numerically and text lexicographically.  A column that
    mixes both is ordered numbers first, as pandas' mixed-type fallback
    does; [process_dataframe] only sorts "Rebate Name" and the numeric
    "_level_sort". *)
Definition scalar_leb (x y : scalar) : bool :=
  match x, y with
  | Num a, Num b => (a <=? b)%Z
  | Num _, Str _ => true
  | Str _, Num _ => false
  | Str s, Str t => string_leb s t
  end.

(** Missing values sort last ([na_position="last"], and the NaN group of a
    sorted [groupby]). *)
Definition cell_leb (x y : cell) : bool :=
  match x, y with
  | _, None => true
  | None, Some _ => false
  | Some a, Some b => scalar_leb a b
  end.

(** The key of a row in a multi-column sort is the list of its cells in the
    [by] columns, compared lexicographically. *)
Definition key_leb : list cell → list cell → bool := lex_leb cell_leb.

(** ** Stable sorting

    Insertion from the right: an element is put in front of the first
    element whose key is not smaller, hence in front of the elements with
    the same key that followed it in the input. *)
Section stable_sort.
Context {A K : Type} (key : A → K) (ord : K → K → bool).

Fixpoint insert_sorted (x : A) (l : list A) : list A :=
  match l with
  | [] => [x]
  | y :: l' => if ord (key x) (key y) then x :: l else y :: insert_sorted x l'
  end.

Definition stable_sort (l : list A) : list A := foldr insert_sorted [] l.

End stable_sort.

(** Strictly ascending lists. *)
Definition ascending {K} (ord : K → K → bool) (ks : list K) : Prop :=
  StronglySorted (λ a b, ord a b = true ∧ a ≠ b) ks.

(** First-seen distinct values, as [Series.unique]. *)
Fixpoint unique {A} `{EqDecision A} (l : list A) : list A :=
  match l with
  | [] => []
  | x :: l' => x :: filter (λ y, y ≠ x) (unique l')
  end.

(** ** Data frames *)

Record DataFrame := {
  columns : list string;
  rows : list row;
}.

Definition len (df : DataFrame) : nat := length (rows df).

(** [df[col]] as a series of cells. *)
Definition column (col : string) (df : DataFrame) : list cell :=
  (λ r : row, r !! col) <$> rows df.

Definition set_cell (col : string) (v : cell) (r : row) : row :=
  match v with
  | Some x => <[col := x]> r
  | None => delete col r
  end.

(** Assigning to a label that exists keeps its position; a new label is
    appended. *)
Definition add_label (col : string) (cols : list string) : list string :=
  if bool_decide (col ∈ cols) then cols else cols ++ [col].

(** [df[col] = series], for a series as long as the frame. *)
Definition setitem (col : string) (vals : list cell) (df : DataFrame) : DataFrame :=
  {| columns := add_label col (columns df);
     rows := zip_with (set_cell col) vals (rows df) |}.

(** [df[col] = value], broadcast to every row. *)
Definition setitem_scalar (col : string) (v : scalar) (df : DataFrame) : DataFrame :=
  {| columns := add_label col (columns df);
     rows := (λ r : row, <[col := v]> r) <$> rows df |}.

(** [Series.fillna(v)]. *)
Definition fillna (v : scalar) (s : list cell) : list cell :=
  (λ c : cell, Some (default v c)) <$> s.

(** [Series.map(dict)]: a value that is not a key of the dict, and a
    missing value, map to missing. *)
Fixpoint dict_get (d : list (scalar * scalar)) (x : scalar) : cell :=
  match d with
  | [] => None
  | (k, v) :: d' => if decide (k = x) then Some v else dict_get d' x
  end.

Definition series_map (d : list (scalar * scalar)) (s : list cell) : list cell :=
  (λ c : cell, c ≫= dict_get d) <$> s.

(** [Series.nunique(dropna=False)]: NaN counts as one value. *)
Definition nunique (s : list cell) : nat := length (unique s).

(** [df.groupby(keycol, dropna=False, as_index=False).first()] for a
    [keycol] among the columns.  [sort=True] is the default: one row per
    distinct key, keys ascending and the NaN group last.  [first] takes,
    column by column, the first value of the group that is not missing:
    the left-biased union of the group's rows.  The key column comes
    first in the result. *)
Definition group_keys (keycol : string) (df : DataFrame) : list cell :=
  stable_sort id cell_leb (unique (column keycol df)).

Definition group_rows (keycol : string) (k : cell) (rs : list row) : list row :=
  filter (λ r : row, r !! keycol = k) rs.

Definition first_valid (grp : list row) : row := foldr (∪) ∅ grp.

Definition groupby_first (keycol : string) (df : DataFrame) : DataFrame :=
  {| columns := keycol :: filter (λ c, c ≠ keycol) (columns df);
     rows := (λ k, first_valid (group_rows keycol k (rows df))) <$> group_keys keycol df |}.

(** [pd.concat([a, b], ignore_index=True)]: rows of [a] then rows of [b],
    over the union of the columns in first-seen order. *)
Definition concat (a b : DataFrame) : DataFrame :=
  {| columns := columns a ++ filter (λ c, c ∉ columns a) (columns b);
     rows := rows a ++ rows b |}.

(** [df.sort_values(by=by_, kind="stable")] for [by_] among the columns:
    the key of a row is the list of its cells in the [by_] columns. *)
Definition sort_key (by_ : list string) (r : row) : list cell := (λ c, r !! c) <$> by_.

Definition sort_values (by_ : list string) (df : DataFrame) : DataFrame :=
  {| columns := columns df;
     rows := stable_sort (sort_key by_) key_leb (rows df) |}.

(** [df.drop(columns=[col])] for [col] among the columns. *)
Definition drop_column (col : string) (df : DataFrame) : DataFrame :=
  {| columns := filter (λ c, c ≠ col) (columns df);
     rows := (λ r : row, delete col r) <$> rows df |}.

(** What the engine can raise.  A [KeyError] carries the label that
    [df[label]] did not find, or the message of [df[labels]]: that none of
    the labels is a column, or which labels are not.  Any other exception
    is given by its class and its message; the date parser raises such
    ones. *)
Inductive exn :=
  | KeyError (label : string)
  | KeyError_none_of (labels : list string)
  | KeyError_not_in_index (labels : list string)
  | Error (type_name message : string).

Inductive outcome (A : Type) :=
  | Returned (a : A)
  | Raised (e : exn).
Arguments Returned {A} a.
Arguments Raised {A} e.

(** The labels of [df[cols]]: for each label of [cols] in turn, every
    column of that label. *)
Definition selected_labels (cols have : list string) : list string :=
  cols ≫= λ c, filter (λ c', c' = c) have.

(** [df[cols]]: the listed columns in the listed order.  When some label
    is not a column it raises [KeyError]: that none of the labels is a
    column when none is, and otherwise that the labels that are not, each
    listed once, are not in the index. *)
Definition getitem_columns (cols : list string) (df : DataFrame) : outcome DataFrame :=
  match filter (λ c, c ∉ columns df) cols with
  | [] => Returned {| columns := selected_labels cols (columns df);
                      rows := (λ r : row, filter (λ kv, kv.1 ∈ cols) r) <$> rows df |}
  | c :: missing =>
      if bool_decide (length (c :: missing) = length cols)
      then Raised (KeyError_none_of cols)
      else Raised (KeyError_not_in_index (unique (c :: missing)))
  end.

(** ** Dates

    A parsed date, as the date part of a pandas [Timestamp]: a calendar
    day with a four-digit year (nanosecond timestamps lie between 1677
    and 2262). *)

Definition is_leap (y : N) : bool :=
  ((y mod 4 =? 0) && negb (y mod 100 =? 0) || (y mod 400 =? 0))%N.

Definition days_in_month (y m : N) : N :=
  if (m =? 2)%N then (if is_leap y then 29 else 28)%N
  else if ((m =? 4) || (m =? 6) || (m =? 9) || (m =? 11))%N then 30%N
  else if ((1 <=? m) && (m <=? 12))%N then 31%N
  else 0%N.

Definition valid_date (y m d : N) : bool :=
  ((1000 <=? y) && (y <=? 9999) && (1 <=? d) && (d <=? days_in_month y m))%N.

Record Timestamp := {
  year : N;
  month : N;
  day : N;
  ts_valid : valid_date year month day = true;
}.

(** The decimal digit of the units of [n]. *)
Definition digit (n : N) : ascii := ascii_of_N (48 + n mod 10).

(** [%m] and [%d]: two digits, zero padded; [%Y]: the four digits of the
    year. *)
Definition pad2 (n : N) : string :=
  String (digit (n / 10)) (String (digit n) "").

Definition pad4 (n : N) : string :=
  String (digit (n / 1000)) (String (digit (n / 100)) (pad2 n)).

(** [strftime("%m/%d/%Y")]. *)
Definition strftime_mdY (t : Timestamp) : string :=
  pad2 (month t) +:+ "/" +:+ pad2 (day t) +:+ "/" +:+ pad4 (year t).

Definition is_digit (a : ascii) : bool :=
  ((48 <=? N_of_ascii a) && (N_of_ascii a <=? 57))%N.

(** The textual form MM/DD/YYYY: ten characters, digits around two
    slashes. *)
Definition canonical_mdY (s : string) : bool :=
  match String.list_ascii_of_string s with
  | [m1; m2; s1; d1; d2; s2; y1; y2; y3; y4] =>
      is_digit m1 && is_digit m2 && bool_decide (s1 = "/"%char) &&
      is_digit d1 && is_digit d2 && bool_decide (s2 = "/"%char) &&
      is_digit y1 && is_digit y2 && is_digit y3 && is_digit y4
  | _ => false
  end.

(** ** Constants of [main.py] *)

Definition REQUIRED_COLUMNS : list string :=
  [ "Rebate Name"; "Level"; "Lumpsum - Fee Type"; "Lumpsum - Amount";
    "Lumpsum - Branch"; "Lumpsum - Lumpsum Date"; "Lumpsum - Pay Date" ].

Definition DATE_COLUMNS : list string :=
  [ "Lumpsum - Lumpsum Date"; "Lumpsum - Pay Date" ].

Definition LUMPSUM_COLUMNS : list string :=
  [ "Lumpsum - Fee Type"; "Lumpsum - Amount"; "Lumpsum - Branch";
    "Lumpsum - Lumpsum Date"; "Lumpsum - Pay Date" ].

Definition rebate_column : string := "Rebate Name".
Definition level_column : string := "Level".

(** The dict of line 106. *)
Definition level_rank : list (scalar * scalar) :=
  [ (Str "Header", Num 0); (Str "Lumpsum", Num 1) ].

Record Metrics := {
  input_rows : nat;
  distinct_rebates : nat;
  header_count : nat;
  lumpsum_count : nat;
  output_rows : nat;
}.

(** ** [validate_columns] *)

Definition validate_columns (df : DataFrame) : list string :=
  filter (λ col, col ∉ columns df) REQUIRED_COLUMNS.

(** ** [process_dataframe]

    [pd.to_datetime(series, errors="coerce")] is the library's parser: it
    is a parameter of the engine.  A call on a series, with the [.dt]
    access that follows it, either raises (it does on values with different
    UTC offsets, which [errors="coerce"] does not cover), or yields one
    result per cell, a date or NaT ([None]).  The
    results may depend on the whole series (pandas infers one format for
    the series), hence the series as argument and the results as a function
    of the cell. *)
Section engine.

Variable to_datetime : list cell → outcome (cell → option Timestamp).

(** Line 89, with the [.dt] access of line 90.  An empty series is
    converted without a value being parsed. *)
Definition to_datetime_coerce (s : list cell) : outcome (list (option Timestamp)) :=
  match s with
  | [] => Returned []
  | _ :: _ =>
      match to_datetime s with
      | Returned parse => Returned (parse <$> s)
      | Raised e => Raised e
      end
  end.

(** [parsed.dt.strftime("%m/%d/%Y")]: NaT gives a missing value. *)
Definition dt_strftime (parsed : list (option Timestamp)) : list cell :=
  (λ o : option Timestamp, Str ∘ strftime_mdY <$> o) <$> parsed.

(** Lines 88-90, the body of the loop over [DATE_COLUMNS]: the frame after
    the assignment of line 90, or the exception of the parser, raised
    before anything is assigned. *)
Definition normalize_date_column (df : DataFrame) (col : string) : outcome DataFrame :=
  if bool_decide (col ∈ columns df) then
    match to_datetime_coerce (column col df) with
    | Returned parsed => Returned (setitem col (fillna (Str "") (dt_strftime parsed)) df)
    | Raised e => Raised e
    end
  else Returned df.

(** The loop of lines 87-90: the caller's frame when the loop ends, and
    the exception that ended it, if one did. *)
Fixpoint normalize_dates (cols : list string) (df : DataFrame) : DataFrame * option exn :=
  match cols with
  | [] => (df, None)
  | col :: cols' =>
      match normalize_date_column df col with
      | Returned df' => normalize_dates cols' df'
      | Raised e => (df, Some e)
      end
  end.

(** Lines 99-100, the body of the loop over [LUMPSUM_COLUMNS]. *)
Definition blank_column (header_rows : DataFrame) (col : string) : DataFrame :=
  if bool_decide (col ∈ columns header_rows) then setitem_scalar col (Str "") header_rows
  else header_rows.

(** The function mutates the frame it is given: the first component is the
    caller's frame when the call ends, the second what the call returns or
    raises. *)
Definition process_dataframe (df : DataFrame)
  : DataFrame * outcome (DataFrame * Metrics) :=
  let original_columns := columns df in
  match normalize_dates DATE_COLUMNS df with
  | (df, Some e) => (df, Raised e)
  | (df, None) =>
      let source_rows := len df in
      if bool_decide (rebate_column ∈ columns df) then
        let distinct_rebates := nunique (column rebate_column df) in
        let header_rows := groupby_first rebate_column df in
        let header_rows := setitem_scalar level_column (Str "Header") header_rows in
        let header_rows := foldl blank_column header_rows LUMPSUM_COLUMNS in
        let df := setitem_scalar level_column (Str "Lumpsum") df in
        let final_df := concat header_rows df in
        let final_df :=
          setitem "_level_sort"
            (fillna (Num 2) (series_map level_rank (column level_column final_df)))
            final_df in
        let final_df :=
          setitem rebate_column (fillna (Str "") (column rebate_column final_df))
            final_df in
        let final_df := sort_values [rebate_column; "_level_sort"] final_df in
        let final_df := drop_column "_level_sort" final_df in
        match getitem_columns original_columns final_df with
        | Returned final_df =>
            let metrics :=
              {| input_rows := source_rows;
                 distinct_rebates := distinct_rebates;
                 header_count := len header_rows;
                 lumpsum_count := source_rows;
                 output_rows := len final_df |} in
            (df, Returned (final_df, metrics))
        | Raised e => (df, Raised e)
        end
      else (df, Raised (KeyError rebate_column))
  end.

End engine.

(** ** A parser for the canonical form

    [parse_mdY] reads exactly the ten-character form MM/DD/YYYY of a
    calendar day and rejects everything else, the empty string included.
    On these inputs pandas' parser answers the same (month first); it is
    the parser of the concrete tables below, whose date cells are of this
    form, empty, or plainly not dates. *)

Definition digit_val (a : ascii) : option N :=
  if is_digit a then Some (N_of_ascii a - 48)%N else None.

Definition mk_timestamp (y m d : N) : option Timestamp :=
  match decide (valid_date y m d = true) with
  | left H => Some {| year := y; month := m; day := d; ts_valid := H |}
  | right _ => None
  end.

Definition parse_mdY_string (s : string) : option Timestamp :=
  match String.list_ascii_of_string s with
  | [m1; m2; s1; d1; d2; s2; y1; y2; y3; y4] =>
      if bool_decide (s1 = "/"%char) && bool_decide (s2 = "/"%char) then
        a ← digit_val m1; b ← digit_val m2;
        c ← digit_val d1; d ← digit_val d2;
        e ← digit_val y1; f ← digit_val y2; g ← digit_val y3; h ← digit_val y4;
        mk_timestamp (1000 * e + 100 * f + 10 * g + h) (10 * a + b) (10 * c + d)
      else None
  | _ => None
  end.

Definition parse_mdY_cell (c : cell) : option Timestamp :=
  match c with
  | Some (Str s) => parse_mdY_string s
  | _ => None
  end.

Definition parse_mdY (_ : list cell) : outcome (cell → option Timestamp) :=
  Returned parse_mdY_cell.

(** ** A parser that infers the format of the series

    Since version 2 pandas reads a series of text in one format, that of
    its first value that is not empty, and answers NaT for a value that is
    not in this format; where no format can be told from that value, each
    value is read on its own.  [parse_inferred] does so for three forms:
    MM/DD/YYYY, the ISO date YYYY-MM-DD, and the ISO timestamp with a UTC
    offset YYYY-MM-DDTHH:MM:SS+HH:MM (or with a minus sign).  Every other
    value is NaT.  On timestamps with different UTC offsets the call
    raises, as [errors="coerce"] does not cover that case: a [ValueError]
    about mixed time zones (older versions return text there, on which
    [.dt] raises). *)

Definition parse_iso_string (s : string) : option Timestamp :=
  match String.list_ascii_of_string s with
  | [y1; y2; y3; y4; s1; m1; m2; s2; d1; d2] =>
      if bool_decide (s1 = "-"%char) && bool_decide (s2 = "-"%char) then
        a ← digit_val m1; b ← digit_val m2;
        c ← digit_val d1; d ← digit_val d2;
        e ← digit_val y1; f ← digit_val y2; g ← digit_val y3; h ← digit_val y4;
        mk_timestamp (1000 * e + 100 * f + 10 * g + h) (10 * a + b) (10 * c + d)
      else None
  | _ => None
  end.

(** The date and the UTC offset of an ISO timestamp with an offset. *)
Definition parse_iso_offset_string (s : string) : option (Timestamp * string) :=
  let chars := String.list_ascii_of_string s in
  match drop 10 chars with
  | [t; h1; h2; c1; n1; n2; c2; s1; s2; sign; o1; o2; c3; o3; o4] =>
      if bool_decide (t = "T"%char) &&
         forallb is_digit [h1; h2; n1; n2; s1; s2; o1; o2; o3; o4] &&
         bool_decide (c1 = ":"%char) && bool_decide (c2 = ":"%char) &&
         bool_decide (c3 = ":"%char) &&
         (bool_decide (sign = "+"%char) || bool_decide (sign = "-"%char))
      then
        date ← parse_iso_string (String.string_of_list_ascii (take 10 chars));
        Some (date, String.string_of_list_ascii [sign; o1; o2; c3; o3; o4])
      else None
  | _ => None
  end.

Inductive date_format := Format_mdY | Format_iso | Format_iso_offset.

Definition parse_format (f : date_format) (c : cell) : option Timestamp :=
  match c with
  | Some (Str s) =>
      match f with
      | Format_mdY => parse_mdY_string s
      | Format_iso => parse_iso_string s
      | Format_iso_offset => fst <$> parse_iso_offset_string s
      end
  | _ => None
  end.

Definition guess_format (s : string) : option date_format :=
  if bool_decide (is_Some (parse_mdY_string s)) then Some Format_mdY
  else if bool_decide (is_Some (parse_iso_string s)) then Some Format_iso
  else if bool_decide (is_Some (parse_iso_offset_string s)) then Some Format_iso_offset
  else None.

(** The first value of the series that is text and not empty. *)
Definition first_text (s : list cell) : option string :=
  head (omap (λ c : cell,
                match c with
                | Some (Str x) => if bool_decide (x = "") then None else Some x
                | _ => None
                end) s).

(** The UTC offsets of the series, each once. *)
Definition utc_offsets (s : list cell) : list string :=
  unique (omap (λ c : cell,
                  match c with
                  | Some (Str x) => snd <$> parse_iso_offset_string x
                  | _ => None
                  end) s).

Definition parse_each (c : cell) : option Timestamp :=
  match parse_format Format_mdY c with
  | Some t => Some t
  | None =>
      match parse_format Format_iso c with
      | Some t => Some t
      | None => parse_format Format_iso_offset c
      end
  end.

Definition mixed_timezones : exn :=
  Error "ValueError"
    "Mixed timezones detected. Pass utc=True in to_datetime or tz='UTC' in DatetimeIndex to convert to a common timezone.".

Definition parse_inferred (s : list cell) : outcome (cell → option Timestamp) :=
  match first_text s ≫= guess_format with
  | Some Format_mdY => Returned (parse_format Format_mdY)
  | Some Format_iso => Returned (parse_format Format_iso)
  | Some Format_iso_offset =>
      match utc_offsets s with
      | _ :: _ :: _ => Raised mixed_timezones
      | _ => Returned (parse_format Format_iso_offset)
      end
  | None =>
      match utc_offsets s with
      | _ :: _ :: _ => Raised mixed_timezones
      | _ => Returned parse_each
      end
  end.

(** ** File names and the HTTP handlers

    Where a Python [str] is looked at character by character (file
    names), it is modelled as the list of its code points.  [lit] reads an
    ASCII literal. *)

Definition lit (s : string) : list N := N_of_ascii <$> String.list_ascii_of_string s.

(** [str.isalnum] on one character: on ASCII the digits and the letters,
    beyond ASCII what Unicode says, a parameter. *)
Definition isalnum (isalnum_nonascii : N → bool) (ch : N) : bool :=
  if (ch <? 128)%N
  then ((48 <=? ch) && (ch <=? 57) || (65 <=? ch) && (ch <=? 90) ||
        (97 <=? ch) && (ch <=? 122))%N
  else isalnum_nonascii ch.

(** The condition of line 72: [ch.isalnum() or ch in ("-", "_", ".")]. *)
Definition kept (isalnum_nonascii : N → bool) (ch : N) : bool :=
  isalnum isalnum_nonascii ch || bool_decide (ch ∈ lit "-" ++ lit "_" ++ lit ".").

(** The hexadecimal digit of the low four bits of [n], lower case. *)
Definition hex_digit (n : N) : N :=
  (if n mod 16 <? 10 then 48 + n mod 16 else 87 + n mod 16)%N.

(** [uuid.uuid4().hex[:8]] for a UUID whose leading 32 bits are [w]. *)
Definition hex8 (w : N) : list N :=
  (λ i : N, hex_digit (w / 16 ^ i)) <$> [7; 6; 5; 4; 3; 2; 1; 0]%N.

(** [sanitize_filename]; [uuid] is the UUID drawn on line 73, which is
    drawn only when nothing is kept. *)
Definition sanitize_filename (isalnum_nonascii : N → bool) (uuid : N)
    (filename : list N) : list N :=
  let safe := filter (λ ch, kept isalnum_nonascii ch = true) filename in
  match safe with
  | [] => lit "upload-" ++ hex8 uuid ++ lit ".csv"
  | _ :: _ => safe
  end.

(** [str.lower]: on an ASCII string the capital letters are mapped to the
    small ones; on other strings it is Unicode's lowercasing, a parameter
    (it is not character-wise). *)
Definition lower (lower_unicode : list N → list N) (s : list N) : list N :=
  if forallb (λ ch, ch <? 128)%N s
  then (λ ch, if (65 <=? ch) && (ch <=? 90) then ch + 32 else ch)%N <$> s
  else lower_unicode s.

Definition endswith (s suffix : list N) : bool := bool_decide (suffix `suffix_of` s).

Record UploadFile := {
  filename : option (list N);
  content : list Byte.byte;
}.

(** The [detail] of an [HTTPException]: a text, or the dict of line 162. *)
Inductive detail :=
  | Text (s : list N)
  | MissingColumns (file message : list N) (missing_columns : list string).

Record HTTPException := {
  status_code : nat;
  http_detail : detail;
}.

(** What a handler raises: an [HTTPException], or an [OSError] of the file
    system that no handler catches. *)
Inductive raised :=
  | Http (e : HTTPException)
  | OSError (msg : list N).

(** The directories [uploads] and [output]: file name to content.  The
    content of a written CSV is the table it was written from. *)
Record World := {
  upload_dir : gmap (list N) (list Byte.byte);
  output_dir : gmap (list N) DataFrame;
}.

Record Totals := {
  files_processed : nat;
  total_headers : nat;
  total_lumpsum : nat;
  total_output_rows : nat;
}.

Record FileResponse := {
  path : list N;
  media_type : list N;
  response_filename : list N;
}.

Section handlers.

(** The type of [elapsed_ms], a float. *)
Variable float : Type.

(** The entries of [results]; [result_metrics] are the keys of
    [**metrics]. *)
Record FileResult := {
  input_file : list N;
  output_file : list N;
  download_url : list N;
  size_bytes : nat;
  elapsed_ms : float;
  result_metrics : Metrics;
}.

Record Response := {
  results : list FileResult;
  totals : Totals;
}.

(** What the handlers get from outside.  Within one call of
    [process_files] each external call is made at most once for each
    upload, so its outcome is given for the position of the upload in the
    batch. *)
Record Env := {
  env_to_datetime : list cell → outcome (cell → option Timestamp);
  isalnum_nonascii : N → bool;
  lower_unicode : list N → list N;
  (** the UUIDs of lines 73 and 141 *)
  uuid4_fallback : nat → N;
  uuid4_prefix : nat → N;
  (** [write_bytes] and [to_csv]: the error raised, if any; a write that
      raises is taken to leave no file *)
  write_bytes_error : nat → option (list N);
  to_csv_error : nat → option (list N);
  (** [pd.read_csv] on the stored bytes: the text of the exception, or the
      table *)
  read_csv : nat → list Byte.byte → list N + DataFrame;
  (** [str(exc)] for what [process_dataframe] raises *)
  str_exn : exn → list N;
  elapsed : nat → float;
}.

Variable env : Env.

(** The body of the loop of [process_files] for the upload at position
    [i]: the directories afterwards, and the error raised or the entry
    appended to [results].  (Logging is left out.) *)
Definition process_upload (i : nat) (upload : UploadFile) (w : World)
  : World * (raised + FileResult) :=
  let name :=
    match filename upload with
    | Some (ch :: s) => ch :: s
    | _ => lit "input.csv"
    end in
  let safe_name := sanitize_filename (isalnum_nonascii env) (uuid4_fallback env i) name in
  if negb (endswith (lower (lower_unicode env) safe_name) (lit ".csv")) then
    (w, inl (Http {| status_code := 400;
                     http_detail := Text (lit "Only CSV files are supported: " ++ safe_name) |}))
  else
    let unique_prefix := hex8 (uuid4_prefix env i) in
    let stored_input := unique_prefix ++ lit "-" ++ safe_name in
    match content upload with
    | [] =>
        (w, inl (Http {| status_code := 400;
                         http_detail := Text (lit "Uploaded file is empty: " ++ safe_name) |}))
    | _ :: _ =>
        match write_bytes_error env i with
        | Some msg => (w, inl (OSError msg))
        | None =>
            let w := {| upload_dir := <[stored_input := content upload]> (upload_dir w);
                        output_dir := output_dir w |} in
            match read_csv env i (content upload) with
            | inl exc =>
                (w, inl (Http {| status_code := 400;
                                 http_detail :=
                                   Text (lit "Invalid CSV format for " ++ safe_name ++
                                         lit ": " ++ exc) |}))
            | inr df =>
                match validate_columns df with
                | c :: missing =>
                    (w, inl (Http {| status_code := 422;
                                     http_detail :=
                                       MissingColumns safe_name
                                         (lit "Missing required columns.") (c :: missing) |}))
                | [] =>
                    match (process_dataframe (env_to_datetime env) df).2 with
                    | Raised exc =>
                        (w, inl (Http {| status_code := 500;
                                         http_detail :=
                                           Text (lit "Failed to process " ++ safe_name ++
                                                 lit ": " ++ str_exn env exc) |}))
                    | Returned (final_df, metrics) =>
                        let output_name :=
                          lit "processed-" ++ unique_prefix ++ lit "-" ++ safe_name in
                        match to_csv_error env i with
                        | Some exc =>
                            (w, inl (Http {| status_code := 500;
                                             http_detail :=
                                               Text (lit "Could not write output for " ++
                                                     safe_name ++ lit ": " ++ exc) |}))
                        | None =>
                            ({| upload_dir := upload_dir w;
                                output_dir := <[output_name := final_df]> (output_dir w) |},
                             inr {| input_file := safe_name;
                                    output_file := output_name;
                                    download_url := lit "/api/download/" ++ output_name;
                                    size_bytes := length (content upload);
                                    elapsed_ms := elapsed env i;
                                    result_metrics := metrics |})
                        end
                    end
                end
            end
        end
    end.

(** The name under which the upload at position [i] is processed (line
    137). *)
Definition safe_name_of (i : nat) (upload : UploadFile) : list N :=
  sanitize_filename (isalnum_nonascii env) (uuid4_fallback env i)
    (match filename upload with Some (ch :: s) => ch :: s | _ => lit "input.csv" end).

(** The loop of lines 135 to 202, from position [i] on. *)
Fixpoint process_uploads (i : nat) (files : list UploadFile) (w : World)
    (acc : list FileResult) : World * (raised + list FileResult) :=
  match files with
  | [] => (w, inr acc)
  | upload :: files' =>
      match process_upload i upload w with
      | (w', inl e) => (w', inl e)
      | (w', inr result) => process_uploads (S i) files' w' (acc ++ [result])
      end
  end.

Definition sum_of (f : Metrics → nat) (rs : list FileResult) : nat :=
  sum_list ((λ item, f (result_metrics item)) <$> rs).

(** [process_files]. *)
Definition process_files (files : list UploadFile) (w : World)
  : World * (raised + Response) :=
  match files with
  | [] =>
      (w, inl (Http {| status_code := 400; http_detail := Text (lit "No files uploaded.") |}))
  | _ :: _ =>
      match process_uploads 0 files w [] with
      | (w', inl e) => (w', inl e)
      | (w', inr rs) =>
          (w', inr {| results := rs;
                      totals := {| files_processed := length rs;
                                   total_headers := sum_of header_count rs;
                                   total_lumpsum := sum_of lumpsum_count rs;
                                   total_output_rows := sum_of output_rows rs |} |})
      end
  end.

(** [path.exists()] for [OUTPUT_DIR / name], [name] without separator:
    the directory itself, its parent, or a file of the directory. *)
Definition path_exists (w : World) (name : list N) : bool :=
  bool_decide (name = lit "." ∨ name = lit "..") ||
  bool_decide (is_Some (output_dir w !! name)).

(** [download]; [uuid] is the UUID that [sanitize_filename] may draw. *)
Definition download (uuid : N) (w : World) (name : list N)
  : HTTPException + FileResponse :=
  let safe := sanitize_filename (isalnum_nonascii env) uuid name in
  if path_exists w safe
  then inr {| path := safe; media_type := lit "text/csv"; response_filename := safe |}
  else inl {| status_code := 404; http_detail := Text (lit "File not found") |}.

End handlers.

Arguments input_file {float} _.
Arguments output_file {float} _.
Arguments download_url {float} _.
Arguments size_bytes {float} _.
Arguments elapsed_ms {float} _.
Arguments result_metrics {float} _.
Arguments results {float} _.
Arguments totals {float} _.
Arguments env_to_datetime {float} _.
Arguments isalnum_nonascii {float} _.
Arguments lower_unicode {float} _.
Arguments uuid4_fallback {float} _.
Arguments uuid4_prefix {float} _.
Arguments write_bytes_error {float} _.
Arguments to_csv_error {float} _.
Arguments read_csv {float} _.
Arguments str_exn {float} _.
Arguments elapsed {float} _.
Arguments process_upload {float} env i upload w.
Arguments safe_name_of {float} env i upload.
Arguments process_uploads {float} env i files w acc.
Arguments sum_of {float} f rs.
Arguments process_files {float} env files w.
Arguments download {float} env uuid w name.

(** ** Vocabulary of the properties *)

(** A table passes the validator. *)
Definition valid_table (df : DataFrame) : Prop := validate_columns df = [].

Definition scratch_column : string := "_level_sort".

Definition is_header (r : row) : Prop := r !! level_column = Some (Str "Header").
Definition is_lumpsum (r : row) : Prop := r !! level_column = Some (Str "Lumpsum").

#[global] Instance is_header_dec (r : row) : Decision (is_header r).
Proof. unfold is_header. apply _. Defined.

#[global] Instance is_lumpsum_dec (r : row) : Decision (is_lumpsum r).
Proof. unfold is_lumpsum. apply _. Defined.

(** The grouping key a row is sorted and shown under: a missing key counts
    as the empty string (line 107). *)
Definition rebate_key (r : row) : scalar := default (Str "") (r !! rebate_column).

(** The value of "_level_sort" for a row (line 106). *)
Definition level_sort (r : row) : scalar :=
  default (Num 2) (r !! level_column ≫= dict_get level_rank).

Definition presort_key (r : row) : list cell :=
  [Some (rebate_key r); Some (level_sort r)].

(** [df.drop(columns=cs)]: the table without the columns [cs]. *)
Definition drop_columns (cs : list string) (df : DataFrame) : DataFrame :=
  {| columns := filter (λ c, c ∉ cs) (columns df);
     rows := (λ r : row, filter (λ kv : string * scalar, kv.1 ∉ cs) r) <$> rows df |}.

(** ** Date normalization, cell by cell *)

(** The parser's result for the cell [c] of the series [s], for a call
    that returns. *)
Definition parsed (to_datetime : list cell → outcome (cell → option Timestamp))
    (s : list cell) (c : cell) : option Timestamp :=
  match to_datetime s with
  | Returned parse => parse c
  | Raised _ => None
  end.

(** Line 89 returns on the series [s]; on the date columns that the table
    [df] has. *)
Definition parses (to_datetime : list cell → outcome (cell → option Timestamp))
    (s : list cell) : Prop :=
  ∃ ps, to_datetime_coerce to_datetime s = Returned ps.

Definition dates_parse (to_datetime : list cell → outcome (cell → option Timestamp))
    (df : DataFrame) : Prop :=
  ∀ col, col ∈ DATE_COLUMNS → col ∈ columns df → parses to_datetime (column col df).

(** What date normalization writes in a cell of a date column: the
    canonical form of the date when the cell parses, the empty string when
    it does not.  [ctx] is the whole column, which the parser sees. *)
Definition normalized_cell (to_datetime : list cell → outcome (cell → option Timestamp))
    (ctx : list cell) (c : cell) : scalar :=
  match parsed to_datetime ctx c with
  | Some t => Str (strftime_mdY t)
  | None => Str ""
  end.

(** The cell that date normalization writes for a parse result. *)
Definition rendered (o : option Timestamp) : cell :=
  Some (match o with Some t => Str (strftime_mdY t) | None => Str "" end).

(** The right-hand side of line 90 for the series [s], where line 89
    returns. *)
Definition normalize_series (to_datetime : list cell → outcome (cell → option Timestamp))
    (s : list cell) : list cell :=
  fillna (Str "") (dt_strftime (parsed to_datetime s <$> s)).

(** The frame after lines 88-90 for the column [col], and after the loop
    of lines 87-90, where line 89 returns. *)
Definition normalized_date_column
    (to_datetime : list cell → outcome (cell → option Timestamp))
    (df : DataFrame) (col : string) : DataFrame :=
  if bool_decide (col ∈ columns df)
  then setitem col (normalize_series to_datetime (column col df)) df
  else df.

Definition normalized_dates (to_datetime : list cell → outcome (cell → option Timestamp))
    (df : DataFrame) : DataFrame :=
  foldl (normalized_date_column to_datetime) df DATE_COLUMNS.

(** The parser reads back what normalization wrote for the series [s]: on
    the normalized series it returns, and there the canonical form of a
    date of [s] reads as that date and the empty string written for a
    value that did not parse does not parse. *)
Definition reads_back (to_datetime : list cell → outcome (cell → option Timestamp))
    (s : list cell) : Prop :=
  parses to_datetime (normalize_series to_datetime s) ∧
  ∀ c, c ∈ s →
    parsed to_datetime (normalize_series to_datetime s)
      (rendered (parsed to_datetime s c)) = parsed to_datetime s c.

Definition dates_read_back (to_datetime : list cell → outcome (cell → option Timestamp))
    (df : DataFrame) : Prop :=
  ∀ col, col ∈ DATE_COLUMNS → col ∈ columns df → reads_back to_datetime (column col df).

(** An input row with its date cells normalized, within the table [df]. *)
Definition normalized_row (to_datetime : list cell → outcome (cell → option Timestamp))
    (df : DataFrame) (r : row) : row :=
  foldl (λ (r : row) col,
           if bool_decide (col ∈ columns df)
           then <[col := normalized_cell to_datetime (column col df) (r !! col)]> r
           else r)
    r DATE_COLUMNS.

(** ** The rows of the returned table *)

(** The columns of the header frame after line 96. *)
Definition header_columns (cols : list string) : list string :=
  add_label level_column (rebate_column :: filter (λ c, c ≠ rebate_column) cols).

(** The labels of the returned table for an input with the labels [cols]:
    [cols] itself where the labels are distinct. *)
Definition returned_columns (cols : list string) : list string :=
  selected_labels cols (header_columns cols).

Definition blank_cells (hcols : list string) (r : row) : row :=
  foldl (λ (r : row) c, if bool_decide (c ∈ hcols) then <[c := Str ""]> r else r)
    r LUMPSUM_COLUMNS.

(** The first value of column [c] that is not missing among the rows
    [grp]. *)
Definition first_present (c : string) (grp : list row) : cell :=
  head (omap (λ r : row, r !! c) grp).

(** The header row of the group of key [k], before the merge. *)
Definition header_row (df : DataFrame) (k : cell) : row :=
  blank_cells (header_columns (columns df))
    (<[level_column := Str "Header"]> (first_valid (group_rows rebate_column k (rows df)))).

(** A detail row after line 102. *)
Definition lumpsum_row (r : row) : row := <[level_column := Str "Lumpsum"]> r.

(** What lines 107 to 111 leave of a row of the merged frame: the key
    filled, the scratch column gone, the columns of the input kept. *)
Definition out_row (cols : list string) (r : row) : row :=
  filter (λ kv : string * scalar, kv.1 ∈ cols)
    (<[rebate_column := rebate_key r]> (delete scratch_column r)).

(** The rows of the merged frame of line 105, for a frame whose dates are
    normalized. *)
Definition merged_rows (df : DataFrame) : list row :=
  (header_row df <$> group_keys rebate_column df) ++ (lumpsum_row <$> rows df).

(** The rows of the table [process_dataframe] returns, for a frame [df]
    whose dates are normalized and the column list [cols] of the input. *)
Definition restructured_rows (cols : list string) (df : DataFrame) : list row :=
  out_row cols <$> stable_sort presort_key key_leb (merged_rows df).

(** The rows of the returned table: the header row of the group of key
    [k], and the detail row that comes from the input row [r]. *)
Definition header_out (to_datetime : list cell → outcome (cell → option Timestamp))
    (df : DataFrame) (k : cell) : row :=
  out_row (columns df) (header_row (normalized_dates to_datetime df) k).

Definition detail_out (to_datetime : list cell → outcome (cell → option Timestamp))
    (df : DataFrame) (r : row) : row :=
  out_row (columns df) (lumpsum_row (normalized_row to_datetime df r)).

(** The grouping keys of the header rows of a table, in row order. *)
Definition header_keys (out : DataFrame) : list cell :=
  (λ r : row, r !! rebate_column) <$> filter is_header (rows out).

(** The sort keys of the merged frame for the grouping key [k]: that of
    its header rows, then that of its detail rows. *)
Definition tier_keys (k : scalar) : list (list cell) :=
  [ [Some k; Some (Num 0)]; [Some k; Some (Num 1)] ].

(** The grouping keys of a table in ascending order, each once, a missing
    key counted as the empty string. *)
Definition ascending_keys (df : DataFrame) : list scalar :=
  stable_sort id scalar_leb (unique (rebate_key <$> rows df)).

(** ** Statements that the code does not satisfy *)

(** The statement that header rows come in first-seen order of the key. *)
Definition headers_in_first_seen_order
    (to_datetime : list cell → outcome (cell → option Timestamp)) (df : DataFrame) : Prop :=
  ∀ out m, (process_dataframe to_datetime df).2 = Returned (out, m) →
    header_keys out = fillna (Str "") (unique (column rebate_column df)).

(** The statement that a header row carries, outside the tier column and
    the detail-only columns, the cells of the first row of its group. *)
Definition header_copies_first_row
    (to_datetime : list cell → outcome (cell → option Timestamp)) (df : DataFrame) : Prop :=
  ∀ out m, (process_dataframe to_datetime df).2 = Returned (out, m) →
    ∀ h, h ∈ rows out → is_header h →
      ∃ r0, head (filter (λ r, rebate_key r = rebate_key h) (rows df)) = Some r0 ∧
        ∀ c, c ∈ columns df → c ≠ level_column → c ∉ LUMPSUM_COLUMNS →
          h !! c = r0 !! c.

(** The statement that the rows whose key is missing or empty make one
    group: one bucket of the distinct count and one header row. *)
Definition blank_keys_are_one_group
    (to_datetime : list cell → outcome (cell → option Timestamp)) (df : DataFrame) : Prop :=
  ∀ out m, (process_dataframe to_datetime df).2 = Returned (out, m) →
    (∃ r, r ∈ rows df ∧ rebate_key r = Str "") →
    distinct_rebates m = length (unique (rebate_key <$> rows df)) ∧
    length (filter (λ h, is_header h ∧ h !! rebate_column = Some (Str "")) (rows out)) = 1.

(** The statement that normalization keeps every value that is the
    canonical form of a date. *)
Definition canonical_values_are_kept
    (to_datetime : list cell → outcome (cell → option Timestamp)) (df : DataFrame) : Prop :=
  ∀ col, col ∈ DATE_COLUMNS → col ∈ columns df →
    ∀ i t, column col df !! i = Some (Some (Str (strftime_mdY t))) →
      column col (normalize_dates to_datetime DATE_COLUMNS df).1 !! i =
      Some (Some (Str (strftime_mdY t))).

(** ** Concrete tables *)

(** A row of text cells. *)
Definition text_row (cells : list (string * string)) : row :=
  list_to_map (prod_map id Str <$> cells).

Definition detail_row (name level fee amount branch lumpsum_date pay_date : string) : row :=
  text_row [ ("Rebate Name", name); ("Level", level); ("Lumpsum - Fee Type", fee);
             ("Lumpsum - Amount", amount); ("Lumpsum - Branch", branch);
             ("Lumpsum - Lumpsum Date", lumpsum_date); ("Lumpsum - Pay Date", pay_date) ].

(** Two groups, X with two rows and Y with one. *)
Definition sample_table : DataFrame :=
  {| columns := REQUIRED_COLUMNS;
     rows := [ detail_row "X" "" "Flat" "100" "NY" "01/02/2024" "02/01/2024";
               detail_row "X" "" "Pct" "2" "LA" "not a date" "";
               detail_row "Y" "" "Flat" "300" "SF" "12/31/1999" "02/30/2024" ] |}.

(** Keys in the order B, A, B, C. *)
Definition order_table : DataFrame :=
  {| columns := REQUIRED_COLUMNS;
     rows := [ detail_row "B" "" "Flat" "1" "NY" "01/02/2024" "";
               detail_row "A" "" "Flat" "2" "LA" "" "";
               detail_row "B" "" "Flat" "3" "SF" "" "";
               detail_row "C" "" "Flat" "4" "SF" "" "" ] |}.

(** One group whose first row has no value in the extra column "Note". *)
Definition note_table : DataFrame :=
  {| columns := REQUIRED_COLUMNS ++ ["Note"];
     rows := [ detail_row "X" "" "Flat" "100" "NY" "" "";
               <["Note" := Str "n2"]> (detail_row "X" "" "Pct" "2" "LA" "" "") ] |}.

(** A row whose key is missing, then a row whose key is the empty string. *)
Definition blank_key_table : DataFrame :=
  {| columns := REQUIRED_COLUMNS;
     rows := [ delete "Rebate Name" (detail_row "" "" "Flat" "100" "NY" "" "");
               detail_row "" "" "Pct" "2" "LA" "" "" ] |}.

(** A valid table that has a column named as the scratch column. *)
Definition scratch_table : DataFrame :=
  {| columns := REQUIRED_COLUMNS ++ ["_level_sort"];
     rows := [ <["_level_sort" := Str "7"]>
                 (detail_row "X" "" "Flat" "100" "NY" "01/02/2024" "02/01/2024") ] |}.

(** A valid table whose first date column holds two timestamps with
    different UTC offsets. *)
Definition offset_table : DataFrame :=
  {| columns := REQUIRED_COLUMNS;
     rows := [ detail_row "X" "" "Flat" "100" "NY" "2024-01-02T00:00:00+01:00" "02/01/2024";
               detail_row "X" "" "Pct" "2" "LA" "2024-01-02T00:00:00-05:00" "" ] |}.

(** A valid table whose first date column holds an ISO date, then a date
    in the canonical form; the second holds dates in the canonical form and
    a value that is no date. *)
Definition mixed_format_table : DataFrame :=
  {| columns := REQUIRED_COLUMNS;
     rows := [ detail_row "X" "" "Flat" "100" "NY" "2024-01-03" "02/01/2024";
               detail_row "X" "" "Pct" "2" "LA" "01/02/2024" "soon";
               detail_row "Y" "" "Flat" "300" "SF" "2023-12-31" "12/31/1999" ] |}.

(** A table with the grouping key and an extra column only, and a valid
    table without rows. *)
Definition bare_table : DataFrame :=
  {| columns := ["Note"; "Rebate Name"];
     rows := [ text_row [("Note", "n1"); ("Rebate Name", "B")];
               text_row [("Note", "n2"); ("Rebate Name", "A")] ] |}.


(** A table without the grouping key. *)
Definition keyless_table : DataFrame :=
  {| columns := ["Lumpsum - Pay Date"; "Note"];
     rows := [ text_row [("Lumpsum - Pay Date", "02/01/2024"); ("Note", "n1")];
               text_row [("Lumpsum - Pay Date", "soon"); ("Note", "n2")] ] |}.

Definition repr_label (label : string) : list N := lit "'" ++ lit label ++ lit "'".

Definition str_labels (labels : list string) : list N :=
  lit "[" ++
  match labels with
  | [] => []
  | l :: ls => repr_label l ++ (ls ≫= λ l', lit ", " ++ repr_label l')
  end ++ lit "]".

(** [str(exc)] for labels of plain ASCII text without quote or backslash.
    The [str] of a [KeyError] is the [repr] of its argument: a label in
    single quotes, a message that holds single quotes in double quotes
    (code point 34). *)
Definition str_of_exn (e : exn) : list N :=
  match e with
  | KeyError label => repr_label label
  | KeyError_none_of labels =>
      [34%N] ++ lit "None of [Index(" ++ str_labels labels ++
      lit ", dtype='object')] are in the [columns]" ++ [34%N]
  | KeyError_not_in_index labels =>
      [34%N] ++ str_labels labels ++ lit " not in index" ++ [34%N]
  | Error _ message => lit message
  end.

(** An environment where nothing fails: every stored upload reads as the
    table [df], dates are parsed by [parse_mdY], no character beyond ASCII
    is alphanumeric, the two UUIDs of the upload at position [i] start with
    the bits of [2 * i] and [2 * i + 1], and [elapsed_ms] carries no
    information; [str(exc)] is [str_of_exn]. *)
Definition quiet_env (df : DataFrame) : Env unit :=
  {| env_to_datetime := parse_mdY;
     isalnum_nonascii := λ _, false;
     lower_unicode := λ s, s;
     uuid4_fallback := λ i, N.of_nat (2 * i);
     uuid4_prefix := λ i, N.of_nat (2 * i + 1);
     write_bytes_error := λ _, None;
     to_csv_error := λ _, None;
     read_csv := λ _ _, inr df;
     str_exn := str_of_exn;
     elapsed := λ _, tt |}.

(** The same environment with the parser that infers the format of a
    series. *)
Definition inferring_env (df : DataFrame) : Env unit :=
  {| env_to_datetime := parse_inferred;
     isalnum_nonascii := λ _, false;
     lower_unicode := λ s, s;
     uuid4_fallback := λ i, N.of_nat (2 * i);
     uuid4_prefix := λ i, N.of_nat (2 * i + 1);
     write_bytes_error := λ _, None;
     to_csv_error := λ _, None;
     read_csv := λ _ _, inr df;
     str_exn := str_of_exn;
     elapsed := λ _, tt |}.

Definition empty_world : World := {| upload_dir := ∅; output_dir := ∅ |}.

Definition fees_upload : UploadFile :=
  {| filename := Some (lit "Fees 2024.CSV"); content := [Byte.x52; Byte.x0a] |}.

Definition unnamed_upload : UploadFile :=
  {| filename := None; content := [Byte.x52] |}.

Definition notes_upload : UploadFile :=
  {| filename := Some (lit "notes.txt"); content := [Byte.x52] |}.

(** * Properties *)

(** ** The orders are total orders *)

Lemma ord_refl `{LebOrder A ord} (x : A) : ord x x = true.
Proof. by destruct (ord_total x x). Qed.

#[global] Instance lex_leb_order `{EqDecision A} (ord : A → A → bool) :
  LebOrder ord → LebOrder (lex_leb ord).
Proof.
  intros Hord. split.
  - intros k1. induction k1 as [|a k1 IH]; intros [|b k2]; simpl; auto.
    destruct (decide (a = b)) as [->|Hne].
    + rewrite decide_True by done. apply IH.
    + rewrite decide_False by congruence. apply ord_total.
  - intros k1. induction k1 as [|a k1 IH]; intros [|b k2]; simpl; try done.
    destruct (decide (a = b)) as [->|Hne].
    + rewrite decide_True by done. intros H1 H2. f_equal. by apply IH.
    + rewrite decide_False by congruence. intros H1 H2.
      destruct Hne. by apply (ord_antisym (ord:=ord)).
  - intros k1. induction k1 as [|a k1 IH]; intros [|b k2] [|c k3]; simpl; try done.
    destruct (decide (a = b)) as [->|Hab].
    + destruct (decide (b = c)) as [->|Hbc]; [apply IH|done].
    + destruct (decide (b = c)) as [->|Hbc].
      * by rewrite decide_False by done.
      * intros H1 H2. destruct (decide (a = c)) as [->|Hac].
        -- destruct Hab. by apply (ord_antisym (ord:=ord)).
        -- by apply (ord_trans (ord:=ord)) with b.
Qed.

Lemma N_of_ascii_inj (a b : ascii) : N_of_ascii a = N_of_ascii b → a = b.
Proof.
  intros H. rewrite <- (ascii_N_embedding a), <- (ascii_N_embedding b). by rewrite H.
Qed.

#[global] Instance ascii_leb_order : LebOrder ascii_leb.
Proof.
  unfold ascii_leb. split.
  - intros x y. rewrite !N.leb_le. lia.
  - intros x y. rewrite !N.leb_le. intros. apply N_of_ascii_inj. lia.
  - intros x y z. rewrite !N.leb_le. lia.
Qed.

Lemma list_ascii_of_string_inj (s t : string) :
  String.list_ascii_of_string s = String.list_ascii_of_string t → s = t.
Proof.
  intros H. rewrite <- (String.string_of_list_ascii_of_string s),
    <- (String.string_of_list_ascii_of_string t). by rewrite H.
Qed.

#[global] Instance string_leb_order : LebOrder string_leb.
Proof.
  unfold string_leb. split.
  - intros x y. apply (ord_total (ord:=lex_leb ascii_leb)).
  - intros x y H1 H2. apply list_ascii_of_string_inj.
    by apply (ord_antisym (ord:=lex_leb ascii_leb)).
  - intros x y z. apply (ord_trans (ord:=lex_leb ascii_leb)).
Qed.

#[global] Instance scalar_leb_order : LebOrder scalar_leb.
Proof.
  split.
  - intros [s|a] [t|b]; simpl; auto.
    + apply (ord_total (ord:=string_leb)).
    + rewrite !Z.leb_le. lia.
  - intros [s|a] [t|b]; simpl; try done.
    + intros H1 H2. f_equal. by apply (ord_antisym (ord:=string_leb)).
    + rewrite !Z.leb_le. intros. f_equal. lia.
  - intros [s|a] [t|b] [u|c]; simpl; try done.
    + apply (ord_trans (ord:=string_leb)).
    + rewrite !Z.leb_le. lia.
Qed.

#[global] Instance cell_leb_order : LebOrder cell_leb.
Proof.
  split.
  - intros [x|] [y|]; simpl; auto. apply (ord_total (ord:=scalar_leb)).
  - intros [x|] [y|]; simpl; try done.
    intros H1 H2. f_equal. by apply (ord_antisym (ord:=scalar_leb)).
  - intros [x|] [y|] [z|]; simpl; try done. apply (ord_trans (ord:=scalar_leb)).
Qed.

#[global] Instance key_leb_order : LebOrder key_leb.
Proof. unfold key_leb. apply _. Qed.

(** ** Stable sorting: permutation, order, stability *)

Section stable_sort_facts.

Context {A K : Type} `{EqDecision K} (key : A → K) (ord : K → K → bool).
Context `{!LebOrder ord}.

Let R (a b : A) : Prop := ord (key a) (key b) = true.

Lemma insert_sorted_perm (x : A) (l : list A) : insert_sorted key ord x l ≡ₚ x :: l.
Proof.
  induction l as [|y l IH]; simpl; [done|].
  destruct (ord (key x) (key y)); [done|].
  rewrite IH. apply Permutation_swap.
Qed.

Lemma stable_sort_perm (l : list A) : stable_sort key ord l ≡ₚ l.
Proof.
  induction l as [|x l IH]; simpl; [done|].
  by rewrite insert_sorted_perm, IH.
Qed.

Lemma stable_sort_length (l : list A) : length (stable_sort key ord l) = length l.
Proof. by rewrite stable_sort_perm. Qed.

Lemma insert_sorted_sorted (x : A) (l : list A) :
  StronglySorted R l → StronglySorted R (insert_sorted key ord x l).
Proof.
  induction 1 as [|y l Hl IH Hy]; simpl.
  - repeat constructor.
  - destruct (ord (key x) (key y)) eqn:Hxy.
    + constructor; [by constructor|]. constructor; [done|].
      eapply Forall_impl; [exact Hy|]. intros z Hz. unfold R in *.
      by apply (ord_trans (ord:=ord)) with (key y).
    + constructor; [done|]. rewrite insert_sorted_perm. constructor; [|done].
      unfold R. destruct (ord_total (ord:=ord) (key x) (key y)); congruence.
Qed.

Lemma stable_sort_sorted (l : list A) : StronglySorted R (stable_sort key ord l).
Proof.
  induction l as [|x l IH]; simpl; [constructor|]. by apply insert_sorted_sorted.
Qed.

Lemma insert_sorted_filter (k : K) (x : A) (l : list A) :
  filter (λ a, key a = k) (insert_sorted key ord x l) =
  filter (λ a, key a = k) (x :: l).
Proof.
  induction l as [|y l IH]; simpl; [done|].
  destruct (ord (key x) (key y)) eqn:Hxy; [done|].
  rewrite filter_cons, IH, !filter_cons.
  destruct (decide (key x = k)) as [Hx|Hx]; [|done].
  destruct (decide (key y = k)) as [Hy|Hy]; [|done].
  rewrite Hx, Hy, ord_refl in Hxy. done.
Qed.

(** Stability: the elements of one key keep their order. *)
Lemma stable_sort_filter (k : K) (l : list A) :
  filter (λ a, key a = k) (stable_sort key ord l) = filter (λ a, key a = k) l.
Proof.
  induction l as [|x l IH]; simpl; [done|].
  by rewrite insert_sorted_filter, !filter_cons, IH.
Qed.

Lemma sorted_lookup (l : list A) (i j : nat) (x y : A) :
  StronglySorted R l → l !! i = Some x → l !! j = Some y → i < j → R x y.
Proof.
  intros Hl. revert i j. induction Hl as [|z l Hl IH Hz]; intros i j Hi Hj Hij.
  - done.
  - destruct j as [|j]; [lia|]. simpl in Hj. destruct i as [|i]; simpl in Hi.
    + simplify_eq. rewrite Forall_forall in Hz. apply Hz.
      by eapply list_elem_of_lookup_2.
    + apply (IH i j); [done..|lia].
Qed.

(** A list sorted by key is determined by its elements key by key. *)
Lemma sorted_by_key_unique (l1 l2 : list A) :
  StronglySorted R l1 → StronglySorted R l2 →
  (∀ k, filter (λ a, key a = k) l1 = filter (λ a, key a = k) l2) →
  l1 = l2.
Proof.
  intros H1. revert l2.
  induction H1 as [|x l1 Hl1 IH Hx]; intros l2 H2 Hf.
  - destruct l2 as [|y l2]; [done|].
    specialize (Hf (key y)). rewrite filter_nil, filter_cons_True in Hf; done.
  - destruct H2 as [|y l2 Hl2 Hy].
    { specialize (Hf (key x)). rewrite filter_nil, filter_cons_True in Hf; done. }
    assert (Hmin : ∀ (a : A) (m : list A) (b : A),
        Forall (R a) m → b ∈ a :: m → R a b).
    { intros a m b Hm Hb. apply elem_of_cons in Hb as [->|Hb].
      - apply ord_refl.
      - rewrite Forall_forall in Hm. by apply Hm. }
    assert (Hk : key x = key y).
    { apply (ord_antisym (ord:=ord)).
      - assert (y ∈ filter (λ a, key a = key y) (x :: l1)) as Hin.
        { rewrite Hf, filter_cons_True by done. left. }
        apply list_elem_of_filter in Hin as [_ Hin]. exact (Hmin x l1 y Hx Hin).
      - assert (x ∈ filter (λ a, key a = key x) (y :: l2)) as Hin.
        { rewrite <- Hf, filter_cons_True by done. left. }
        apply list_elem_of_filter in Hin as [_ Hin]. exact (Hmin y l2 x Hy Hin). }
    pose proof (Hf (key x)) as Hfx.
    rewrite filter_cons_True, (filter_cons_True _ y) in Hfx by done.
    injection Hfx as -> Hfx. f_equal. apply IH; [done|].
    intros k. destruct (decide (key y = k)) as [<-|Hne]; [done|].
    specialize (Hf k). by rewrite !filter_cons_False in Hf.
Qed.

End stable_sort_facts.

Lemma insert_sorted_fmap {A B K} (f : A → B) (key : B → K) (ord : K → K → bool)
    (x : A) (m : list A) :
  insert_sorted key ord (f x) (f <$> m) = f <$> insert_sorted (key ∘ f) ord x m.
Proof.
  induction m as [|y m IHm]; csimpl; [done|].
  destruct (ord (key (f x)) (key (f y))); csimpl; [done|]. by rewrite IHm.
Qed.

Lemma stable_sort_fmap {A B K} (f : A → B) (key : B → K) (ord : K → K → bool)
    (l : list A) :
  stable_sort key ord (f <$> l) = f <$> stable_sort (key ∘ f) ord l.
Proof.
  unfold stable_sort. induction l as [|x l IH]; csimpl; [done|].
  by rewrite IH, insert_sorted_fmap.
Qed.

Lemma insert_sorted_ext {A K} (key1 key2 : A → K) (ord : K → K → bool)
    (x : A) (m : list A) :
  (∀ x, key1 x = key2 x) → insert_sorted key1 ord x m = insert_sorted key2 ord x m.
Proof.
  intros Hk. induction m as [|y m IHm]; csimpl; [done|].
  rewrite !Hk. destruct (ord (key2 x) (key2 y)); [done|]. by rewrite IHm.
Qed.

Lemma stable_sort_ext {A K} (key1 key2 : A → K) (ord : K → K → bool) (l : list A) :
  (∀ x, key1 x = key2 x) → stable_sort key1 ord l = stable_sort key2 ord l.
Proof.
  intros Hk. unfold stable_sort. induction l as [|x l IH]; csimpl; [done|].
  rewrite IH. by apply insert_sorted_ext.
Qed.

(** A sorted list is the succession of its key classes, keys ascending. *)
Section sort_blocks.

Context {A K : Type} `{EqDecision K} (key : A → K) (ord : K → K → bool).
Context `{!LebOrder ord}.

Lemma ascending_cons_notin (k : K) (ks : list K) : ascending ord (k :: ks) → k ∉ ks.
Proof.
  intros H%StronglySorted_cons. destruct H as [H _]. rewrite Forall_forall in H.
  intros Hin. by destruct (H k Hin).
Qed.

Lemma filter_key_same (k : K) (l : list A) :
  filter (λ a, key a = k) (filter (λ a, key a = k) l) = filter (λ a, key a = k) l.
Proof.
  induction l as [|x l IH]; [done|]. rewrite !filter_cons.
  destruct (decide (key x = k)); [|done]. rewrite filter_cons_True by done.
  by rewrite IH.
Qed.

Lemma filter_key_other (k k' : K) (l : list A) :
  k ≠ k' → filter (λ a, key a = k) (filter (λ a, key a = k') l) = [].
Proof.
  intros Hne. induction l as [|x l IH]; [done|]. rewrite filter_cons.
  destruct (decide (key x = k')); [|done].
  rewrite filter_cons_False by congruence. done.
Qed.

Lemma filter_key_absent (k : K) (l : list A) :
  (∀ a, a ∈ l → key a ≠ k) → filter (λ a, key a = k) l = [].
Proof.
  intros H. induction l as [|x l IH]; [done|].
  rewrite filter_cons_False by (apply H; left).
  apply IH. intros a Ha. apply H. by right.
Qed.

Lemma filter_blocks (ks : list K) (k : K) (l : list A) :
  ascending ord ks →
  filter (λ a, key a = k) (ks ≫= λ k', filter (λ a, key a = k') l) =
  if decide (k ∈ ks) then filter (λ a, key a = k) l else [].
Proof.
  induction ks as [|k0 ks IH]; intros Hks.
  - by rewrite decide_False by apply not_elem_of_nil.
  - pose proof (ascending_cons_notin _ _ Hks) as Hk0.
    apply StronglySorted_cons in Hks as [_ Hks].
    rewrite bind_cons, filter_app, IH by done.
    destruct (decide (k = k0)) as [->|Hne].
    + rewrite filter_key_same, decide_False by done.
      rewrite decide_True by left. by rewrite app_nil_r.
    + rewrite filter_key_other by done. simpl.
      destruct (decide (k ∈ ks)) as [Hin|Hin].
      * rewrite decide_True by (by right). done.
      * rewrite decide_False; [done|]. rewrite not_elem_of_cons. done.
Qed.

Lemma blocks_sorted (ks : list K) (l : list A) :
  ascending ord ks →
  StronglySorted (λ a b, ord (key a) (key b) = true)
    (ks ≫= λ k', filter (λ a, key a = k') l).
Proof.
  induction ks as [|k0 ks IH]; intros Hks; [constructor|].
  pose proof Hks as Hks'. apply StronglySorted_cons in Hks' as [Hk0 Hks'].
  rewrite bind_cons. apply StronglySorted_app. split_and!.
  - intros x y Hx Hy. apply list_elem_of_filter in Hx as [Hx _].
    apply list_elem_of_bind in Hy as (k1 & Hy & Hk1).
    apply list_elem_of_filter in Hy as [Hy _].
    rewrite Forall_forall in Hk0. destruct (Hk0 k1 Hk1) as [Hle _].
    by rewrite Hx, Hy.
  - generalize l. intros m. induction m as [|x m IHm]; [constructor|].
    rewrite filter_cons. destruct (decide (key x = k0)) as [Hx|]; [|done].
    constructor; [done|]. rewrite Forall_forall. intros y Hy.
    apply list_elem_of_filter in Hy as [Hy _]. rewrite Hx, Hy. apply ord_refl.
  - by apply IH.
Qed.

Lemma stable_sort_blocks (ks : list K) (l : list A) :
  ascending ord ks →
  (∀ a, a ∈ l → key a ∈ ks) →
  stable_sort key ord l = ks ≫= λ k, filter (λ a, key a = k) l.
Proof.
  intros Hks Hcover. apply (sorted_by_key_unique key ord).
  - apply stable_sort_sorted. done.
  - by apply blocks_sorted.
  - intros k. rewrite stable_sort_filter, filter_blocks by done.
    destruct (decide (k ∈ ks)) as [|Hk]; [done|].
    apply filter_key_absent. intros a Ha <-. by apply Hk, Hcover.
Qed.

End sort_blocks.

(** ** Distinct values *)

Lemma elem_of_unique `{EqDecision A} (l : list A) (x : A) : x ∈ unique l ↔ x ∈ l.
Proof.
  induction l as [|y l IH]; simpl; [done|].
  rewrite !elem_of_cons, list_elem_of_filter, IH.
  destruct (decide (x = y)); tauto.
Qed.

Lemma NoDup_unique `{EqDecision A} (l : list A) : NoDup (unique l).
Proof.
  induction l as [|y l IH]; simpl; [constructor|].
  constructor.
  - rewrite list_elem_of_filter. by intros [? _].
  - by apply NoDup_filter.
Qed.

Lemma sorted_NoDup_ascending {K} (ord : K → K → bool) (ks : list K) :
  StronglySorted (λ a b, ord a b = true) ks → NoDup ks → ascending ord ks.
Proof.
  induction 1 as [|k ks Hks IH Hk]; intros Hnd; [constructor|].
  apply NoDup_cons in Hnd as [Hnotin Hnd].
  constructor; [by apply IH|].
  rewrite Forall_forall in *. intros x Hx. split; [by apply Hk|].
  intros ->. done.
Qed.

Lemma sorted_unique_ascending `{EqDecision K} (ord : K → K → bool) `{!LebOrder ord}
    (l : list K) :
  ascending ord (stable_sort id ord (unique l)).
Proof.
  apply sorted_NoDup_ascending.
  - apply (stable_sort_sorted id ord).
  - rewrite (stable_sort_perm id ord). apply NoDup_unique.
Qed.

Lemma elem_of_sorted_unique `{EqDecision K} (ord : K → K → bool) `{!LebOrder ord}
    (l : list K) (x : K) :
  x ∈ stable_sort id ord (unique l) ↔ x ∈ l.
Proof. by rewrite (stable_sort_perm id ord), elem_of_unique. Qed.

(** ** Frame operations *)

Lemma filter_all {A} (P : A → Prop) `{!∀ x, Decision (P x)} (l : list A) :
  (∀ x, x ∈ l → P x) → filter P l = l.
Proof.
  induction l as [|x l IH]; intros Hall; [done|].
  rewrite filter_cons_True by (apply Hall; left).
  f_equal. apply IH. intros y Hy. apply Hall. by right.
Qed.

Lemma filter_none {A} (P : A → Prop) `{!∀ x, Decision (P x)} (l : list A) :
  (∀ x, x ∈ l → ¬ P x) → filter P l = [].
Proof.
  induction l as [|x l IH]; intros Hall; [done|].
  rewrite filter_cons_False by (apply Hall; left).
  apply IH. intros y Hy. apply Hall. by right.
Qed.

Lemma filter_eq_NoDup `{EqDecision A} (x : A) (l : list A) :
  NoDup l → x ∈ l → filter (λ y, y = x) l = [x].
Proof.
  induction 1 as [|y l Hy Hl IH]; intros Hx; [by apply elem_of_nil in Hx|].
  rewrite filter_cons. destruct (decide (y = x)) as [->|Hne].
  - f_equal. apply filter_none. intros z Hz ->. done.
  - apply IH. apply elem_of_cons in Hx as [->|]; done.
Qed.

Lemma unique_all_equal `{EqDecision A} (x : A) (l : list A) :
  l ≠ [] → (∀ y, y ∈ l → y = x) → unique l = [x].
Proof.
  destruct l as [|y l]; [done|]. intros _ Hall. simpl.
  rewrite (Hall y) by left. f_equal. apply filter_none.
  intros z Hz Hne. apply Hne, Hall. right. by apply elem_of_unique.
Qed.

Lemma length_filter_lt {A} (P : A → Prop) `{!∀ x, Decision (P x)} (l : list A) (x : A) :
  x ∈ l → ¬ P x → length (filter P l) < length l.
Proof.
  induction l as [|y l IH]; intros Hx Hn; [by apply elem_of_nil in Hx|].
  pose proof (length_filter P l) as Hle.
  rewrite filter_cons. apply elem_of_cons in Hx as [->|Hx].
  - rewrite decide_False by done. simpl. lia.
  - specialize (IH Hx Hn). destruct (decide (P y)); simpl; lia.
Qed.

Lemma elem_of_selected_labels (cols have : list string) (c : string) :
  c ∈ selected_labels cols have ↔ c ∈ cols ∧ c ∈ have.
Proof.
  unfold selected_labels. rewrite list_elem_of_bind. split.
  - intros (c' & Hc & Hc'). apply list_elem_of_filter in Hc as [-> Hc]. done.
  - intros [Hc Hh]. exists c. split; [|done]. by apply list_elem_of_filter.
Qed.

(** Where the labels are distinct, [df[cols]] has the labels [cols]. *)
Lemma selected_labels_NoDup (cols have : list string) :
  NoDup have → (∀ c, c ∈ cols → c ∈ have) → selected_labels cols have = cols.
Proof.
  intros Hnd. unfold selected_labels.
  induction cols as [|c cols IH]; intros Hall; [done|].
  rewrite bind_cons, IH by (intros c' Hc'; apply Hall; by right).
  rewrite filter_eq_NoDup; [done|done|]. apply Hall. left.
Qed.

Lemma elem_of_add_label (col : string) (cols : list string) (c : string) :
  c ∈ add_label col cols ↔ c = col ∨ c ∈ cols.
Proof.
  unfold add_label. case_bool_decide as Hin.
  - split; [auto|]. by intros [->|].
  - rewrite elem_of_app, list_elem_of_singleton. tauto.
Qed.

Lemma add_label_present (col : string) (cols : list string) :
  col ∈ cols → add_label col cols = cols.
Proof. intros H. unfold add_label. by rewrite bool_decide_eq_true_2. Qed.

Lemma zip_with_fmap_same {A B C} (f : B → A → C) (g : A → B) (l : list A) :
  zip_with f (g <$> l) l = (λ x, f (g x) x) <$> l.
Proof. induction l as [|x l IH]; csimpl; [done|]. by rewrite IH. Qed.

Lemma fillna_column (v : scalar) (c : string) (df : DataFrame) :
  fillna v (column c df) = (λ r : row, Some (default v (r !! c))) <$> rows df.
Proof. unfold fillna, column. by rewrite <- list_fmap_compose. Qed.

Lemma columns_blank_column (h : DataFrame) (c : string) :
  columns (blank_column h c) = columns h.
Proof.
  unfold blank_column. case_bool_decide as Hin; [|done].
  simpl. by apply add_label_present.
Qed.

Lemma rows_blank_column (h : DataFrame) (c : string) :
  rows (blank_column h c) =
  (λ r : row, if bool_decide (c ∈ columns h) then <[c := Str ""]> r else r) <$> rows h.
Proof.
  unfold blank_column. case_bool_decide as Hin; simpl; [done|].
  by rewrite list_fmap_id.
Qed.

Lemma columns_foldl_blank_column (h : DataFrame) (cs : list string) :
  columns (foldl blank_column h cs) = columns h.
Proof.
  revert h. induction cs as [|c cs IH]; intros h; simpl; [done|].
  by rewrite IH, columns_blank_column.
Qed.

Lemma rows_foldl_blank_column (h : DataFrame) (cs : list string) :
  rows (foldl blank_column h cs) =
  (λ r : row, foldl (λ (r : row) c,
      if bool_decide (c ∈ columns h) then <[c := Str ""]> r else r) r cs) <$> rows h.
Proof.
  revert h. induction cs as [|c cs IH]; intros h; simpl.
  - by rewrite list_fmap_id.
  - rewrite IH, columns_blank_column, rows_blank_column.
    by rewrite <- list_fmap_compose.
Qed.

Lemma getitem_columns_present (cols : list string) (df : DataFrame) :
  (∀ c, c ∈ cols → c ∈ columns df) →
  getitem_columns cols df =
  Returned {| columns := selected_labels cols (columns df);
              rows := (λ r : row, filter (λ kv, kv.1 ∈ cols) r) <$> rows df |}.
Proof.
  intros H. unfold getitem_columns.
  destruct (filter (λ c, c ∉ columns df) cols) as [|c l] eqn:Hf; [done|].
  assert (c ∈ filter (λ c, c ∉ columns df) cols) as Hc by (rewrite Hf; left).
  apply list_elem_of_filter in Hc as [Hc1 Hc2]. destruct Hc1. by apply H.
Qed.

(** One label that is not a column, among labels that are. *)
Lemma getitem_columns_absent (cols : list string) (df : DataFrame) (c c0 : string) :
  c ∈ cols → c ∉ columns df → c0 ∈ cols → c0 ∈ columns df →
  (∀ c', c' ∈ cols → c' ≠ c → c' ∈ columns df) →
  getitem_columns cols df = Raised (KeyError_not_in_index [c]).
Proof.
  intros Hc Hn Hc0 Hin0 Hothers. unfold getitem_columns.
  assert (Hlt : length (filter (λ c, c ∉ columns df) cols) < length cols).
  { apply (length_filter_lt _ _ c0); [done|]. by intros H. }
  assert (Hne : filter (λ c, c ∉ columns df) cols ≠ []).
  { intros Hnil.
    assert (c ∈ filter (λ c, c ∉ columns df) cols) as Hin
      by (by apply list_elem_of_filter).
    rewrite Hnil in Hin. by apply elem_of_nil in Hin. }
  assert (Hall : ∀ y, y ∈ filter (λ c, c ∉ columns df) cols → y = c).
  { intros y [Hy1 Hy2]%list_elem_of_filter.
    destruct (decide (y = c)) as [|Hyc]; [done|]. destruct Hy1. by apply Hothers. }
  destruct (filter (λ c, c ∉ columns df) cols) as [|c' l] eqn:Hf; [done|].
  rewrite bool_decide_eq_false_2 by lia.
  by rewrite (unique_all_equal c).
Qed.

(** ** Date normalization *)

Section normalization_facts.

Variable to_datetime : list cell → outcome (cell → option Timestamp).

Lemma normalized_series (col : string) (df : DataFrame) :
  normalize_series to_datetime (column col df) =
  (λ r : row, Some (normalized_cell to_datetime (column col df) (r !! col))) <$> rows df.
Proof.
  unfold normalize_series, fillna, dt_strftime, column.
  rewrite <- !list_fmap_compose. apply list_fmap_ext. intros _ r _. simpl.
  unfold normalized_cell. by destruct (parsed _ _ _).
Qed.

Lemma columns_normalized_date_column (df : DataFrame) (col : string) :
  columns (normalized_date_column to_datetime df col) = columns df.
Proof.
  unfold normalized_date_column. case_bool_decide; [|done].
  simpl. by apply add_label_present.
Qed.

Lemma rows_normalized_date_column (df : DataFrame) (col : string) :
  rows (normalized_date_column to_datetime df col) =
  if bool_decide (col ∈ columns df)
  then (λ r : row,
          <[col := normalized_cell to_datetime (column col df) (r !! col)]> r) <$> rows df
  else rows df.
Proof.
  unfold normalized_date_column. case_bool_decide; [|done].
  simpl. by rewrite normalized_series, zip_with_fmap_same.
Qed.

Lemma column_normalized_date_column_ne (df : DataFrame) (col c : string) :
  c ≠ col → column c (normalized_date_column to_datetime df col) = column c df.
Proof.
  intros Hne. unfold column. rewrite rows_normalized_date_column.
  case_bool_decide; [|done]. rewrite <- list_fmap_compose.
  apply list_fmap_ext. intros _ r _. simpl. by rewrite lookup_insert_ne.
Qed.

Lemma column_normalized_date_column_eq (df : DataFrame) (col : string) :
  col ∈ columns df →
  column col (normalized_date_column to_datetime df col) =
  (λ c, Some (normalized_cell to_datetime (column col df) c)) <$> column col df.
Proof.
  intros Hin. unfold column at 1. rewrite rows_normalized_date_column.
  rewrite bool_decide_eq_true_2 by done.
  generalize (normalized_cell to_datetime (column col df)). intros g.
  unfold column. rewrite <- !list_fmap_compose.
  apply list_fmap_ext. intros _ r _. simpl. by rewrite lookup_insert_eq.
Qed.

Lemma columns_normalized_dates (df : DataFrame) :
  columns (normalized_dates to_datetime df) = columns df.
Proof.
  unfold normalized_dates, DATE_COLUMNS. simpl.
  by rewrite !columns_normalized_date_column.
Qed.

Lemma len_normalized_date_column (df : DataFrame) (col : string) :
  len (normalized_date_column to_datetime df col) = len df.
Proof.
  unfold len. rewrite rows_normalized_date_column.
  case_bool_decide; [|done]. by rewrite length_fmap.
Qed.

Lemma len_normalized_dates (df : DataFrame) : len (normalized_dates to_datetime df) = len df.
Proof.
  unfold normalized_dates, DATE_COLUMNS. simpl.
  by rewrite !len_normalized_date_column.
Qed.

Lemma column_normalized_dates_other (df : DataFrame) (c : string) :
  c ∉ DATE_COLUMNS → column c (normalized_dates to_datetime df) = column c df.
Proof.
  intros Hc. unfold normalized_dates, DATE_COLUMNS in *. simpl.
  rewrite !not_elem_of_cons in Hc. destruct Hc as (H1 & H2 & _).
  by rewrite !column_normalized_date_column_ne.
Qed.

(** *** The loop of lines 87 to 90 *)

Lemma to_datetime_coerce_returned (s : list cell) (ps : list (option Timestamp)) :
  to_datetime_coerce to_datetime s = Returned ps → ps = parsed to_datetime s <$> s.
Proof.
  unfold to_datetime_coerce, parsed. destruct s as [|c s]; [by intros [= <-]|].
  destruct (to_datetime (c :: s)); by intros [= <-].
Qed.

Lemma parses_or_raises (s : list cell) :
  parses to_datetime s ∨ ∃ e, to_datetime_coerce to_datetime s = Raised e.
Proof.
  unfold parses. destruct (to_datetime_coerce to_datetime s) as [ps|e]; [left|right];
    by eexists.
Qed.


Lemma normalize_date_column_returns (df : DataFrame) (col : string) :
  (col ∈ columns df → parses to_datetime (column col df)) →
  normalize_date_column to_datetime df col =
  Returned (normalized_date_column to_datetime df col).
Proof.
  intros Hp. unfold normalize_date_column, normalized_date_column.
  case_bool_decide as Hin; [|done]. destruct (Hp Hin) as [ps Hps]. rewrite Hps.
  by apply to_datetime_coerce_returned in Hps as ->.
Qed.

Lemma normalize_date_column_raises (df : DataFrame) (col : string) (e : exn) :
  col ∈ columns df → to_datetime_coerce to_datetime (column col df) = Raised e →
  normalize_date_column to_datetime df col = Raised e.
Proof.
  intros Hin He. unfold normalize_date_column.
  by rewrite bool_decide_eq_true_2, He.
Qed.

(** The parser is called on the second date column as the caller passed
    it. *)
Lemma column_pay_date_after_first (df : DataFrame) :
  column "Lumpsum - Pay Date"
    (normalized_date_column to_datetime df "Lumpsum - Lumpsum Date") =
  column "Lumpsum - Pay Date" df.
Proof. by apply column_normalized_date_column_ne. Qed.

Lemma normalize_dates_returns (df : DataFrame) :
  dates_parse to_datetime df →
  normalize_dates to_datetime DATE_COLUMNS df = (normalized_dates to_datetime df, None).
Proof.
  intros Hp. unfold DATE_COLUMNS, normalized_dates. cbn [normalize_dates foldl].
  rewrite normalize_date_column_returns.
  2: { apply Hp. by apply (bool_decide_unpack _). }
  rewrite normalize_date_column_returns; [done|].
  rewrite columns_normalized_date_column, column_pay_date_after_first.
  apply Hp. by apply (bool_decide_unpack _).
Qed.

Lemma normalize_dates_raises_first (df : DataFrame) (e : exn) :
  "Lumpsum - Lumpsum Date" ∈ columns df →
  to_datetime_coerce to_datetime (column "Lumpsum - Lumpsum Date" df) = Raised e →
  normalize_dates to_datetime DATE_COLUMNS df = (df, Some e).
Proof.
  intros Hin He. unfold DATE_COLUMNS. cbn [normalize_dates].
  by rewrite (normalize_date_column_raises df _ e).
Qed.

Lemma normalize_dates_raises_second (df : DataFrame) (e : exn) :
  ("Lumpsum - Lumpsum Date" ∈ columns df →
   parses to_datetime (column "Lumpsum - Lumpsum Date" df)) →
  "Lumpsum - Pay Date" ∈ columns df →
  to_datetime_coerce to_datetime (column "Lumpsum - Pay Date" df) = Raised e →
  normalize_dates to_datetime DATE_COLUMNS df =
  (normalized_date_column to_datetime df "Lumpsum - Lumpsum Date", Some e).
Proof.
  intros Hp Hin He. unfold DATE_COLUMNS. cbn [normalize_dates].
  rewrite normalize_date_column_returns by done.
  rewrite (normalize_date_column_raises _ _ e); [done| |].
  - by rewrite columns_normalized_date_column.
  - by rewrite column_pay_date_after_first.
Qed.

(** The loop ends without an exception exactly when the parser returns on
    the date columns that the table has; otherwise it raises what the
    parser raised on the first of them on which it raised. *)
Lemma normalize_dates_cases (df : DataFrame) :
  (dates_parse to_datetime df ∧
   normalize_dates to_datetime DATE_COLUMNS df = (normalized_dates to_datetime df, None)) ∨
  (∃ col e df',
     col ∈ DATE_COLUMNS ∧ col ∈ columns df ∧
     to_datetime_coerce to_datetime (column col df) = Raised e ∧
     (df' = df ∨
      df' = normalized_date_column to_datetime df "Lumpsum - Lumpsum Date") ∧
     normalize_dates to_datetime DATE_COLUMNS df = (df', Some e)).
Proof.
  destruct (decide ("Lumpsum - Lumpsum Date" ∈ columns df)) as [H1|H1].
  - destruct (parses_or_raises (column "Lumpsum - Lumpsum Date" df)) as [Hp1|[e He]].
    2: { right. exists "Lumpsum - Lumpsum Date", e, df. split_and!; try done.
         - by apply (bool_decide_unpack _).
         - by left.
         - by apply normalize_dates_raises_first. }
    destruct (decide ("Lumpsum - Pay Date" ∈ columns df)) as [H2|H2].
    + destruct (parses_or_raises (column "Lumpsum - Pay Date" df)) as [Hp2|[e He]].
      2: { right. exists "Lumpsum - Pay Date", e,
             (normalized_date_column to_datetime df "Lumpsum - Lumpsum Date").
           split_and!; try done.
           - by apply (bool_decide_unpack _).
           - by right.
           - by apply normalize_dates_raises_second. }
      assert (Hp : dates_parse to_datetime df).
      { intros col Hcol _. unfold DATE_COLUMNS in Hcol.
        rewrite !elem_of_cons in Hcol. destruct Hcol as [->|[->|Hcol]]; [done|done|].
        by apply elem_of_nil in Hcol. }
      left. split; [done|]. by apply normalize_dates_returns.
    + assert (Hp : dates_parse to_datetime df).
      { intros col Hcol Hin. unfold DATE_COLUMNS in Hcol.
        rewrite !elem_of_cons in Hcol. destruct Hcol as [->|[->|Hcol]]; [done|done|].
        by apply elem_of_nil in Hcol. }
      left. split; [done|]. by apply normalize_dates_returns.
  - destruct (decide ("Lumpsum - Pay Date" ∈ columns df)) as [H2|H2].
    + destruct (parses_or_raises (column "Lumpsum - Pay Date" df)) as [Hp2|[e He]].
      2: { right. exists "Lumpsum - Pay Date", e,
             (normalized_date_column to_datetime df "Lumpsum - Lumpsum Date").
           split_and!; try done.
           - by apply (bool_decide_unpack _).
           - by right.
           - by apply normalize_dates_raises_second. }
      assert (Hp : dates_parse to_datetime df).
      { intros col Hcol Hin. unfold DATE_COLUMNS in Hcol.
        rewrite !elem_of_cons in Hcol. destruct Hcol as [->|[->|Hcol]]; [done|done|].
        by apply elem_of_nil in Hcol. }
      left. split; [done|]. by apply normalize_dates_returns.
    + assert (Hp : dates_parse to_datetime df).
      { intros col Hcol Hin. unfold DATE_COLUMNS in Hcol.
        rewrite !elem_of_cons in Hcol. destruct Hcol as [->|[->|Hcol]]; [done|done|].
        by apply elem_of_nil in Hcol. }
      left. split; [done|]. by apply normalize_dates_returns.
Qed.

End normalization_facts.

(** ** The run of [process_dataframe] *)

Lemma rebate_ne_scratch : rebate_column ≠ scratch_column.
Proof. discriminate. Qed.

Lemma level_ne_scratch : level_column ≠ scratch_column.
Proof. discriminate. Qed.

Lemma level_ne_rebate : level_column ≠ rebate_column.
Proof. discriminate. Qed.

Ltac label_ne :=
  first [ apply rebate_ne_scratch | apply level_ne_scratch | apply level_ne_rebate
        | symmetry; first [ apply rebate_ne_scratch | apply level_ne_scratch
                          | apply level_ne_rebate ] ].

Lemma rows_header_frame (df : DataFrame) :
  rows (foldl blank_column
          (setitem_scalar level_column (Str "Header") (groupby_first rebate_column df))
          LUMPSUM_COLUMNS) =
  header_row df <$> group_keys rebate_column df.
Proof.
  rewrite rows_foldl_blank_column. simpl. rewrite <- !list_fmap_compose.
  apply list_fmap_ext. by intros _ k _.
Qed.

Lemma columns_header_frame (df : DataFrame) :
  columns (foldl blank_column
          (setitem_scalar level_column (Str "Header") (groupby_first rebate_column df))
          LUMPSUM_COLUMNS) =
  header_columns (columns df).
Proof. by rewrite columns_foldl_blank_column. Qed.

Lemma rows_assign_level_sort (f : DataFrame) :
  rows (setitem scratch_column
          (fillna (Num 2) (series_map level_rank (column level_column f))) f) =
  (λ r : row, <[scratch_column := level_sort r]> r) <$> rows f.
Proof.
  unfold fillna, series_map, column. simpl. rewrite <- !list_fmap_compose.
  by rewrite zip_with_fmap_same.
Qed.

Lemma rows_fill_rebate (f : DataFrame) :
  rows (setitem rebate_column (fillna (Str "") (column rebate_column f)) f) =
  (λ r : row, <[rebate_column := rebate_key r]> r) <$> rows f.
Proof.
  rewrite fillna_column. simpl. by rewrite zip_with_fmap_same.
Qed.

Lemma rows_drop_column (c : string) (f : DataFrame) :
  rows (drop_column c f) = (λ r : row, delete c r) <$> rows f.
Proof. done. Qed.

Lemma rows_sort_values (by_ : list string) (f : DataFrame) :
  rows (sort_values by_ f) = stable_sort (sort_key by_) key_leb (rows f).
Proof. done. Qed.

(** Lines 106 to 109 on the rows of the merged frame. *)
Lemma rows_sorted_frame (f : DataFrame) :
  let f1 := setitem scratch_column
              (fillna (Num 2) (series_map level_rank (column level_column f))) f in
  let f2 := setitem rebate_column (fillna (Str "") (column rebate_column f1)) f1 in
  rows (drop_column scratch_column (sort_values [rebate_column; scratch_column] f2)) =
  (λ r : row, <[rebate_column := rebate_key r]> (delete scratch_column r))
    <$> stable_sort presort_key key_leb (rows f).
Proof.
  intros f1 f2. rewrite rows_drop_column, rows_sort_values.
  unfold f2. rewrite rows_fill_rebate. unfold f1. rewrite rows_assign_level_sort.
  rewrite <- list_fmap_compose, stable_sort_fmap, <- list_fmap_compose.
  rewrite (stable_sort_ext _ presort_key).
  - apply list_fmap_ext. intros _ r _. simpl.
    rewrite delete_insert_ne by label_ne.
    rewrite delete_insert_eq. unfold rebate_key.
    by rewrite lookup_insert_ne by label_ne.
  - intros r. unfold sort_key, presort_key. simpl.
    rewrite lookup_insert_eq.
    rewrite lookup_insert_ne by label_ne.
    rewrite lookup_insert_eq. unfold rebate_key.
    by rewrite lookup_insert_ne by label_ne.
Qed.

Lemma elem_of_columns_sorted_frame (f : DataFrame) (c : string) :
  let f1 := setitem scratch_column
              (fillna (Num 2) (series_map level_rank (column level_column f))) f in
  let f2 := setitem rebate_column (fillna (Str "") (column rebate_column f1)) f1 in
  c ∈ columns (drop_column scratch_column (sort_values [rebate_column; scratch_column] f2))
  ↔ c ≠ scratch_column ∧ (c = rebate_column ∨ c ∈ columns f).
Proof.
  simpl. rewrite list_elem_of_filter, !elem_of_add_label. tauto.
Qed.

Lemma elem_of_header_columns (cols : list string) (c : string) :
  c ∈ header_columns cols ↔ c = level_column ∨ c = rebate_column ∨ c ∈ cols.
Proof.
  unfold header_columns. rewrite elem_of_add_label, elem_of_cons, list_elem_of_filter.
  destruct (decide (c = rebate_column)); tauto.
Qed.

Lemma length_group_keys (df : DataFrame) :
  length (group_keys rebate_column df) = nunique (column rebate_column df).
Proof. unfold group_keys, nunique. apply (stable_sort_length id cell_leb). Qed.

Lemma NoDup_header_columns (cols : list string) :
  NoDup cols → NoDup (header_columns cols).
Proof.
  intros Hnd. unfold header_columns, add_label.
  assert (Hh : NoDup (rebate_column :: filter (λ c, c ≠ rebate_column) cols)).
  { constructor; [|by apply NoDup_filter]. rewrite list_elem_of_filter. by intros [? _]. }
  case_bool_decide as Hin; [done|].
  apply NoDup_app. split_and!; [done| |apply NoDup_singleton].
  intros c Hc ->%list_elem_of_singleton. done.
Qed.

Lemma elem_of_returned_columns (cols : list string) (c : string) :
  c ∈ returned_columns cols ↔ c ∈ cols.
Proof.
  unfold returned_columns. rewrite elem_of_selected_labels, elem_of_header_columns. tauto.
Qed.

Lemma returned_columns_NoDup (cols : list string) :
  NoDup cols → returned_columns cols = cols.
Proof.
  intros Hnd. apply selected_labels_NoDup; [by apply NoDup_header_columns|].
  intros c Hc. apply elem_of_header_columns. tauto.
Qed.

(** The columns of the frame of line 109. *)
Lemma columns_sorted_frame (h d : DataFrame) (cols : list string) :
  columns h = header_columns cols → columns d = add_label level_column cols →
  scratch_column ∉ cols →
  let f := concat h d in
  let f1 := setitem scratch_column
              (fillna (Num 2) (series_map level_rank (column level_column f))) f in
  let f2 := setitem rebate_column (fillna (Str "") (column rebate_column f1)) f1 in
  columns (drop_column scratch_column (sort_values [rebate_column; scratch_column] f2)) =
  header_columns cols.
Proof.
  intros Hh Hd Hscratch. simpl. rewrite Hh, Hd.
  assert (Hnone : filter (λ c, c ∉ header_columns cols) (add_label level_column cols) = []).
  { apply filter_none. intros c Hc Hn. apply Hn.
    apply elem_of_add_label in Hc. apply elem_of_header_columns. tauto. }
  rewrite Hnone, app_nil_r.
  assert (Hs : scratch_column ∉ header_columns cols).
  { rewrite elem_of_header_columns. intros [H|[H|H]]; [discriminate..|done]. }
  unfold add_label at 2. rewrite bool_decide_eq_false_2 by done.
  rewrite add_label_present.
  2: { apply elem_of_app. left. apply elem_of_header_columns. tauto. }
  rewrite filter_app, filter_all, filter_cons_False, filter_nil, app_nil_r; [done| |].
  - by intros H.
  - intros c Hc ->. done.
Qed.

Section run.

Variable to_datetime : list cell → outcome (cell → option Timestamp).

(** A call whose date parser raises: the exception goes to the caller, and
    nothing after line 90 runs. *)
Lemma process_dataframe_parser_raises (df df' : DataFrame) (e : exn) :
  normalize_dates to_datetime DATE_COLUMNS df = (df', Some e) →
  process_dataframe to_datetime df = (df', Raised e).
Proof. intros H. unfold process_dataframe. by rewrite H. Qed.

Lemma process_dataframe_caller (df : DataFrame) :
  dates_parse to_datetime df →
  (process_dataframe to_datetime df).1 =
  if bool_decide (rebate_column ∈ columns df)
  then setitem_scalar level_column (Str "Lumpsum") (normalized_dates to_datetime df)
  else normalized_dates to_datetime df.
Proof.
  intros Hp. unfold process_dataframe. rewrite normalize_dates_returns by done.
  rewrite columns_normalized_dates.
  case_bool_decide; [|done]. by destruct (getitem_columns _ _).
Qed.

Lemma process_dataframe_returns (df : DataFrame) :
  rebate_column ∈ columns df → scratch_column ∉ columns df →
  dates_parse to_datetime df →
  (process_dataframe to_datetime df).2 =
  Returned
    ({| columns := returned_columns (columns df);
        rows := restructured_rows (columns df) (normalized_dates to_datetime df) |},
     {| input_rows := len df;
        distinct_rebates := nunique (column rebate_column df);
        header_count := nunique (column rebate_column df);
        lumpsum_count := len df;
        output_rows := nunique (column rebate_column df) + len df |}).
Proof.
  intros Hrebate Hscratch Hp. unfold process_dataframe.
  rewrite normalize_dates_returns by done.
  rewrite columns_normalized_dates, bool_decide_eq_true_2 by done.
  set (df1 := normalized_dates to_datetime df).
  set (h := foldl blank_column _ LUMPSUM_COLUMNS).
  set (d := setitem_scalar level_column (Str "Lumpsum") df1).
  assert (Hcolh : columns h = header_columns (columns df)).
  { unfold h. rewrite columns_header_frame. unfold df1.
    by rewrite columns_normalized_dates. }
  assert (Hcold : columns d = add_label level_column (columns df)).
  { unfold d, df1. cbn [columns setitem_scalar]. by rewrite columns_normalized_dates. }
  rewrite getitem_columns_present.
  - cbn [snd]. fold scratch_column.
    rewrite (columns_sorted_frame h d (columns df)) by done.
    fold (returned_columns (columns df)).
    assert (Hrows : (λ r : row, filter (λ kv : string * scalar, kv.1 ∈ columns df) r) <$>
              rows (drop_column scratch_column
                (sort_values [rebate_column; scratch_column]
                  (setitem rebate_column
                    (fillna (Str "") (column rebate_column
                      (setitem scratch_column
                        (fillna (Num 2)
                          (series_map level_rank (column level_column (concat h d))))
                        (concat h d))))
                    (setitem scratch_column
                      (fillna (Num 2)
                        (series_map level_rank (column level_column (concat h d))))
                      (concat h d))))) =
            restructured_rows (columns df) df1).
    { rewrite (rows_sorted_frame (concat h d)).
      unfold restructured_rows, out_row. rewrite <- list_fmap_compose.
      unfold concat, merged_rows. cbn [rows]. unfold h.
      by rewrite rows_header_frame. }
    rewrite Hrows. f_equal. f_equal.
    assert (Hlen : len df1 = len df) by apply len_normalized_dates.
    assert (Hcol : column rebate_column df1 = column rebate_column df).
    { apply column_normalized_dates_other.
      unfold DATE_COLUMNS, rebate_column. rewrite !not_elem_of_cons.
      split_and!; try discriminate. apply not_elem_of_nil. }
    assert (Hh : len h = nunique (column rebate_column df)).
    { unfold len, h. by rewrite rows_header_frame, length_fmap, length_group_keys, Hcol. }
    rewrite Hlen, Hcol, Hh. f_equal.
    unfold len. cbn [rows]. unfold restructured_rows, merged_rows.
    rewrite length_fmap, (stable_sort_length presort_key key_leb).
    rewrite length_app, !length_fmap, length_group_keys, Hcol.
    fold (len df1). by rewrite Hlen.
  - intros c Hc. fold scratch_column.
    apply (elem_of_columns_sorted_frame (concat h d)). split.
    + intros ->. done.
    + right. unfold concat. cbn [columns]. apply elem_of_app. left.
      rewrite Hcolh, elem_of_header_columns. tauto.
Qed.

Lemma process_dataframe_scratch_collision (df : DataFrame) :
  rebate_column ∈ columns df → scratch_column ∈ columns df →
  dates_parse to_datetime df →
  (process_dataframe to_datetime df).2 = Raised (KeyError_not_in_index [scratch_column]).
Proof.
  intros Hrebate Hscratch Hp. unfold process_dataframe.
  rewrite normalize_dates_returns by done.
  rewrite columns_normalized_dates, bool_decide_eq_true_2 by done.
  set (df1 := normalized_dates to_datetime df).
  set (h := foldl blank_column _ LUMPSUM_COLUMNS).
  set (d := setitem_scalar level_column (Str "Lumpsum") df1).
  assert (Hcolh : columns h = header_columns (columns df)).
  { unfold h. rewrite columns_header_frame. unfold df1.
    by rewrite columns_normalized_dates. }
  fold scratch_column.
  rewrite (getitem_columns_absent _ _ scratch_column rebate_column); [done|done| |done| |].
  - rewrite (elem_of_columns_sorted_frame (concat h d)). tauto.
  - apply (elem_of_columns_sorted_frame (concat h d)). split; [discriminate|by left].
  - intros c Hc Hne. apply (elem_of_columns_sorted_frame (concat h d)).
    split; [done|]. right. unfold concat. cbn [columns]. apply elem_of_app. left.
    rewrite Hcolh, elem_of_header_columns. tauto.
Qed.

Lemma process_dataframe_no_rebate (df : DataFrame) :
  rebate_column ∉ columns df → dates_parse to_datetime df →
  (process_dataframe to_datetime df).2 = Raised (KeyError rebate_column).
Proof.
  intros H Hp. unfold process_dataframe. rewrite normalize_dates_returns by done.
  by rewrite columns_normalized_dates, bool_decide_eq_false_2.
Qed.

(** What a returning call returned. *)
Lemma process_dataframe_returned_inv (df out : DataFrame) (m : Metrics) :
  (process_dataframe to_datetime df).2 = Returned (out, m) →
  rebate_column ∈ columns df ∧ (scratch_column ∉ columns df) ∧
  out = {| columns := returned_columns (columns df);
           rows := restructured_rows (columns df) (normalized_dates to_datetime df) |} ∧
  m = {| input_rows := len df;
         distinct_rebates := nunique (column rebate_column df);
         header_count := nunique (column rebate_column df);
         lumpsum_count := len df;
         output_rows := nunique (column rebate_column df) + len df |} ∧
  dates_parse to_datetime df.
Proof.
  intros Hrun.
  destruct (normalize_dates_cases to_datetime df)
    as [[Hp _]|(col & e & df' & _ & _ & _ & _ & Hraise)].
  2: { by rewrite (process_dataframe_parser_raises df df' e Hraise) in Hrun. }
  destruct (decide (rebate_column ∈ columns df)) as [Hr|Hr].
  2: { by rewrite process_dataframe_no_rebate in Hrun. }
  destruct (decide (scratch_column ∈ columns df)) as [Hs|Hs].
  { by rewrite process_dataframe_scratch_collision in Hrun. }
  rewrite process_dataframe_returns in Hrun by done.
  by simplify_eq.
Qed.

(** What a raising call raised. *)
Lemma process_dataframe_raised_inv (df : DataFrame) (e : exn) :
  (process_dataframe to_datetime df).2 = Raised e →
  (∃ col, col ∈ DATE_COLUMNS ∧ col ∈ columns df ∧
          to_datetime_coerce to_datetime (column col df) = Raised e) ∨
  (dates_parse to_datetime df ∧ (rebate_column ∉ columns df) ∧ e = KeyError rebate_column) ∨
  (dates_parse to_datetime df ∧ rebate_column ∈ columns df ∧
   scratch_column ∈ columns df ∧ e = KeyError_not_in_index [scratch_column]).
Proof.
  intros Hrun.
  destruct (normalize_dates_cases to_datetime df)
    as [[Hp _]|(col & e' & df' & Hcol & Hin & He & _ & Hraise)].
  2: { rewrite (process_dataframe_parser_raises df df' e' Hraise) in Hrun.
       injection Hrun as <-. left. by exists col. }
  right. destruct (decide (rebate_column ∈ columns df)) as [Hr|Hr].
  2: { rewrite process_dataframe_no_rebate in Hrun by done.
       injection Hrun as <-. by left. }
  destruct (decide (scratch_column ∈ columns df)) as [Hs|Hs].
  { rewrite process_dataframe_scratch_collision in Hrun by done.
    injection Hrun as <-. by right. }
  by rewrite process_dataframe_returns in Hrun by done.
Qed.

End run.

(** ** The column validator *)

Lemma filter_iff_elem {A} (P1 P2 : A → Prop)
    `{!∀ x, Decision (P1 x), !∀ x, Decision (P2 x)} (l : list A) :
  (∀ x, x ∈ l → P1 x ↔ P2 x) → filter P1 l = filter P2 l.
Proof.
  induction l as [|a l IH]; intros Hiff; [done|].
  rewrite !filter_cons, IH by (intros x Hx; apply Hiff; by right).
  assert (P1 a ↔ P2 a) as Ha by (apply Hiff; left).
  destruct (decide (P1 a)), (decide (P2 a)); tauto.
Qed.

Lemma NoDup_REQUIRED_COLUMNS : NoDup REQUIRED_COLUMNS.
Proof. by apply (bool_decide_unpack _). Qed.

Lemma validate_columns_drop (removed : list string) (df : DataFrame) :
  valid_table df → removed ⊆ REQUIRED_COLUMNS →
  validate_columns (drop_columns removed df) =
  filter (λ c, c ∈ removed) REQUIRED_COLUMNS.
Proof.
  unfold valid_table, validate_columns. intros Hvalid Hsub.
  apply filter_iff_elem. intros c Hc. simpl.
  rewrite list_elem_of_filter.
  assert (c ∈ columns df) as Hin.
  { destruct (decide (c ∈ columns df)) as [|Hn]; [done|].
    assert (c ∈ filter (λ col, col ∉ columns df) REQUIRED_COLUMNS) as Hf
      by (by apply list_elem_of_filter).
    rewrite Hvalid in Hf. by apply elem_of_nil in Hf. }
  destruct (decide (c ∈ removed)); tauto.
Qed.

(** C4. [validate_columns] returns the required column names that the
    table lacks, in the declared order: the result is a subsequence of
    [REQUIRED_COLUMNS] holding exactly the required names absent from the
    table; it is empty exactly when every required column is present; and
    after [k] distinct required columns are removed from a valid table the
    result has length [k] and holds each removed name. *)
Theorem validate_columns_spec (df : DataFrame) :
  (validate_columns df `sublist_of` REQUIRED_COLUMNS ∧
   ∀ c, c ∈ validate_columns df ↔ c ∈ REQUIRED_COLUMNS ∧ c ∉ columns df) ∧
  (validate_columns df = [] ↔ ∀ c, c ∈ REQUIRED_COLUMNS → c ∈ columns df) ∧
  (∀ removed : list string,
     valid_table df → NoDup removed → removed ⊆ REQUIRED_COLUMNS →
     length (validate_columns (drop_columns removed df)) = length removed ∧
     ∀ c, c ∈ removed → c ∈ validate_columns (drop_columns removed df)).
Proof.
  split_and!.
  - apply sublist_filter.
  - intros c. unfold validate_columns. rewrite list_elem_of_filter. tauto.
  - unfold validate_columns. split.
    + intros Hnil c Hc. destruct (decide (c ∈ columns df)) as [|Hn]; [done|].
      assert (c ∈ filter (λ col, col ∉ columns df) REQUIRED_COLUMNS) as Hf
        by (by apply list_elem_of_filter).
      rewrite Hnil in Hf. by apply elem_of_nil in Hf.
    + intros Hall. apply elem_of_nil_inv. intros c Hc.
      apply list_elem_of_filter in Hc as [Hc1 Hc2]. by apply Hc1, Hall.
  - intros removed Hvalid Hnd Hsub. rewrite validate_columns_drop by done. split.
    + apply Permutation_length. apply NoDup_Permutation.
      * apply NoDup_filter, NoDup_REQUIRED_COLUMNS.
      * done.
      * intros c. rewrite list_elem_of_filter. split; [tauto|].
        intros Hc. split; [done|]. by apply Hsub.
    + intros c Hc. apply list_elem_of_filter. split; [done|]. by apply Hsub.
Qed.

Lemma validate_columns_spec_witness :
  valid_table sample_table ∧
  NoDup ["Level"; "Lumpsum - Amount"] ∧
  ["Level"; "Lumpsum - Amount"] ⊆ REQUIRED_COLUMNS ∧
  length (validate_columns (drop_columns ["Level"; "Lumpsum - Amount"] sample_table)) = 2 ∧
  ∀ c, c ∈ ["Level"; "Lumpsum - Amount"] →
       c ∈ validate_columns (drop_columns ["Level"; "Lumpsum - Amount"] sample_table).
Proof.
  assert (H1 : valid_table sample_table) by (vm_compute; reflexivity).
  assert (H2 : NoDup ["Level"; "Lumpsum - Amount"]) by (by apply (bool_decide_unpack _)).
  assert (H3 : ["Level"; "Lumpsum - Amount"] ⊆ REQUIRED_COLUMNS)
    by (by apply (bool_decide_unpack _)).
  split_and!; [done..| |];
    apply (proj2 (proj2 (validate_columns_spec sample_table))
             ["Level"; "Lumpsum - Amount"] H1 H2 H3).
Defined.

(** ** The canonical form and its parser *)

Lemma valid_date_bounds (t : Timestamp) :
  (1000 ≤ year t < 10000 ∧ 1 ≤ month t ≤ 12 ∧ 1 ≤ day t ≤ 31)%N.
Proof.
  destruct t as [y m d H]. simpl. unfold valid_date, days_in_month in H.
  repeat (apply andb_prop in H as [H ?]).
  repeat match goal with
         | H : (_ <=? _)%N = true |- _ => apply N.leb_le in H
         end.
  destruct (m =? 2)%N eqn:E2.
  { apply N.eqb_eq in E2. destruct (is_leap y); lia. }
  destruct ((m =? 4) || (m =? 6) || (m =? 9) || (m =? 11))%N eqn:E30.
  { repeat (apply orb_prop in E30 as [E30|E30]); apply N.eqb_eq in E30; lia. }
  destruct ((1 <=? m) && (m <=? 12))%N eqn:E31; [|lia].
  apply andb_prop in E31 as [E1 E12]. apply N.leb_le in E1, E12. lia.
Qed.

Lemma N_of_ascii_digit (n : N) : N_of_ascii (digit n) = (48 + n mod 10)%N.
Proof.
  unfold digit. apply N_ascii_embedding. zify. Z.to_euclidean_division_equations. lia.
Qed.

Lemma is_digit_digit (n : N) : is_digit (digit n) = true.
Proof.
  unfold is_digit. rewrite N_of_ascii_digit. apply andb_true_intro.
  rewrite !N.leb_le. zify. Z.to_euclidean_division_equations. lia.
Qed.

Lemma digit_val_digit (n : N) : digit_val (digit n) = Some (n mod 10)%N.
Proof.
  unfold digit_val. rewrite is_digit_digit, N_of_ascii_digit. f_equal.
  generalize (n mod 10)%N. intros k. lia.
Qed.

Lemma strftime_mdY_chars (t : Timestamp) :
  String.list_ascii_of_string (strftime_mdY t) =
  [ digit (month t / 10); digit (month t); "/"%char;
    digit (day t / 10); digit (day t); "/"%char;
    digit (year t / 1000); digit (year t / 100); digit (year t / 10); digit (year t) ].
Proof. done. Qed.

Lemma canonical_strftime_mdY (t : Timestamp) : canonical_mdY (strftime_mdY t) = true.
Proof.
  unfold canonical_mdY. rewrite strftime_mdY_chars, !is_digit_digit.
  by rewrite !bool_decide_eq_true_2.
Qed.

Lemma mk_timestamp_fields (t : Timestamp) :
  mk_timestamp (year t) (month t) (day t) = Some t.
Proof.
  destruct t as [y m d H]. unfold mk_timestamp. simpl.
  destruct (decide (valid_date y m d = true)) as [H'|]; [|done].
  do 2 f_equal. apply (proof_irrel _).
Qed.

Lemma parse_mdY_string_strftime (t : Timestamp) :
  parse_mdY_string (strftime_mdY t) = Some t.
Proof.
  unfold parse_mdY_string. rewrite strftime_mdY_chars.
  rewrite !bool_decide_eq_true_2 by done. simpl andb. cbv iota.
  rewrite !digit_val_digit. cbn [mbind option_bind].
  pose proof (valid_date_bounds t) as (Hy & Hm & Hd).
  transitivity (mk_timestamp (year t) (month t) (day t));
    [|apply mk_timestamp_fields].
  f_equal; zify; Z.to_euclidean_division_equations; lia.
Qed.

Lemma dates_parse_mdY (df : DataFrame) : dates_parse parse_mdY df.
Proof.
  intros col _ _. unfold parses, to_datetime_coerce.
  destruct (column col df); by eexists.
Qed.

Lemma parse_mdY_reads_back (s : list cell) : reads_back parse_mdY s.
Proof.
  split.
  - unfold parses, to_datetime_coerce. destruct (normalize_series _ _); by eexists.
  - intros c _. unfold parsed, parse_mdY.
    destruct (parse_mdY_cell c) as [t|]; simpl; [apply parse_mdY_string_strftime|done].
Qed.

(** ** Date normalization: what it writes, when it raises, and idempotence *)

Section dates.

Variable to_datetime : list cell → outcome (cell → option Timestamp).

Lemma normalized_cell_rendered (ctx : list cell) (c : cell) :
  Some (normalized_cell to_datetime ctx c) = rendered (parsed to_datetime ctx c).
Proof. unfold normalized_cell, rendered. by destruct (parsed to_datetime ctx c). Qed.

Lemma date_columns_distinct :
  @eq string "Lumpsum - Lumpsum Date" "Lumpsum - Pay Date" → False.
Proof. discriminate. Qed.

Lemma column_normalized_dates_date (df : DataFrame) (col : string) :
  col ∈ DATE_COLUMNS → col ∈ columns df →
  column col (normalized_dates to_datetime df) =
  (λ c, Some (normalized_cell to_datetime (column col df) c)) <$> column col df.
Proof.
  intros Hcol Hin. unfold normalized_dates, DATE_COLUMNS in *. simpl.
  pose proof date_columns_distinct as Hne.
  apply elem_of_cons in Hcol as [->|Hcol].
  - rewrite column_normalized_date_column_ne by done.
    by apply column_normalized_date_column_eq.
  - apply list_elem_of_singleton in Hcol as ->.
    rewrite column_normalized_date_column_eq
      by (by rewrite columns_normalized_date_column).
    by rewrite column_normalized_date_column_ne by done.
Qed.

Lemma column_normalized_date_column_absent (df : DataFrame) (col c : string) :
  col ∉ columns df → column col (normalized_date_column to_datetime df c) = column col df.
Proof.
  intros Hd. destruct (decide (col = c)) as [->|Hne].
  - unfold normalized_date_column. by rewrite bool_decide_eq_false_2.
  - by apply column_normalized_date_column_ne.
Qed.

Lemma column_normalized_dates_absent (df : DataFrame) (col : string) :
  col ∉ columns df → column col (normalized_dates to_datetime df) = column col df.
Proof.
  intros Hn. unfold normalized_dates, DATE_COLUMNS. simpl.
  rewrite !column_normalized_date_column_absent; [done..|].
  by rewrite columns_normalized_date_column.
Qed.

Lemma normalize_series_rendered (s : list cell) :
  normalize_series to_datetime s = rendered <$> (parsed to_datetime s <$> s).
Proof.
  unfold normalize_series, fillna, dt_strftime.
  rewrite <- !list_fmap_compose. apply list_fmap_ext. intros _ c _. simpl.
  unfold rendered. by destruct (parsed to_datetime s c).
Qed.

Lemma column_normalized_dates_series (df : DataFrame) (col : string) :
  col ∈ DATE_COLUMNS → col ∈ columns df →
  column col (normalized_dates to_datetime df) =
  normalize_series to_datetime (column col df).
Proof.
  intros Hcol Hin. rewrite column_normalized_dates_date by done.
  rewrite normalize_series_rendered, <- list_fmap_compose.
  apply list_fmap_ext. intros _ c _. simpl. apply normalized_cell_rendered.
Qed.

(** C5, and where the code breaks it.  A declared date column that the
    table lacks is skipped: it is not created and nothing is read from it.
    Where the parser returns on the date columns of the table, the loop of
    lines 87 to 90 raises nothing, keeps the columns and the number of rows
    and rewrites every cell of a date column: to the text that [strftime]
    gives for its date when the cell parses, which is of the form
    MM/DD/YYYY, and to the empty string when it does not.  But an exception
    of the parser on a date column is not recovered: the loop ends with an
    exception, and so does [process_dataframe]. *)
Theorem normalize_dates_spec (df : DataFrame) (col : string) :
  col ∈ DATE_COLUMNS →
  let after := normalize_dates to_datetime DATE_COLUMNS df in
  (col ∉ columns df →
     (col ∉ columns after.1) ∧ column col after.1 = column col df) ∧
  (dates_parse to_datetime df →
     after.2 = None ∧ columns after.1 = columns df ∧ len after.1 = len df ∧
     (col ∈ columns df →
        ∀ i c, column col df !! i = Some c →
          column col after.1 !! i =
          Some (Some (match parsed to_datetime (column col df) c with
                      | Some t => Str (strftime_mdY t)
                      | None => Str ""
                      end)))) ∧
  (∀ t, canonical_mdY (strftime_mdY t) = true) ∧
  (col ∈ columns df →
     ∀ e, to_datetime_coerce to_datetime (column col df) = Raised e →
       ∃ e', after.2 = Some e' ∧ (process_dataframe to_datetime df).2 = Raised e').
Proof.
  intros Hcol after. split_and!.
  - intros Hn. unfold after.
    destruct (normalize_dates_cases to_datetime df)
      as [[_ ->]|(col' & e & df' & _ & _ & _ & [-> | ->] & ->)]; cbn [fst].
    + split; [by rewrite columns_normalized_dates|].
      by apply column_normalized_dates_absent.
    + done.
    + split; [by rewrite columns_normalized_date_column|].
      by apply column_normalized_date_column_absent.
  - intros Hp. unfold after. rewrite normalize_dates_returns by done. cbn [fst snd].
    split_and!; [done|apply columns_normalized_dates|apply len_normalized_dates|].
    intros Hin i c Hi. rewrite column_normalized_dates_date by done.
    by rewrite list_lookup_fmap, Hi.
  - apply canonical_strftime_mdY.
  - intros Hin e He. unfold after.
    destruct (normalize_dates_cases to_datetime df)
      as [[Hp _]|(col' & e' & df' & _ & _ & _ & _ & Hraise)].
    + destruct (Hp col Hcol Hin) as [ps Hps]. by rewrite He in Hps.
    + exists e'. rewrite Hraise. split; [done|].
      by rewrite (process_dataframe_parser_raises to_datetime df df' e' Hraise).
Qed.

(** A column that holds what normalization wrote for a series that the
    parser reads back is left as it is. *)
Lemma reads_back_fixed_column (df : DataFrame) (col : string) :
  (col ∈ columns df →
   ∃ s, column col df = normalize_series to_datetime s ∧ reads_back to_datetime s) →
  normalized_date_column to_datetime df col = df.
Proof.
  intros Hs. unfold normalized_date_column.
  case_bool_decide as Hin; [|done]. destruct (Hs Hin) as (s & Hcol & _ & Hread).
  rewrite normalized_series. destruct df as [cols rws]. unfold setitem. simpl in *.
  rewrite add_label_present by done. f_equal.
  rewrite zip_with_fmap_same. rewrite <- (list_fmap_id rws) at 2.
  apply list_fmap_ext. intros i r Hr. simpl. apply insert_id.
  assert (column col {| columns := cols; rows := rws |} !! i = Some (r !! col)) as Hi.
  { unfold column. simpl. by rewrite list_lookup_fmap, Hr. }
  rewrite Hcol in Hi. rewrite normalize_series_rendered, !list_lookup_fmap in Hi.
  destruct (s !! i) as [c|] eqn:Hc; [|done]. simpl in Hi. injection Hi as Hi.
  rewrite <- Hi, normalized_cell_rendered, Hcol.
  rewrite Hread; [done|]. by eapply list_elem_of_lookup_2.
Qed.

Lemma normalized_dates_fixed (df : DataFrame) :
  dates_read_back to_datetime df →
  normalized_dates to_datetime (normalized_dates to_datetime df) =
  normalized_dates to_datetime df.
Proof.
  intros Hread.
  assert (Hs : ∀ col, col ∈ DATE_COLUMNS →
            col ∈ columns (normalized_dates to_datetime df) →
            ∃ s, column col (normalized_dates to_datetime df) =
                 normalize_series to_datetime s ∧ reads_back to_datetime s).
  { intros col Hcol Hin. rewrite columns_normalized_dates in Hin.
    exists (column col df). split; [by apply column_normalized_dates_series|].
    by apply Hread. }
  generalize dependent (normalized_dates to_datetime df). intros df' Hs.
  unfold normalized_dates, DATE_COLUMNS in *. simpl.
  rewrite (reads_back_fixed_column df' "Lumpsum - Lumpsum Date"); [|apply Hs; left].
  apply reads_back_fixed_column. apply Hs. right. left.
Qed.

Lemma dates_parse_normalized_dates (df : DataFrame) :
  dates_read_back to_datetime df →
  dates_parse to_datetime (normalized_dates to_datetime df).
Proof.
  intros Hread col Hcol Hin. rewrite columns_normalized_dates in Hin.
  rewrite column_normalized_dates_series by done.
  by destruct (Hread col Hcol Hin) as [Hp _].
Qed.

(** C9, as the code has it.  Take a table on whose date columns the parser
    returns, and whose normalized date columns it reads back (on a column
    that normalization wrote it returns, the canonical form of a date
    reads as that date, the empty string does not parse).  The first run of
    the loop writes, for each cell of a date column, the canonical form of
    its date or, for a cell that does not parse, the empty string; a
    second run of the loop on the result raises nothing and leaves every
    cell as it is: normalizing twice is normalizing once. *)
Theorem normalize_dates_idempotent (df : DataFrame) :
  dates_parse to_datetime df →
  dates_read_back to_datetime df →
  let once := (normalize_dates to_datetime DATE_COLUMNS df).1 in
  normalize_dates to_datetime DATE_COLUMNS once = (once, None) ∧
  ∀ col, col ∈ DATE_COLUMNS → col ∈ columns df →
    ∀ i c, column col df !! i = Some c →
      column col once !! i =
      Some (Some (match parsed to_datetime (column col df) c with
                  | Some t => Str (strftime_mdY t)
                  | None => Str ""
                  end)).
Proof.
  intros Hp Hread once. unfold once.
  rewrite (normalize_dates_returns to_datetime df Hp). cbn [fst]. split.
  - rewrite normalize_dates_returns by (by apply dates_parse_normalized_dates).
    by rewrite normalized_dates_fixed.
  - intros col Hcol Hin i c Hi. rewrite column_normalized_dates_date by done.
    by rewrite list_lookup_fmap, Hi.
Qed.

End dates.

Lemma normalize_dates_spec_witness :
  "Lumpsum - Lumpsum Date" ∈ DATE_COLUMNS ∧
  ∃ e, (process_dataframe parse_inferred offset_table).2 = Raised e.
Proof.
  assert (H : "Lumpsum - Lumpsum Date" ∈ DATE_COLUMNS) by (by apply (bool_decide_unpack _)).
  split; [done|].
  destruct (normalize_dates_spec parse_inferred offset_table _ H) as (_ & _ & _ & Hraise).
  assert (Hin : "Lumpsum - Lumpsum Date" ∈ columns offset_table)
    by (by apply (bool_decide_unpack _)).
  assert (He : to_datetime_coerce parse_inferred
                 (column "Lumpsum - Lumpsum Date" offset_table) = Raised mixed_timezones)
    by (vm_compute; reflexivity).
  destruct (Hraise Hin mixed_timezones He) as (e' & _ & Hrun).
  by exists e'.
Defined.

(** At the table with two UTC offsets the call raises the error of the
    parser and leaves the caller's table as it was. *)
Example process_dataframe_offset_table :
  process_dataframe parse_inferred offset_table = (offset_table, Raised mixed_timezones).
Proof.
  apply process_dataframe_parser_raises, normalize_dates_raises_first.
  - by apply (bool_decide_unpack _).
  - vm_compute. reflexivity.
Qed.

(** C9 as stated fails: in a column whose first value is an ISO date the
    value 01/02/2024, which is in the canonical form, is rewritten to the
    empty string. *)
Lemma canonical_values_are_kept_fails :
  ¬ canonical_values_are_kept parse_inferred mixed_format_table.
Proof.
  intros Hclaim.
  assert (Hcol : "Lumpsum - Lumpsum Date" ∈ DATE_COLUMNS)
    by (by apply (bool_decide_unpack _)).
  assert (Hin : "Lumpsum - Lumpsum Date" ∈ columns mixed_format_table)
    by (by apply (bool_decide_unpack _)).
  specialize (Hclaim _ Hcol Hin 1
                {| year := 2024; month := 1; day := 2; ts_valid := eq_refl |}).
  assert (Hcell : column "Lumpsum - Lumpsum Date" mixed_format_table !! 1 =
                  Some (Some (Str (strftime_mdY
                    {| year := 2024; month := 1; day := 2; ts_valid := eq_refl |}))))
    by (vm_compute; reflexivity).
  apply Hclaim in Hcell. vm_compute in Hcell. discriminate.
Qed.

Lemma dates_parse_mixed_format_table : dates_parse parse_inferred mixed_format_table.
Proof.
  intros col Hcol _. unfold DATE_COLUMNS in Hcol. rewrite !elem_of_cons in Hcol.
  destruct Hcol as [->|[->|Hcol]]; [| |by apply elem_of_nil in Hcol];
    eexists; vm_compute; reflexivity.
Qed.

Lemma dates_read_back_mixed_format_table :
  dates_read_back parse_inferred mixed_format_table.
Proof.
  intros col Hcol _. unfold DATE_COLUMNS in Hcol. rewrite !elem_of_cons in Hcol.
  destruct Hcol as [->|[->|Hcol]]; [| |by apply elem_of_nil in Hcol].
  - split; [eexists; vm_compute; reflexivity|].
    assert (Hs : column "Lumpsum - Lumpsum Date" mixed_format_table =
                 [Some (Str "2024-01-03"); Some (Str "01/02/2024");
                  Some (Str "2023-12-31")]) by (vm_compute; reflexivity).
    rewrite Hs. apply Forall_forall.
    repeat constructor; vm_compute; reflexivity.
  - split; [eexists; vm_compute; reflexivity|].
    assert (Hs : column "Lumpsum - Pay Date" mixed_format_table =
                 [Some (Str "02/01/2024"); Some (Str "soon"); Some (Str "12/31/1999")])
      by (vm_compute; reflexivity).
    rewrite Hs. apply Forall_forall.
    repeat constructor; vm_compute; reflexivity.
Qed.

Lemma normalize_dates_idempotent_witness :
  dates_parse parse_inferred mixed_format_table ∧
  dates_read_back parse_inferred mixed_format_table ∧
  column "Lumpsum - Lumpsum Date"
    (normalize_dates parse_inferred DATE_COLUMNS mixed_format_table).1 =
  [Some (Str "01/03/2024"); Some (Str ""); Some (Str "12/31/2023")] ∧
  normalize_dates parse_inferred DATE_COLUMNS
    (normalize_dates parse_inferred DATE_COLUMNS mixed_format_table).1 =
  ((normalize_dates parse_inferred DATE_COLUMNS mixed_format_table).1, None).
Proof.
  pose proof dates_parse_mixed_format_table as H1.
  pose proof dates_read_back_mixed_format_table as H2.
  split_and!; [done|done|vm_compute; reflexivity|].
  by destruct (normalize_dates_idempotent parse_inferred mixed_format_table H1 H2)
    as [Hfix _].
Defined.

(** ** Cells of the rows of the merged and of the returned frame *)

Lemma lookup_foldl_blank (hcols cs : list string) (r : row) (c : string) :
  foldl (λ (r : row) c, if bool_decide (c ∈ hcols) then <[c := Str ""]> r else r) r cs !! c =
  if decide (c ∈ cs ∧ c ∈ hcols) then Some (Str "") else r !! c.
Proof.
  revert r. induction cs as [|c0 cs IH]; intros r; cbn [foldl].
  - destruct (decide (c ∈ [] ∧ c ∈ hcols)) as [[H _]|]; [|done].
    by apply elem_of_nil in H.
  - rewrite IH.
    destruct (decide (c ∈ cs ∧ c ∈ hcols)) as [[H1 H2]|Hn];
      destruct (decide (c ∈ c0 :: cs ∧ c ∈ hcols)) as [[H3 H4]|Hn']; try done.
    + destruct Hn'. split; [by right|done].
    + apply elem_of_cons in H3 as [->|H3]; [|tauto].
      by rewrite bool_decide_eq_true_2, lookup_insert_eq.
    + case_bool_decide; [|done]. rewrite lookup_insert_ne; [done|].
      intros ->. apply Hn'. split; [left|done].
Qed.

Lemma lookup_blank_cells (hcols : list string) (r : row) (c : string) :
  blank_cells hcols r !! c =
  if decide (c ∈ LUMPSUM_COLUMNS ∧ c ∈ hcols) then Some (Str "") else r !! c.
Proof. apply lookup_foldl_blank. Qed.

Lemma level_not_lumpsum_column : level_column ∉ LUMPSUM_COLUMNS.
Proof. by apply (bool_decide_unpack _). Qed.

Lemma rebate_not_lumpsum_column : rebate_column ∉ LUMPSUM_COLUMNS.
Proof. by apply (bool_decide_unpack _). Qed.

Lemma rebate_not_date_column : rebate_column ∉ DATE_COLUMNS.
Proof. by apply (bool_decide_unpack _). Qed.

Lemma level_not_date_column : level_column ∉ DATE_COLUMNS.
Proof. by apply (bool_decide_unpack _). Qed.

Lemma first_valid_lookup (grp : list row) (c : string) :
  first_valid grp !! c = first_present c grp.
Proof.
  unfold first_present. induction grp as [|r grp IH]; simpl.
  - apply lookup_empty.
  - rewrite lookup_union, IH. destruct (r !! c) as [x|]; simpl.
    + by destruct (head _).
    + by destruct (head _).
Qed.

Lemma first_present_const (c : string) (v : cell) (grp : list row) :
  (∀ r, r ∈ grp → r !! c = v) → grp ≠ [] → first_present c grp = v.
Proof.
  unfold first_present. induction grp as [|r grp IH]; intros Hall Hne; [done|].
  simpl. rewrite (Hall r) by left. destruct v as [x|]; [done|].
  destruct grp as [|r' grp']; [done|]. apply IH; [|done].
  intros r0 Hr0. apply Hall. by right.
Qed.

Lemma lookup_header_row_level (df : DataFrame) (k : cell) :
  header_row df k !! level_column = Some (Str "Header").
Proof.
  unfold header_row. rewrite lookup_blank_cells, decide_False.
  - apply lookup_insert_eq.
  - intros [H _]. by apply level_not_lumpsum_column.
Qed.

Lemma lookup_header_row_rebate (df : DataFrame) (k : cell) :
  k ∈ column rebate_column df → header_row df k !! rebate_column = k.
Proof.
  intros Hk. unfold header_row. rewrite lookup_blank_cells, decide_False.
  2: { intros [H _]. by apply rebate_not_lumpsum_column. }
  rewrite lookup_insert_ne by label_ne. rewrite first_valid_lookup.
  apply first_present_const.
  - intros r Hr. unfold group_rows in Hr. by apply list_elem_of_filter in Hr as [Hr _].
  - unfold column in Hk. apply list_elem_of_fmap in Hk as (r & Hr & Hin).
    intros Hnil. assert (r ∈ group_rows rebate_column k (rows df)) as Hg.
    { unfold group_rows. by apply list_elem_of_filter. }
    rewrite Hnil in Hg. by apply elem_of_nil in Hg.
Qed.

Lemma lookup_lumpsum_row_level (r : row) :
  lumpsum_row r !! level_column = Some (Str "Lumpsum").
Proof. apply lookup_insert_eq. Qed.

Lemma lookup_lumpsum_row_ne (r : row) (c : string) :
  c ≠ level_column → lumpsum_row r !! c = r !! c.
Proof. intros. unfold lumpsum_row. by rewrite lookup_insert_ne. Qed.

Lemma rebate_key_lumpsum_row (r : row) : rebate_key (lumpsum_row r) = rebate_key r.
Proof. unfold rebate_key. by rewrite lookup_lumpsum_row_ne by label_ne. Qed.

Lemma lookup_out_row (cols : list string) (r : row) (c : string) :
  out_row cols r !! c =
  if decide (c ∈ cols) then
    if decide (c = rebate_column) then Some (rebate_key r)
    else if decide (c = scratch_column) then None
    else r !! c
  else None.
Proof.
  unfold out_row. destruct (decide (c ∈ cols)) as [Hc|Hc].
  - destruct (decide (c = rebate_column)) as [->|Hr].
    { apply map_lookup_filter_Some. split; [apply lookup_insert_eq|done]. }
    destruct (decide (c = scratch_column)) as [->|Hs].
    { apply map_lookup_filter_None. left.
      rewrite lookup_insert_ne by done. apply lookup_delete_eq. }
    destruct (r !! c) as [x|] eqn:E.
    + apply map_lookup_filter_Some. split; [|done].
      by rewrite lookup_insert_ne, lookup_delete_ne by done.
    + apply map_lookup_filter_None. left.
      by rewrite lookup_insert_ne, lookup_delete_ne by done.
  - apply map_lookup_filter_None. right. intros x _ Hx. by apply Hc.
Qed.

Lemma dict_get_level_rank (x : scalar) :
  dict_get level_rank x =
  if decide (x = Str "Header") then Some (Num 0)
  else if decide (x = Str "Lumpsum") then Some (Num 1)
  else None.
Proof.
  unfold level_rank. cbn [dict_get]. repeat case_decide; congruence.
Qed.

Lemma level_sort_header (r : row) : is_header r → level_sort r = Num 0.
Proof.
  unfold is_header, level_sort. intros ->. cbn [mbind option_bind].
  rewrite dict_get_level_rank. by rewrite decide_True.
Qed.

Lemma level_sort_lumpsum (r : row) : is_lumpsum r ↔ level_sort r = Num 1.
Proof.
  unfold is_lumpsum, level_sort.
  destruct (r !! level_column) as [x|]; cbn [mbind option_bind]; [|done].
  rewrite dict_get_level_rank.
  repeat case_decide; subst; cbn [from_option id]; split; intros; congruence.
Qed.

Lemma filter_fmap {A B} (P : B → Prop) `{!∀ x, Decision (P x)} (f : A → B) (l : list A) :
  filter P (f <$> l) = f <$> filter (λ x, P (f x)) l.
Proof.
  induction l as [|x l IH]; [done|]. csimpl. rewrite !filter_cons, IH.
  by destruct (decide (P (f x))).
Qed.

Lemma valid_table_columns (df : DataFrame) (c : string) :
  valid_table df → c ∈ REQUIRED_COLUMNS → c ∈ columns df.
Proof.
  unfold valid_table, validate_columns. intros Hnil Hc.
  destruct (decide (c ∈ columns df)) as [|Hn]; [done|].
  assert (c ∈ filter (λ col, col ∉ columns df) REQUIRED_COLUMNS) as Hf
    by (by apply list_elem_of_filter).
  rewrite Hnil in Hf. by apply elem_of_nil in Hf.
Qed.

Lemma valid_table_rebate (df : DataFrame) : valid_table df → rebate_column ∈ columns df.
Proof. intros Hv. apply valid_table_columns; [done|]. by apply (bool_decide_unpack _). Qed.

Lemma valid_table_level (df : DataFrame) : valid_table df → level_column ∈ columns df.
Proof. intros Hv. apply valid_table_columns; [done|]. by apply (bool_decide_unpack _). Qed.

(** ** The caller's frame, the metrics, the columns *)

Section engine_properties.

Variable to_datetime : list cell → outcome (cell → option Timestamp).

Lemma rows_normalized_dates (df : DataFrame) :
  rows (normalized_dates to_datetime df) = normalized_row to_datetime df <$> rows df.
Proof.
  unfold normalized_dates, normalized_row, DATE_COLUMNS. cbn [foldl].
  rewrite rows_normalized_date_column, columns_normalized_date_column.
  rewrite rows_normalized_date_column.
  rewrite column_normalized_date_column_ne
    by (intros H; symmetry in H; by apply date_columns_distinct in H).
  repeat case_bool_decide; rewrite <- ?list_fmap_compose; try done.
  by rewrite list_fmap_id.
Qed.

Lemma rebate_key_normalized_row (df : DataFrame) (r : row) :
  rebate_key (normalized_row to_datetime df r) = rebate_key r.
Proof.
  unfold rebate_key, normalized_row, DATE_COLUMNS. cbn [foldl].
  repeat case_bool_decide; by rewrite ?lookup_insert_ne by discriminate.
Qed.

Lemma lookup_normalized_row_other (df : DataFrame) (r : row) (c : string) :
  c ∉ DATE_COLUMNS → normalized_row to_datetime df r !! c = r !! c.
Proof.
  unfold normalized_row, DATE_COLUMNS. rewrite !not_elem_of_cons.
  intros (H1 & H2 & _). cbn [foldl].
  repeat case_bool_decide; by rewrite ?lookup_insert_ne by done.
Qed.

(** C10. The engine works on the caller's table, not on a copy.  Take a
    valid table on whose date columns the parser returns.  When the call
    ends (whether it returns or raises on line 111) the table has its
    columns unchanged, its rows in place with every "Level" cell holding
    Lumpsum and both date columns normalized; it differs from the table
    passed in as soon as one row was not tagged Lumpsum already.  (Where
    the parser raises, lines 90 and 102 are not reached for the column it
    raised on, see [process_dataframe_offset_table].) *)
Theorem process_dataframe_mutates_input (df : DataFrame) :
  valid_table df →
  dates_parse to_datetime df →
  let df' := (process_dataframe to_datetime df).1 in
  columns df' = columns df ∧
  rows df' = (λ r, lumpsum_row (normalized_row to_datetime df r)) <$> rows df ∧
  (∀ r, r ∈ rows df' → r !! level_column = Some (Str "Lumpsum")) ∧
  (∀ col, col ∈ DATE_COLUMNS →
     column col df' =
     (λ c, Some (normalized_cell to_datetime (column col df) c)) <$> column col df) ∧
  ((∃ r, r ∈ rows df ∧ r !! level_column ≠ Some (Str "Lumpsum")) → df' ≠ df).
Proof.
  intros Hvalid Hp df'.
  assert (Hrows : rows df' =
            (λ r, lumpsum_row (normalized_row to_datetime df r)) <$> rows df).
  { unfold df'. rewrite process_dataframe_caller by done.
    rewrite bool_decide_eq_true_2 by (by apply valid_table_rebate).
    unfold setitem_scalar. cbn [rows]. rewrite rows_normalized_dates.
    by rewrite <- list_fmap_compose. }
  assert (Hlevel : ∀ r, r ∈ rows df' → r !! level_column = Some (Str "Lumpsum")).
  { intros r. rewrite Hrows. intros (r0 & -> & _)%list_elem_of_fmap.
    apply lookup_lumpsum_row_level. }
  split_and!; [|done|done| |].
  - unfold df'. rewrite process_dataframe_caller by done.
    rewrite bool_decide_eq_true_2 by (by apply valid_table_rebate).
    unfold setitem_scalar. cbn [columns]. rewrite columns_normalized_dates.
    apply add_label_present. by apply valid_table_level.
  - intros col Hcol.
    rewrite <- (column_normalized_dates_date to_datetime df col Hcol).
    2: { apply valid_table_columns; [done|].
         unfold DATE_COLUMNS, REQUIRED_COLUMNS in *.
         rewrite !elem_of_cons in *. tauto. }
    unfold column. rewrite Hrows, rows_normalized_dates, <- !list_fmap_compose.
    apply list_fmap_ext. intros _ r _. simpl.
    apply lookup_lumpsum_row_ne. intros ->. by apply level_not_date_column.
  - intros (r & Hr & Hne) Heq. apply Hne, Hlevel. by rewrite Heq.
Qed.

(** C3. On a valid table the engine returns a table and metrics with:
    [input_rows] the number of rows of the input; [distinct_rebates] the
    number of distinct values of "Rebate Name", a missing value counting as
    one; [header_count] equal to [distinct_rebates]; [lumpsum_count] equal
    to [input_rows]; [output_rows] their sum, which is the number of rows
    of the returned table.
    The call returns when the date parser returns on the date columns and
    no column of the input has the name of the scratch column of the
    sort. *)
Theorem process_dataframe_metrics (df : DataFrame) :
  valid_table df →
  (scratch_column ∉ columns df → dates_parse to_datetime df →
   ∃ out m, (process_dataframe to_datetime df).2 = Returned (out, m)) ∧
  ∀ out m, (process_dataframe to_datetime df).2 = Returned (out, m) →
    input_rows m = len df ∧
    (∃ values : list cell,
       NoDup values ∧ (∀ v, v ∈ values ↔ v ∈ column rebate_column df) ∧
       distinct_rebates m = length values) ∧
    header_count m = distinct_rebates m ∧
    lumpsum_count m = input_rows m ∧
    output_rows m = header_count m + lumpsum_count m ∧
    output_rows m = len out.
Proof.
  intros Hvalid. split.
  { intros Hscratch Hp. eexists _, _.
    apply process_dataframe_returns; [by apply valid_table_rebate|done|done]. }
  intros out m (_ & _ & -> & -> & _)%process_dataframe_returned_inv.
  cbn [input_rows distinct_rebates header_count lumpsum_count output_rows].
  split_and!; try done.
  - exists (unique (column rebate_column df)). split_and!.
    + apply NoDup_unique.
    + apply elem_of_unique.
    + done.
  - unfold len, restructured_rows, merged_rows. cbn [rows].
    rewrite length_fmap, (stable_sort_length presort_key key_leb).
    rewrite length_app, !length_fmap, length_group_keys.
    rewrite column_normalized_dates_other by apply rebate_not_date_column.
    fold (len (normalized_dates to_datetime df)). by rewrite len_normalized_dates.
Qed.

(** The columns of the returned table are those of the input, in the same
    order, when the labels of the input are distinct, none of them is the
    name of the scratch column, and the date parser returns. *)
Lemma process_dataframe_columns (df : DataFrame) :
  rebate_column ∈ columns df → scratch_column ∉ columns df →
  NoDup (columns df) → dates_parse to_datetime df →
  ∃ out m, (process_dataframe to_datetime df).2 = Returned (out, m) ∧
    columns out = columns df.
Proof.
  intros Hrebate Hscratch Hnd Hp. eexists _, _. split.
  { by apply process_dataframe_returns. }
  cbn [columns]. by apply returned_columns_NoDup.
Qed.

End engine_properties.

Lemma process_dataframe_mutates_input_witness :
  valid_table sample_table ∧
  (process_dataframe parse_mdY sample_table).1 ≠ sample_table.
Proof.
  assert (H : valid_table sample_table) by (vm_compute; reflexivity).
  split; [done|].
  apply (process_dataframe_mutates_input parse_mdY sample_table H
           (dates_parse_mdY sample_table)).
  exists (detail_row "Y" "" "Flat" "300" "SF" "12/31/1999" "02/30/2024").
  split; [|vm_compute; discriminate].
  unfold sample_table. cbn [rows]. rewrite !elem_of_cons. tauto.
Defined.

Lemma process_dataframe_metrics_witness :
  valid_table sample_table ∧ (scratch_column ∉ columns sample_table) ∧
  ∃ out m, (process_dataframe parse_mdY sample_table).2 = Returned (out, m) ∧
    input_rows m = 3 ∧ header_count m = distinct_rebates m ∧
    lumpsum_count m = 3 ∧ output_rows m = len out.
Proof.
  assert (H1 : valid_table sample_table) by (vm_compute; reflexivity).
  assert (H2 : scratch_column ∉ columns sample_table) by (by apply (bool_decide_unpack _)).
  split_and!; [done..|].
  destruct (process_dataframe_metrics parse_mdY sample_table H1) as [Hret _].
  destruct (Hret H2 (dates_parse_mdY _)) as (out & m & Hrun).
  destruct (process_dataframe_metrics parse_mdY sample_table H1) as [_ Hprop].
  destruct (Hprop out m Hrun) as (Hin & _ & Hh & Hl & _ & Hout).
  exists out, m. split_and!; [done| |done| |done].
  - rewrite Hin. reflexivity.
  - rewrite Hl, Hin. reflexivity.
Defined.

(** C7 (the code departs from it). The columns of the input are not
    restored for arbitrary extra columns: on a valid table with a column
    named "_level_sort", line 106 overwrites that column, line 109 drops
    it, and line 111 then fails to select it, so the call raises [KeyError]
    (that "_level_sort" is not in the index) instead of returning a table
    with the columns of the input.  On such a table the call never
    returns: it raises that [KeyError], or before that what the date parser
    raised. *)
Theorem process_dataframe_scratch_column_raises
    (to_datetime : list cell → outcome (cell → option Timestamp)) (df : DataFrame) :
  valid_table df → scratch_column ∈ columns df →
  (∃ e, (process_dataframe to_datetime df).2 = Raised e) ∧
  (dates_parse to_datetime df →
   (process_dataframe to_datetime df).2 = Raised (KeyError_not_in_index ["_level_sort"])).
Proof.
  intros Hvalid Hscratch.
  assert (Hkey : dates_parse to_datetime df →
            (process_dataframe to_datetime df).2 =
            Raised (KeyError_not_in_index ["_level_sort"])).
  { intros Hp.
    apply process_dataframe_scratch_collision; [by apply valid_table_rebate|done|done]. }
  split; [|done].
  destruct (normalize_dates_cases to_datetime df)
    as [[Hp _]|(col & e & df' & _ & _ & _ & _ & Hraise)].
  - eexists. by apply Hkey.
  - exists e. by rewrite (process_dataframe_parser_raises to_datetime df df' e Hraise).
Qed.

Lemma process_dataframe_scratch_column_raises_witness :
  valid_table scratch_table ∧ scratch_column ∈ columns scratch_table ∧
  (process_dataframe parse_mdY scratch_table).2 =
  Raised (KeyError_not_in_index ["_level_sort"]).
Proof.
  assert (H1 : valid_table scratch_table) by (vm_compute; reflexivity).
  assert (H2 : scratch_column ∈ columns scratch_table)
    by (by apply (bool_decide_unpack _)).
  split_and!; [done..|].
  destruct (process_dataframe_scratch_column_raises parse_mdY scratch_table H1 H2)
    as [_ Hkey].
  apply Hkey, dates_parse_mdY.
Defined.

Example process_dataframe_scratch_table :
  (process_dataframe parse_mdY scratch_table).2 =
  Raised (KeyError_not_in_index ["_level_sort"]).
Proof. vm_compute. reflexivity. Qed.

(** ** The rows of the returned table *)

Section restructuring.

Variable to_datetime : list cell → outcome (cell → option Timestamp).

Lemma group_keys_normalized_dates (df : DataFrame) :
  group_keys rebate_column (normalized_dates to_datetime df) = group_keys rebate_column df.
Proof.
  unfold group_keys.
  by rewrite column_normalized_dates_other by apply rebate_not_date_column.
Qed.

Lemma elem_of_group_keys (df : DataFrame) (k : cell) :
  k ∈ group_keys rebate_column df ↔ k ∈ column rebate_column df.
Proof. unfold group_keys. apply (elem_of_sorted_unique cell_leb). Qed.

Lemma NoDup_group_keys (df : DataFrame) : NoDup (group_keys rebate_column df).
Proof.
  unfold group_keys. rewrite (stable_sort_perm id cell_leb). apply NoDup_unique.
Qed.

Lemma merged_rows_normalized_dates (df : DataFrame) :
  merged_rows (normalized_dates to_datetime df) =
  (header_row (normalized_dates to_datetime df) <$> group_keys rebate_column df) ++
  (lumpsum_row <$> (normalized_row to_datetime df <$> rows df)).
Proof.
  unfold merged_rows. by rewrite group_keys_normalized_dates, rows_normalized_dates.
Qed.

Lemma process_dataframe_valid (df : DataFrame) :
  valid_table df → scratch_column ∉ columns df → dates_parse to_datetime df →
  ∃ m, (process_dataframe to_datetime df).2 =
       Returned ({| columns := returned_columns (columns df);
                    rows := restructured_rows (columns df)
                              (normalized_dates to_datetime df) |}, m).
Proof.
  intros Hvalid Hscratch Hp. eexists.
  apply process_dataframe_returns; [by apply valid_table_rebate|done|done].
Qed.

Lemma is_header_out_row (cols : list string) (r : row) :
  level_column ∈ cols → is_header (out_row cols r) ↔ is_header r.
Proof.
  intros Hl. unfold is_header. rewrite lookup_out_row.
  rewrite decide_True by done. by rewrite !decide_False by label_ne.
Qed.

Lemma is_lumpsum_out_row (cols : list string) (r : row) :
  level_column ∈ cols → is_lumpsum (out_row cols r) ↔ is_lumpsum r.
Proof.
  intros Hl. unfold is_lumpsum. rewrite lookup_out_row.
  rewrite decide_True by done. by rewrite !decide_False by label_ne.
Qed.

Lemma lookup_out_row_rebate (cols : list string) (r : row) :
  rebate_column ∈ cols → out_row cols r !! rebate_column = Some (rebate_key r).
Proof.
  intros Hr. rewrite lookup_out_row. by rewrite !decide_True by done.
Qed.

Lemma rebate_key_header_row (df : DataFrame) (k : cell) :
  k ∈ column rebate_column df →
  rebate_key (header_row (normalized_dates to_datetime df) k) = default (Str "") k.
Proof.
  intros Hk. unfold rebate_key. rewrite lookup_header_row_rebate; [done|].
  by rewrite column_normalized_dates_other by apply rebate_not_date_column.
Qed.

Lemma presort_key_header_row (df : DataFrame) (k : cell) :
  k ∈ column rebate_column df →
  presort_key (header_row (normalized_dates to_datetime df) k) =
  [Some (default (Str "") k); Some (Num 0)].
Proof.
  intros Hk. unfold presort_key. rewrite rebate_key_header_row by done.
  by rewrite level_sort_header by apply lookup_header_row_level.
Qed.

Lemma presort_key_lumpsum_row (r : row) :
  presort_key (lumpsum_row r) = [Some (rebate_key r); Some (Num 1)].
Proof.
  unfold presort_key. rewrite rebate_key_lumpsum_row. do 2 f_equal.
  f_equal. apply level_sort_lumpsum, lookup_lumpsum_row_level.
Qed.

Lemma is_header_lumpsum_row (r : row) : ¬ is_header (lumpsum_row r).
Proof. unfold is_header. by rewrite lookup_lumpsum_row_level. Qed.

Lemma is_lumpsum_header_row (df : DataFrame) (k : cell) : ¬ is_lumpsum (header_row df k).
Proof. unfold is_lumpsum. by rewrite lookup_header_row_level. Qed.

(** The header rows of the returned table, up to their order. *)
Lemma returned_header_rows (df : DataFrame) :
  valid_table df →
  filter is_header (restructured_rows (columns df) (normalized_dates to_datetime df)) ≡ₚ
  header_out to_datetime df <$> group_keys rebate_column df.
Proof.
  intros Hvalid. unfold restructured_rows. rewrite filter_fmap.
  rewrite (list_filter_iff _ is_header)
    by (intros r; apply is_header_out_row; by apply valid_table_level).
  rewrite (stable_sort_perm presort_key key_leb), merged_rows_normalized_dates.
  rewrite filter_app, filter_all, filter_none, app_nil_r.
  - by rewrite <- list_fmap_compose.
  - intros r (r0 & -> & _)%list_elem_of_fmap. apply is_header_lumpsum_row.
  - intros r (k & -> & _)%list_elem_of_fmap. apply lookup_header_row_level.
Qed.

(** The detail rows of one key in the returned table, in order. *)
Lemma returned_detail_rows (df : DataFrame) (k : scalar) :
  valid_table df →
  filter (λ r, is_lumpsum r ∧ r !! rebate_column = Some k)
    (restructured_rows (columns df) (normalized_dates to_datetime df)) =
  detail_out to_datetime df <$> filter (λ r, rebate_key r = k) (rows df).
Proof.
  intros Hvalid. unfold restructured_rows. rewrite filter_fmap.
  rewrite (list_filter_iff _ (λ r, presort_key r = [Some k; Some (Num 1)])).
  2: { intros r. rewrite is_lumpsum_out_row by (by apply valid_table_level).
       rewrite lookup_out_row_rebate by (by apply valid_table_rebate).
       rewrite level_sort_lumpsum. unfold presort_key. split.
       - intros [-> H]. by simplify_eq.
       - intros H. by simplify_eq. }
  rewrite (stable_sort_filter presort_key key_leb), merged_rows_normalized_dates.
  rewrite filter_app, filter_none, app_nil_l.
  2: { intros r (c & -> & Hc)%list_elem_of_fmap.
       apply elem_of_group_keys in Hc. rewrite presort_key_header_row by done.
       intros H. by simplify_eq. }
  rewrite !filter_fmap, <- !list_fmap_compose. unfold detail_out.
  assert (Hfil : filter (λ r, presort_key (lumpsum_row (normalized_row to_datetime df r)) =
                              [Some k; Some (Num 1)]) (rows df) =
                 filter (λ r, rebate_key r = k) (rows df)).
  { apply list_filter_iff. intros r.
    rewrite presort_key_lumpsum_row, rebate_key_normalized_row. split.
    - intros H. by simplify_eq.
    - by intros ->. }
  by rewrite Hfil.
Qed.

(** C1. On a valid table the returned table has one Header row for each
    distinct value of "Rebate Name" in the input, shown under that value (a
    missing value under the empty string); a Header row comes before every
    Lumpsum row of the same "Rebate Name"; and the Lumpsum rows of one
    "Rebate Name" are the input rows of that key, in their input order.
    The call returns when the date parser returns on the date columns and
    no column of the input has the name of the scratch column of the
    sort. *)
Theorem header_per_group_and_stable_order (df : DataFrame) :
  valid_table df →
  (scratch_column ∉ columns df → dates_parse to_datetime df →
   ∃ out m, (process_dataframe to_datetime df).2 = Returned (out, m)) ∧
  ∀ out m, (process_dataframe to_datetime df).2 = Returned (out, m) →
    NoDup (unique (column rebate_column df)) ∧
    header_keys out ≡ₚ fillna (Str "") (unique (column rebate_column df)) ∧
    (∀ i j h l,
       rows out !! i = Some h → rows out !! j = Some l →
       is_header h → is_lumpsum l → h !! rebate_column = l !! rebate_column →
       i < j) ∧
    (∀ k : scalar,
       filter (λ r, is_lumpsum r ∧ r !! rebate_column = Some k) (rows out) =
       detail_out to_datetime df <$> filter (λ r, rebate_key r = k) (rows df)).
Proof.
  intros Hvalid. split.
  { intros Hscratch Hp. destruct (process_dataframe_valid df Hvalid Hscratch Hp) as [m Hrun].
    by eexists _, m. }
  intros out m (_ & Hscratch & -> & _)%process_dataframe_returned_inv. cbn [rows].
  pose proof (valid_table_level df Hvalid) as Hlevel.
  pose proof (valid_table_rebate df Hvalid) as Hrebate.
  split_and!.
  - apply NoDup_unique.
  - unfold header_keys. cbn [rows]. rewrite returned_header_rows by done.
    rewrite <- list_fmap_compose. unfold group_keys.
    rewrite (stable_sort_perm id cell_leb). unfold fillna.
    rewrite (list_fmap_ext _ (λ c : cell, Some (default (Str "") c))); [done|].
    intros n c Hc. simpl.
    apply list_elem_of_lookup_2 in Hc. rewrite elem_of_unique in Hc.
    unfold header_out. rewrite lookup_out_row_rebate by done.
    by rewrite rebate_key_header_row.
  - intros i j h l Hi Hj Hh Hl Hkey. unfold restructured_rows in Hi, Hj.
    rewrite list_lookup_fmap in Hi, Hj.
    destruct (stable_sort presort_key key_leb _ !! i) as [h'|] eqn:Hi'; [|done].
    destruct (stable_sort presort_key key_leb _ !! j) as [l'|] eqn:Hj'; [|done].
    simpl in Hi, Hj. simplify_eq.
    apply is_header_out_row in Hh; [|done].
    apply is_lumpsum_out_row in Hl; [|done].
    rewrite !lookup_out_row_rebate in Hkey by done. simplify_eq.
    destruct (decide (i < j)) as [|Hge]; [done|].
    assert (j < i) as Hlt.
    { destruct (decide (i = j)) as [->|]; [|lia].
      rewrite Hi' in Hj'. simplify_eq. unfold is_header, is_lumpsum in *. congruence. }
    pose proof (sorted_lookup presort_key key_leb _ j i l' h'
                  (stable_sort_sorted presort_key key_leb _) Hj' Hi' Hlt) as Hle.
    unfold presort_key in Hle. rewrite Hkey in Hle.
    rewrite (level_sort_header h') in Hle by done.
    apply level_sort_lumpsum in Hl. rewrite Hl in Hle.
    unfold key_leb in Hle. cbn [lex_leb] in Hle.
    rewrite decide_True in Hle by done. rewrite decide_False in Hle by done.
    done.
  - intros k. by apply returned_detail_rows.
Qed.

End restructuring.

Lemma header_per_group_and_stable_order_witness :
  valid_table sample_table ∧ (scratch_column ∉ columns sample_table) ∧
  ∃ out m, (process_dataframe parse_mdY sample_table).2 = Returned (out, m) ∧
    header_keys out ≡ₚ [Some (Str "X"); Some (Str "Y")].
Proof.
  assert (H1 : valid_table sample_table) by (vm_compute; reflexivity).
  assert (H2 : scratch_column ∉ columns sample_table) by (by apply (bool_decide_unpack _)).
  split_and!; [done..|].
  destruct (header_per_group_and_stable_order parse_mdY sample_table H1)
    as [Hret Hprop].
  destruct (Hret H2 (dates_parse_mdY _)) as (out & m & Hrun).
  destruct (Hprop out m Hrun) as (_ & Hperm & _).
  exists out, m. split; [done|].
  assert (Hkeys : fillna (Str "") (unique (column rebate_column sample_table)) =
                  [Some (Str "X"); Some (Str "Y")]) by (vm_compute; reflexivity).
  by rewrite <- Hkeys.
Defined.

(** ** Groups in ascending order of the key *)

Lemma fmap_bind {A B C} (f : B → C) (g : A → list B) (l : list A) :
  f <$> (l ≫= g) = l ≫= λ x, f <$> g x.
Proof.
  induction l as [|x l IH]; [done|]. by rewrite !bind_cons, fmap_app, IH.
Qed.

Lemma bind_bind {A B C} (f : A → list B) (g : B → list C) (l : list A) :
  (l ≫= f) ≫= g = l ≫= λ x, f x ≫= g.
Proof.
  induction l as [|x l IH]; [done|]. by rewrite !bind_cons, bind_app, IH.
Qed.

Lemma ascending_tier_keys (ks : list scalar) :
  ascending scalar_leb ks → ascending key_leb (ks ≫= tier_keys).
Proof.
  unfold ascending. induction 1 as [|k ks Hks IH Hk]; [constructor|].
  rewrite bind_cons. unfold tier_keys at 1. cbn [app].
  assert (Hrest : ∀ t K, K ∈ ks ≫= tier_keys →
            key_leb [Some k; Some (Num t)] K = true ∧ [Some k; Some (Num t)] ≠ K).
  { intros t K (k' & HK & Hk')%list_elem_of_bind.
    rewrite Forall_forall in Hk. destruct (Hk k' Hk') as [Hle Hne].
    unfold tier_keys in HK. rewrite !elem_of_cons in HK.
    destruct HK as [->|[->|HK]]; [| |by apply elem_of_nil in HK].
    - split; [|congruence]. unfold key_leb. cbn [lex_leb].
      rewrite decide_False by congruence. done.
    - split; [|congruence]. unfold key_leb. cbn [lex_leb].
      rewrite decide_False by congruence. done. }
  constructor; [constructor; [done|]|].
  - apply Forall_forall. intros K HK. by apply Hrest.
  - constructor.
    + split; [|congruence]. unfold key_leb. cbn [lex_leb].
      rewrite decide_True by done. by rewrite decide_False by congruence.
    + apply Forall_forall. intros K HK. by apply Hrest.
Qed.

Section groups.

Variable to_datetime : list cell → outcome (cell → option Timestamp).

Lemma merged_header_rows (df : DataFrame) (k : scalar) :
  filter (λ r, presort_key r = [Some k; Some (Num 0)])
    (merged_rows (normalized_dates to_datetime df)) =
  header_row (normalized_dates to_datetime df) <$>
    filter (λ c : cell, default (Str "") c = k) (group_keys rebate_column df).
Proof.
  rewrite merged_rows_normalized_dates, filter_app.
  rewrite (filter_none _ (lumpsum_row <$> _)), app_nil_r.
  2: { intros r (r0 & -> & _)%list_elem_of_fmap.
       rewrite presort_key_lumpsum_row. congruence. }
  rewrite filter_fmap. f_equal. apply filter_iff_elem. intros c Hc.
  apply elem_of_group_keys in Hc. rewrite presort_key_header_row by done.
  split; [congruence|by intros ->].
Qed.

Lemma merged_detail_rows (df : DataFrame) (k : scalar) :
  filter (λ r, presort_key r = [Some k; Some (Num 1)])
    (merged_rows (normalized_dates to_datetime df)) =
  (λ r, lumpsum_row (normalized_row to_datetime df r)) <$>
    filter (λ r, rebate_key r = k) (rows df).
Proof.
  rewrite merged_rows_normalized_dates, filter_app.
  rewrite (filter_none _ (header_row _ <$> _)), app_nil_l.
  2: { intros r (c & -> & Hc)%list_elem_of_fmap.
       apply elem_of_group_keys in Hc. rewrite presort_key_header_row by done.
       congruence. }
  rewrite <- list_fmap_compose, filter_fmap. f_equal.
  apply list_filter_iff. intros r. simpl.
  rewrite presort_key_lumpsum_row, rebate_key_normalized_row.
  split; [congruence|by intros ->].
Qed.

Lemma elem_of_ascending_keys (df : DataFrame) (k : scalar) :
  k ∈ ascending_keys df ↔ ∃ r, r ∈ rows df ∧ rebate_key r = k.
Proof.
  unfold ascending_keys. rewrite (elem_of_sorted_unique scalar_leb).
  rewrite list_elem_of_fmap. split; intros (r & H1 & H2); eauto.
Qed.

Lemma merged_rows_keys (df : DataFrame) (r : row) :
  r ∈ merged_rows (normalized_dates to_datetime df) →
  presort_key r ∈ ascending_keys df ≫= tier_keys.
Proof.
  rewrite merged_rows_normalized_dates, elem_of_app, !list_elem_of_fmap.
  intros [(c & -> & Hc)|(r1 & -> & (r0 & -> & Hr0)%list_elem_of_fmap)].
  - apply elem_of_group_keys in Hc. rewrite presort_key_header_row by done.
    apply list_elem_of_bind. exists (default (Str "") c). split; [left|].
    apply elem_of_ascending_keys. unfold column in Hc.
    apply list_elem_of_fmap in Hc as (r & -> & Hr). by exists r.
  - rewrite presort_key_lumpsum_row, rebate_key_normalized_row.
    apply list_elem_of_bind. exists (rebate_key r0). split; [right; left|].
    apply elem_of_ascending_keys. by exists r0.
Qed.

(** The returned rows, group after group. *)
Lemma restructured_rows_blocks (df : DataFrame) :
  restructured_rows (columns df) (normalized_dates to_datetime df) =
  ascending_keys df ≫= λ k,
    (header_out to_datetime df <$>
       filter (λ c : cell, default (Str "") c = k) (group_keys rebate_column df)) ++
    (detail_out to_datetime df <$> filter (λ r, rebate_key r = k) (rows df)).
Proof.
  unfold restructured_rows.
  rewrite (stable_sort_blocks presort_key key_leb (ascending_keys df ≫= tier_keys)).
  - rewrite bind_bind, fmap_bind. apply Forall_bind_ext, Forall_forall.
    intros k _. unfold tier_keys. rewrite bind_cons, bind_singleton.
    rewrite merged_header_rows, merged_detail_rows, fmap_app.
    by rewrite <- !list_fmap_compose.
  - apply ascending_tier_keys. apply (sorted_unique_ascending scalar_leb).
  - apply merged_rows_keys.
Qed.

(** C2, as the code has it. On a valid table the groups of the returned
    table come in ascending order of "Rebate Name" (a missing value counted
    as the empty string), not in first-seen order: each key once, its
    header row (the two header rows of the missing and of the empty key,
    where both occur) immediately followed by the detail rows of the key in
    their input order.  Where no key is missing each group is one header
    row and its detail rows.  For keys B, A, B, C the headers come in the
    order A, B, C.
    The call returns when the date parser returns on the date columns and
    no column of the input has the name of the scratch column of the
    sort. *)
Theorem groups_in_ascending_key_order (df : DataFrame) :
  valid_table df →
  (scratch_column ∉ columns df → dates_parse to_datetime df →
   ∃ out m, (process_dataframe to_datetime df).2 = Returned (out, m)) ∧
  ∀ out m, (process_dataframe to_datetime df).2 = Returned (out, m) →
    ascending scalar_leb (ascending_keys df) ∧
    (∀ k, k ∈ ascending_keys df ↔ ∃ r, r ∈ rows df ∧ rebate_key r = k) ∧
    rows out =
      (ascending_keys df ≫= λ k,
         (header_out to_datetime df <$>
            filter (λ c : cell, default (Str "") c = k) (group_keys rebate_column df)) ++
         (detail_out to_datetime df <$> filter (λ r, rebate_key r = k) (rows df))) ∧
    ((∀ r, r ∈ rows df → is_Some (r !! rebate_column)) →
     rows out =
       ascending_keys df ≫= λ k,
         header_out to_datetime df (Some k) ::
         (detail_out to_datetime df <$> filter (λ r, rebate_key r = k) (rows df))).
Proof.
  intros Hvalid. split.
  { intros Hscratch Hp.
    destruct (process_dataframe_valid to_datetime df Hvalid Hscratch Hp) as [m Hrun].
    by eexists _, m. }
  intros out m (_ & Hscratch & -> & _)%process_dataframe_returned_inv.
  cbn [rows]. split_and!.
  - apply (sorted_unique_ascending scalar_leb).
  - apply elem_of_ascending_keys.
  - apply restructured_rows_blocks.
  - intros Hsome. rewrite restructured_rows_blocks.
    apply Forall_bind_ext, Forall_forall. intros k Hk.
    apply elem_of_ascending_keys in Hk as (r & Hr & Hkey).
    assert (Hfil : filter (λ c : cell, default (Str "") c = k)
                     (group_keys rebate_column df) = [Some k]).
    { rewrite (filter_iff_elem _ (λ c, c = Some k)).
      - apply filter_eq_NoDup; [apply NoDup_group_keys|].
        apply elem_of_group_keys. unfold column. apply list_elem_of_fmap.
        exists r. split; [|done]. unfold rebate_key in Hkey.
        destruct (Hsome r Hr) as [x Hx]. rewrite Hx in Hkey |- *.
        simpl in Hkey. by subst.
      - intros c Hc. apply elem_of_group_keys in Hc. unfold column in Hc.
        apply list_elem_of_fmap in Hc as (r' & -> & Hr').
        destruct (Hsome r' Hr') as [x ->]. simpl. split; congruence. }
    by rewrite Hfil.
Qed.

End groups.

(** C2 as stated fails: for keys B, A, B, C the header rows do not come
    in the first-seen order B, A, C. *)
Lemma headers_in_first_seen_order_fails :
  ¬ headers_in_first_seen_order parse_mdY order_table.
Proof.
  intros Hclaim.
  assert (H1 : rebate_column ∈ columns order_table) by (by apply (bool_decide_unpack _)).
  assert (H2 : scratch_column ∉ columns order_table) by (by apply (bool_decide_unpack _)).
  pose proof (process_dataframe_returns parse_mdY order_table H1 H2
                (dates_parse_mdY _)) as Hrun.
  apply Hclaim in Hrun. vm_compute in Hrun. discriminate.
Qed.

Lemma groups_in_ascending_key_order_witness :
  valid_table order_table ∧ (scratch_column ∉ columns order_table) ∧
  ∃ out m, (process_dataframe parse_mdY order_table).2 = Returned (out, m) ∧
    ascending_keys order_table = [Str "A"; Str "B"; Str "C"] ∧
    rows out =
      ascending_keys order_table ≫= λ k,
        header_out parse_mdY order_table (Some k) ::
        (detail_out parse_mdY order_table <$>
           filter (λ r, rebate_key r = k) (rows order_table)).
Proof.
  assert (H1 : valid_table order_table) by (vm_compute; reflexivity).
  assert (H2 : scratch_column ∉ columns order_table) by (by apply (bool_decide_unpack _)).
  split_and!; [done..|].
  destruct (groups_in_ascending_key_order parse_mdY order_table H1) as [Hret Hprop].
  destruct (Hret H2 (dates_parse_mdY _)) as (out & m & Hrun).
  destruct (Hprop out m Hrun) as (_ & _ & _ & Hrows).
  exists out, m. split_and!; [done|vm_compute; reflexivity|].
  apply Hrows. apply Forall_forall.
  apply (bool_decide_unpack _). vm_compute. exact I.
Defined.

(** ** The cells of a header row *)

Lemma first_present_fmap (c : string) (f : row → row) (grp : list row) :
  (∀ r, f r !! c = r !! c) → first_present c (f <$> grp) = first_present c grp.
Proof.
  intros Hf. unfold first_present. f_equal.
  induction grp as [|r grp IH]; [done|]. csimpl. by rewrite Hf, IH.
Qed.

Lemma first_present_head (c : string) (grp : list row) (r0 : row) :
  head grp = Some r0 → is_Some (r0 !! c) → first_present c grp = r0 !! c.
Proof.
  intros Hhead [x Hx]. destruct grp as [|r grp]; [done|].
  simpl in Hhead. simplify_eq. unfold first_present. simpl. by rewrite Hx.
Qed.

Lemma lumpsum_columns_required (c : string) :
  c ∈ LUMPSUM_COLUMNS → c ∈ REQUIRED_COLUMNS.
Proof.
  unfold LUMPSUM_COLUMNS, REQUIRED_COLUMNS. rewrite !elem_of_cons. tauto.
Qed.

Lemma date_columns_lumpsum (c : string) : c ∈ DATE_COLUMNS → c ∈ LUMPSUM_COLUMNS.
Proof.
  unfold LUMPSUM_COLUMNS, DATE_COLUMNS. rewrite !elem_of_cons. tauto.
Qed.

Section header_cells.

Variable to_datetime : list cell → outcome (cell → option Timestamp).

Lemma group_rows_normalized (df : DataFrame) (k : cell) :
  group_rows rebate_column k (rows (normalized_dates to_datetime df)) =
  normalized_row to_datetime df <$> group_rows rebate_column k (rows df).
Proof.
  unfold group_rows. rewrite rows_normalized_dates, filter_fmap. f_equal.
  apply list_filter_iff. intros r.
  by rewrite lookup_normalized_row_other by apply rebate_not_date_column.
Qed.

Lemma lookup_header_out (df : DataFrame) (k : cell) (c : string) :
  c ∈ columns df → c ≠ rebate_column → c ≠ scratch_column →
  header_out to_datetime df k !! c =
  if decide (c ∈ LUMPSUM_COLUMNS) then Some (Str "")
  else if decide (c = level_column) then Some (Str "Header")
  else first_present c (group_rows rebate_column k (rows df)).
Proof.
  intros Hc Hr Hs. unfold header_out. rewrite lookup_out_row.
  rewrite decide_True by done. rewrite !decide_False by done.
  unfold header_row. rewrite lookup_blank_cells.
  destruct (decide (c ∈ LUMPSUM_COLUMNS)) as [Hl|Hl].
  - rewrite decide_True; [done|]. split; [done|].
    apply elem_of_header_columns. right. right.
    by rewrite columns_normalized_dates.
  - rewrite decide_False by tauto.
    destruct (decide (c = level_column)) as [->|Hlev].
    + apply lookup_insert_eq.
    + rewrite lookup_insert_ne by done.
      rewrite first_valid_lookup, group_rows_normalized.
      apply first_present_fmap. intros r. apply lookup_normalized_row_other.
      intros Hd. by apply Hl, date_columns_lumpsum.
Qed.

(** C6, as the code has it. On a valid table the header rows of the
    returned table are the rows [header_out] of the groups, one for each
    value of "Rebate Name".  The header row of a group holds Header in
    "Level", the empty string in each of the five detail-only columns, the
    key of the group in "Rebate Name" (the empty string for the missing
    key), and in every other column of the input, extra columns included,
    the first value of that column that is not missing among the rows of
    the group: the value of the first row of the group whenever the first
    row has one.
    The call returns when the date parser returns on the date columns and
    no column of the input has the name of the scratch column of the
    sort. *)
Theorem header_row_cells (df : DataFrame) :
  valid_table df →
  (scratch_column ∉ columns df → dates_parse to_datetime df →
   ∃ out m, (process_dataframe to_datetime df).2 = Returned (out, m)) ∧
  ∀ out m, (process_dataframe to_datetime df).2 = Returned (out, m) →
    (∀ h, h ∈ rows out ∧ is_header h ↔
          ∃ k, k ∈ column rebate_column df ∧ h = header_out to_datetime df k) ∧
    ∀ k, k ∈ column rebate_column df →
      header_out to_datetime df k !! level_column = Some (Str "Header") ∧
      (∀ c, c ∈ LUMPSUM_COLUMNS → header_out to_datetime df k !! c = Some (Str "")) ∧
      header_out to_datetime df k !! rebate_column = Some (default (Str "") k) ∧
      (∀ c, c ∈ columns df → c ≠ level_column → c ≠ rebate_column →
            c ∉ LUMPSUM_COLUMNS →
         header_out to_datetime df k !! c =
           first_present c (group_rows rebate_column k (rows df)) ∧
         ∀ r0, head (group_rows rebate_column k (rows df)) = Some r0 →
               is_Some (r0 !! c) →
               header_out to_datetime df k !! c = r0 !! c).
Proof.
  intros Hvalid. split.
  { intros Hscratch Hp.
    destruct (process_dataframe_valid to_datetime df Hvalid Hscratch Hp) as [m Hrun].
    by eexists _, m. }
  intros out m (_ & Hscratch & -> & _)%process_dataframe_returned_inv.
  cbn [rows].
  pose proof (valid_table_level df Hvalid) as Hlevel.
  pose proof (valid_table_rebate df Hvalid) as Hrebate.
  assert (Hns : ∀ c, c ∈ columns df → c ≠ scratch_column) by (by intros c Hc ->).
  split.
  - intros h. split.
    + intros [Hin Hh].
      assert (h ∈ filter is_header
                (restructured_rows (columns df) (normalized_dates to_datetime df)))
        as Hf by (by apply list_elem_of_filter).
      rewrite (returned_header_rows to_datetime df Hvalid) in Hf.
      apply list_elem_of_fmap in Hf as (k & -> & Hk). exists k.
      split; [by apply elem_of_group_keys in Hk|done].
    + intros (k & Hk & ->).
      assert (header_out to_datetime df k ∈ filter is_header
                (restructured_rows (columns df) (normalized_dates to_datetime df)))
        as Hf.
      { rewrite (returned_header_rows to_datetime df Hvalid).
        apply list_elem_of_fmap. exists k. split; [done|].
        by apply elem_of_group_keys. }
      apply list_elem_of_filter in Hf as [Hh Hin]. done.
  - intros k Hk. split_and!.
    + rewrite lookup_header_out by (first [done | label_ne | by apply Hns]).
      rewrite decide_False by apply level_not_lumpsum_column.
      by rewrite decide_True.
    + intros c Hc.
      assert (c ∈ columns df) as Hin
        by (by apply valid_table_columns, lumpsum_columns_required).
      rewrite lookup_header_out; [by rewrite decide_True| done | | by apply Hns].
      intros ->. by apply rebate_not_lumpsum_column.
    + unfold header_out. rewrite lookup_out_row_rebate by done.
      by rewrite rebate_key_header_row.
    + intros c Hc Hl Hr Hnl.
      rewrite lookup_header_out by (first [done | by apply Hns]).
      rewrite !decide_False by done. split; [done|].
      intros r0 Hhead Hsome. by apply first_present_head.
Qed.

End header_cells.

(** C6 as stated fails: the header row of the group X holds "n2" in the
    extra column "Note", which the first row of the group leaves empty. *)
Lemma header_copies_first_row_fails :
  ¬ header_copies_first_row parse_mdY note_table.
Proof.
  intros Hclaim.
  assert (H0 : valid_table note_table) by (vm_compute; reflexivity).
  assert (H1 : rebate_column ∈ columns note_table) by (by apply (bool_decide_unpack _)).
  assert (H2 : scratch_column ∉ columns note_table) by (by apply (bool_decide_unpack _)).
  pose proof (process_dataframe_returns parse_mdY note_table H1 H2
                (dates_parse_mdY _)) as Hrun.
  set (h := header_out parse_mdY note_table (Some (Str "X"))).
  assert (Hin : h ∈ filter is_header
            (restructured_rows (columns note_table) (normalized_dates parse_mdY note_table))).
  { rewrite (returned_header_rows parse_mdY note_table H0).
    apply list_elem_of_fmap. exists (Some (Str "X")). split; [done|].
    apply elem_of_group_keys. by apply (bool_decide_unpack _). }
  apply list_elem_of_filter in Hin as [Hh Hin].
  destruct (Hclaim _ _ Hrun h Hin Hh) as (r0 & Hr0 & Hcells).
  assert (Hfirst : head (filter (λ r, rebate_key r = rebate_key h) (rows note_table))
                     ≫= (λ r : row, r !! "Note") = None)
    by (vm_compute; reflexivity).
  rewrite Hr0 in Hfirst. cbn [mbind option_bind] in Hfirst.
  assert (Hnote : h !! "Note" = Some (Str "n2")) by (vm_compute; reflexivity).
  rewrite Hcells, Hfirst in Hnote.
  - discriminate.
  - by apply (bool_decide_unpack _).
  - discriminate.
  - by apply (bool_decide_unpack _).
Qed.

Lemma header_row_cells_witness :
  valid_table note_table ∧ (scratch_column ∉ columns note_table) ∧
  header_out parse_mdY note_table (Some (Str "X")) !! "Note" = Some (Str "n2").
Proof.
  assert (H1 : valid_table note_table) by (vm_compute; reflexivity).
  assert (H2 : scratch_column ∉ columns note_table) by (by apply (bool_decide_unpack _)).
  split_and!; [done..|].
  destruct (header_row_cells parse_mdY note_table H1) as [Hret Hprop].
  destruct (Hret H2 (dates_parse_mdY _)) as (out & m & Hrun).
  destruct (Hprop out m Hrun) as (_ & Hcells).
  assert (Hk : Some (Str "X") ∈ column rebate_column note_table)
    by (by apply (bool_decide_unpack _)).
  destruct (Hcells _ Hk) as (_ & _ & _ & Hother).
  destruct (Hother "Note") as [-> _].
  - by apply (bool_decide_unpack _).
  - discriminate.
  - discriminate.
  - by apply (bool_decide_unpack _).
  - vm_compute. reflexivity.
Defined.

(** ** Missing and empty keys *)

Lemma indicator_cons `{EqDecision A} (x c : A) (l : list A) :
  (if decide (x ∈ c :: l) then 1 else 0) =
  if decide (x = c) then 1 else if decide (x ∈ l) then 1 else 0.
Proof.
  destruct (decide (x ∈ c :: l)) as [Hin|Hin]; rewrite elem_of_cons in Hin;
    destruct (decide (x = c)); destruct (decide (x ∈ l)); tauto.
Qed.

Lemma length_filter_blank_keys (l : list cell) :
  NoDup l →
  length (filter (λ c : cell, default (Str "") c = Str "") l) =
  (if decide (None ∈ l) then 1 else 0) + (if decide (Some (Str "") ∈ l) then 1 else 0).
Proof.
  induction 1 as [|c l Hc Hl IH].
  - rewrite !decide_False by apply not_elem_of_nil. done.
  - rewrite filter_cons, !indicator_cons.
    destruct (decide (default (Str "") c = Str "")) as [Hp|Hp].
    + cbn [length]. rewrite IH. destruct c as [x|].
      * simpl in Hp. subst x. rewrite (decide_False (P:=None = Some (Str ""))) by done.
        rewrite (decide_True (P:=Some (Str "") = Some (Str ""))) by done.
        rewrite (decide_False (P:=Some (Str "") ∈ l)) by done. lia.
      * rewrite (decide_True (P:=None = None)) by done.
        rewrite (decide_False (P:=Some (Str "") = None)) by done.
        rewrite (decide_False (P:=None ∈ l)) by done. lia.
    + rewrite IH.
      rewrite (decide_False (P:=None = c)) by (by intros <-).
      rewrite (decide_False (P:=Some (Str "") = c)) by (by intros <-).
      done.
Qed.

Section blank_keys.

Variable to_datetime : list cell → outcome (cell → option Timestamp).

Lemma returned_rows_sorted (df : DataFrame) :
  valid_table df →
  StronglySorted (λ a b : row, cell_leb (a !! rebate_column) (b !! rebate_column) = true)
    (restructured_rows (columns df) (normalized_dates to_datetime df)).
Proof.
  intros Hvalid. unfold restructured_rows.
  apply (StronglySorted_fmap _ (λ a b, key_leb (presort_key a) (presort_key b) = true)).
  - intros a b Hab.
    rewrite !lookup_out_row_rebate by (by apply valid_table_rebate).
    unfold presort_key, key_leb in Hab. cbn [lex_leb] in Hab.
    destruct (decide (Some (rebate_key a) = Some (rebate_key b))) as [->|]; [|done].
    apply (ord_refl (ord:=cell_leb)).
  - apply (stable_sort_sorted presort_key key_leb).
Qed.

(** C8, as the code has it. On a valid table the rows whose "Rebate Name"
    is missing make one group and the rows whose "Rebate Name" is the empty
    string make one group: the distinct count takes the missing value as a
    value of its own, and the returned table has one Header row under the
    empty string for each of the two kinds that occurs.  Both kinds are
    sorted and shown under the empty string: every returned row has a
    "Rebate Name", the rows are in ascending order of it, and the Lumpsum
    rows under the empty string are the input rows of both kinds in input
    order.  Missing keys raise nothing: the call returns when the date
    parser returns on the date columns and no column of the input has the
    name of the scratch column of the sort. *)
Theorem blank_keys_groups (df : DataFrame) :
  valid_table df →
  (scratch_column ∉ columns df → dates_parse to_datetime df →
   ∃ out m, (process_dataframe to_datetime df).2 = Returned (out, m)) ∧
  ∀ out m, (process_dataframe to_datetime df).2 = Returned (out, m) →
    distinct_rebates m = length (unique (column rebate_column df)) ∧
    length (filter (λ h, is_header h ∧ h !! rebate_column = Some (Str "")) (rows out)) =
      (if decide (None ∈ column rebate_column df) then 1 else 0) +
      (if decide (Some (Str "") ∈ column rebate_column df) then 1 else 0) ∧
    (∀ r, r ∈ rows out → is_Some (r !! rebate_column)) ∧
    StronglySorted
      (λ a b : row, cell_leb (a !! rebate_column) (b !! rebate_column) = true) (rows out) ∧
    filter (λ r, is_lumpsum r ∧ r !! rebate_column = Some (Str "")) (rows out) =
      detail_out to_datetime df <$>
        filter (λ r, r !! rebate_column = None ∨ r !! rebate_column = Some (Str ""))
          (rows df).
Proof.
  intros Hvalid.
  pose proof (valid_table_level df Hvalid) as Hlevel.
  pose proof (valid_table_rebate df Hvalid) as Hrebate.
  split.
  { intros Hscratch Hp. eexists _, _. by apply process_dataframe_returns. }
  intros out m (_ & Hscratch & -> & -> & _)%process_dataframe_returned_inv.
  cbn [rows distinct_rebates]. split_and!.
  - done.
  - rewrite (list_filter_iff _
              (λ h : row, h !! rebate_column = Some (Str "") ∧ is_header h))
      by (intros; tauto).
    rewrite <- (list_filter_filter (λ h : row, h !! rebate_column = Some (Str ""))
                  is_header).
    rewrite (returned_header_rows to_datetime df Hvalid).
    rewrite filter_fmap, length_fmap.
    rewrite (filter_iff_elem _ (λ c : cell, default (Str "") c = Str "")).
    + rewrite length_filter_blank_keys by apply NoDup_group_keys.
      rewrite (decide_ext _ _ _ _ (elem_of_group_keys df None)).
      by rewrite (decide_ext _ _ _ _ (elem_of_group_keys df (Some (Str "")))).
    + intros c Hc. apply elem_of_group_keys in Hc. unfold header_out.
      rewrite lookup_out_row_rebate, rebate_key_header_row by done.
      split; congruence.
  - intros r (r0 & -> & _)%list_elem_of_fmap.
    rewrite lookup_out_row_rebate by done. by eexists.
  - by apply returned_rows_sorted.
  - rewrite (returned_detail_rows to_datetime df (Str "") Hvalid). f_equal.
    apply list_filter_iff. intros r. unfold rebate_key.
    destruct (r !! rebate_column) as [x|]; simpl.
    + split; [by intros ->; right|]. intros [|]; congruence.
    + split; [by left|done].
Qed.

End blank_keys.

(** C8 as stated fails: a row with a missing key and a row with the empty
    key are two buckets of the distinct count and give two Header rows. *)
Lemma blank_keys_are_one_group_fails :
  ¬ blank_keys_are_one_group parse_mdY blank_key_table.
Proof.
  intros Hclaim.
  assert (H1 : rebate_column ∈ columns blank_key_table)
    by (by apply (bool_decide_unpack _)).
  assert (H2 : scratch_column ∉ columns blank_key_table)
    by (by apply (bool_decide_unpack _)).
  pose proof (process_dataframe_returns parse_mdY blank_key_table H1 H2
                (dates_parse_mdY _)) as Hrun.
  destruct (Hclaim _ _ Hrun) as [Hone _].
  - exists (detail_row "" "" "Pct" "2" "LA" "" ""). split; [|vm_compute; reflexivity].
    unfold blank_key_table. cbn [rows]. right. left.
  - vm_compute in Hone. discriminate.
Qed.

Lemma blank_keys_groups_witness :
  valid_table blank_key_table ∧ (scratch_column ∉ columns blank_key_table) ∧
  ∃ out m, (process_dataframe parse_mdY blank_key_table).2 = Returned (out, m) ∧
    distinct_rebates m = 2 ∧
    length (filter (λ h, is_header h ∧ h !! rebate_column = Some (Str "")) (rows out)) = 2.
Proof.
  assert (H1 : valid_table blank_key_table) by (vm_compute; reflexivity).
  assert (H2 : scratch_column ∉ columns blank_key_table)
    by (by apply (bool_decide_unpack _)).
  split_and!; [done..|].
  destruct (blank_keys_groups parse_mdY blank_key_table H1) as [Hret Hprop].
  destruct (Hret H2 (dates_parse_mdY _)) as (out & m & Hrun).
  destruct (Hprop out m Hrun) as (Hdistinct & Hheaders & _).
  exists out, m. split_and!; [done| |].
  - rewrite Hdistinct. vm_compute. reflexivity.
  - rewrite Hheaders. vm_compute. reflexivity.
Defined.

(** * Further properties of the engine *)

Section engine_edges.

Variable to_datetime : list cell → outcome (cell → option Timestamp).

Lemma lookup_restructured_row_outside (cols : list string) (df : DataFrame)
    (r : row) (c : string) :
  r ∈ restructured_rows cols df → c ∉ cols → r !! c = None.
Proof.
  unfold restructured_rows. intros (r0 & -> & _)%list_elem_of_fmap Hc.
  rewrite lookup_out_row. by rewrite decide_False.
Qed.

(** (X1) Whatever the other columns are, a table with distinct column
    labels that has the column "Rebate Name" and no column named
    "_level_sort", and on whose date columns the parser returns, is
    restructured: the returned table has the columns of the input in the
    same order, its rows hold nothing outside these columns, and every row
    has a "Rebate Name".  This holds also where "Level" or a detail-only
    column is not a column of the input: the tier tag is then dropped by
    the final selection of the columns. *)
Theorem returned_columns_are_input_columns (df : DataFrame) :
  rebate_column ∈ columns df → scratch_column ∉ columns df →
  NoDup (columns df) → dates_parse to_datetime df →
  ∃ out m, (process_dataframe to_datetime df).2 = Returned (out, m) ∧
    columns out = columns df ∧
    (∀ r c, r ∈ rows out → c ∉ columns df → r !! c = None) ∧
    (∀ r, r ∈ rows out → is_Some (r !! rebate_column)) ∧
    len out = nunique (column rebate_column df) + len df.
Proof.
  intros Hrebate Hscratch Hnd Hp. eexists _, _. split.
  { by apply process_dataframe_returns. }
  cbn [columns rows]. split_and!.
  - by apply returned_columns_NoDup.
  - intros r c Hr Hc. by eapply lookup_restructured_row_outside.
  - intros r (r0 & -> & _)%list_elem_of_fmap.
    rewrite lookup_out_row_rebate by done. by eexists.
  - unfold len, restructured_rows, merged_rows. cbn [rows].
    rewrite length_fmap, (stable_sort_length presort_key key_leb).
    rewrite length_app, !length_fmap, length_group_keys.
    rewrite column_normalized_dates_other by apply rebate_not_date_column.
    fold (len (normalized_dates to_datetime df)). by rewrite len_normalized_dates.
Qed.

(** (X2) On a table without the column "Rebate Name", and on whose date
    columns the parser returns, the call raises [KeyError] for that label,
    after it has normalized the date columns of the caller's table: the
    table is left with these columns rewritten and everything else as it
    was. *)
Theorem missing_rebate_column_raises (df : DataFrame) :
  rebate_column ∉ columns df → dates_parse to_datetime df →
  (process_dataframe to_datetime df).2 = Raised (KeyError "Rebate Name") ∧
  (process_dataframe to_datetime df).1 = normalized_dates to_datetime df ∧
  columns (process_dataframe to_datetime df).1 = columns df ∧
  (∀ col, col ∈ DATE_COLUMNS → col ∈ columns df →
     column col (process_dataframe to_datetime df).1 =
     (λ c, Some (normalized_cell to_datetime (column col df) c)) <$> column col df) ∧
  (∀ col, col ∉ DATE_COLUMNS →
     column col (process_dataframe to_datetime df).1 = column col df).
Proof.
  intros Hr Hp.
  assert (Hfst : (process_dataframe to_datetime df).1 = normalized_dates to_datetime df).
  { rewrite process_dataframe_caller by done. by rewrite bool_decide_eq_false_2. }
  rewrite Hfst. split_and!.
  - by apply process_dataframe_no_rebate.
  - done.
  - apply columns_normalized_dates.
  - intros col Hcol Hin. by apply column_normalized_dates_date.
  - intros col Hcol. by apply column_normalized_dates_other.
Qed.



End engine_edges.

Lemma returned_columns_are_input_columns_witness :
  rebate_column ∈ columns bare_table ∧ (scratch_column ∉ columns bare_table) ∧
  ∃ out m, (process_dataframe parse_mdY bare_table).2 = Returned (out, m) ∧
    columns out = ["Note"; "Rebate Name"] ∧ len out = 4.
Proof.
  assert (H1 : rebate_column ∈ columns bare_table) by (by apply (bool_decide_unpack _)).
  assert (H2 : scratch_column ∉ columns bare_table) by (by apply (bool_decide_unpack _)).
  split_and!; [done..|].
  assert (H3 : NoDup (columns bare_table)) by (by apply (bool_decide_unpack _)).
  destruct (returned_columns_are_input_columns parse_mdY bare_table H1 H2 H3
              (dates_parse_mdY _))
    as (out & m & Hrun & Hcols & _ & _ & Hlen).
  exists out, m. split_and!; [done|done|].
  rewrite Hlen. vm_compute. reflexivity.
Defined.

Lemma missing_rebate_column_raises_witness :
  (rebate_column ∉ columns keyless_table) ∧
  (process_dataframe parse_mdY keyless_table).2 = Raised (KeyError "Rebate Name") ∧
  column "Lumpsum - Pay Date" (process_dataframe parse_mdY keyless_table).1 =
  [Some (Str "02/01/2024"); Some (Str "")].
Proof.
  assert (H1 : rebate_column ∉ columns keyless_table) by (by apply (bool_decide_unpack _)).
  split; [done|].
  destruct (missing_rebate_column_raises parse_mdY keyless_table H1 (dates_parse_mdY _))
    as (Hraise & _ & _ & Hdates & _).
  split; [done|]. rewrite Hdates.
  - vm_compute. reflexivity.
  - by apply (bool_decide_unpack _).
  - by apply (bool_decide_unpack _).
Defined.


(** ** Detail rows, and running the engine on its own output *)

Lemma unique_fmap_inj {A B} `{EqDecision A, EqDecision B} (f : A → B) (l : list A) :
  (∀ x y, f x = f y → x = y) → unique (f <$> l) = f <$> unique l.
Proof.
  intros Hinj. induction l as [|x l IH]; [done|]. csimpl. rewrite IH. f_equal.
  rewrite filter_fmap. f_equal. apply list_filter_iff. intros y. simpl.
  split; [congruence|]. intros Hne Heq. by apply Hne, Hinj.
Qed.

Lemma length_unique_same_elements `{EqDecision A} (l1 l2 : list A) :
  (∀ x, x ∈ l1 ↔ x ∈ l2) → length (unique l1) = length (unique l2).
Proof.
  intros Hel. apply Permutation_length, NoDup_Permutation.
  - apply NoDup_unique.
  - apply NoDup_unique.
  - intros x. by rewrite !elem_of_unique.
Qed.

Lemma unique_nil_inv `{EqDecision A} (l : list A) : unique l = [] → l = [].
Proof. by destruct l. Qed.

Section detail_rows.

Variable to_datetime : list cell → outcome (cell → option Timestamp).

Lemma returned_lumpsum_rows (df : DataFrame) :
  level_column ∈ columns df →
  filter is_lumpsum (restructured_rows (columns df) (normalized_dates to_datetime df)) ≡ₚ
  detail_out to_datetime df <$> rows df.
Proof.
  intros Hlevel. unfold restructured_rows. rewrite filter_fmap.
  rewrite (list_filter_iff _ is_lumpsum) by (intros r; by apply is_lumpsum_out_row).
  rewrite (stable_sort_perm presort_key key_leb), merged_rows_normalized_dates.
  rewrite filter_app, filter_none, filter_all, app_nil_l.
  - by rewrite <- !list_fmap_compose.
  - intros r (r0 & -> & _)%list_elem_of_fmap. apply lookup_lumpsum_row_level.
  - intros r (k & -> & _)%list_elem_of_fmap. apply is_lumpsum_header_row.
Qed.

Lemma restructured_row_tier (df : DataFrame) (r : row) :
  level_column ∈ columns df →
  r ∈ restructured_rows (columns df) (normalized_dates to_datetime df) →
  is_header r ∨ is_lumpsum r.
Proof.
  intros Hlevel. unfold restructured_rows.
  intros (r0 & -> & Hr0)%list_elem_of_fmap.
  rewrite (stable_sort_perm presort_key key_leb) in Hr0.
  rewrite merged_rows_normalized_dates, elem_of_app in Hr0.
  rewrite is_header_out_row, is_lumpsum_out_row by done.
  destruct Hr0 as [(k & -> & _)%list_elem_of_fmap|(r1 & -> & _)%list_elem_of_fmap].
  - left. apply lookup_header_row_level.
  - right. apply lookup_lumpsum_row_level.
Qed.

Lemma lookup_normalized_row_date (df : DataFrame) (r : row) (c : string) :
  c ∈ DATE_COLUMNS → c ∈ columns df →
  normalized_row to_datetime df r !! c =
  Some (normalized_cell to_datetime (column c df) (r !! c)).
Proof.
  unfold normalized_row, DATE_COLUMNS. rewrite !elem_of_cons.
  intros [->|[->|Hc]] Hin; [| |by apply elem_of_nil in Hc]; cbn [foldl].
  - rewrite (bool_decide_eq_true_2 _ Hin). case_bool_decide.
    + rewrite lookup_insert_ne
        by (intros H'; symmetry in H'; exact (date_columns_distinct H')).
      apply lookup_insert_eq.
    + apply lookup_insert_eq.
  - rewrite (bool_decide_eq_true_2 _ Hin). case_bool_decide.
    + rewrite lookup_insert_eq.
      by rewrite lookup_insert_ne by exact date_columns_distinct.
    + apply lookup_insert_eq.
Qed.

Lemma lookup_detail_out (df : DataFrame) (r : row) (c : string) :
  c ∈ columns df → c ≠ scratch_column →
  detail_out to_datetime df r !! c =
  if decide (c = rebate_column) then Some (rebate_key r)
  else if decide (c = level_column) then Some (Str "Lumpsum")
  else if decide (c ∈ DATE_COLUMNS)
       then Some (normalized_cell to_datetime (column c df) (r !! c))
       else r !! c.
Proof.
  intros Hc Hs. unfold detail_out. rewrite lookup_out_row.
  rewrite decide_True by done.
  destruct (decide (c = rebate_column)) as [->|Hr].
  { by rewrite rebate_key_lumpsum_row, rebate_key_normalized_row. }
  rewrite decide_False by done.
  destruct (decide (c = level_column)) as [->|Hl].
  { apply lookup_lumpsum_row_level. }
  rewrite lookup_lumpsum_row_ne by done.
  destruct (decide (c ∈ DATE_COLUMNS)) as [Hd|Hd].
  - by apply lookup_normalized_row_date.
  - by apply lookup_normalized_row_other.
Qed.

(** (X4) No input row is lost, duplicated or altered: in the table
    returned for a valid table every row is a Header row or a Lumpsum row,
    and the Lumpsum rows are, up to their order, the rows [detail_out] of
    the input rows, one for each.  Such a row has the cells of its input
    row in every column of the input but four: "Level" holds Lumpsum, the
    two date columns hold the normalized dates, and "Rebate Name" holds the
    key with the empty string for a missing one. *)
Theorem detail_rows_preserved (df : DataFrame) :
  valid_table df →
  ∀ out m, (process_dataframe to_datetime df).2 = Returned (out, m) →
    (∀ r, r ∈ rows out → is_header r ∨ is_lumpsum r) ∧
    filter is_lumpsum (rows out) ≡ₚ detail_out to_datetime df <$> rows df ∧
    ∀ r c, c ∈ columns df →
      detail_out to_datetime df r !! c =
      if decide (c = rebate_column) then Some (default (Str "") (r !! rebate_column))
      else if decide (c = level_column) then Some (Str "Lumpsum")
      else if decide (c ∈ DATE_COLUMNS)
           then Some (normalized_cell to_datetime (column c df) (r !! c))
           else r !! c.
Proof.
  intros Hvalid out m (_ & Hscratch & -> & _)%process_dataframe_returned_inv.
  pose proof (valid_table_level df Hvalid) as Hlevel. cbn [rows]. split_and!.
  - intros r Hr. by apply (restructured_row_tier df).
  - by apply returned_lumpsum_rows.
  - intros r c Hc. apply lookup_detail_out; [done|]. by intros ->.
Qed.

Lemma rebate_key_out_row (cols : list string) (r : row) :
  rebate_column ∈ cols → rebate_key (out_row cols r) = rebate_key r.
Proof.
  intros Hin. unfold rebate_key at 1. by rewrite lookup_out_row_rebate.
Qed.

Lemma elem_of_restructured_keys (df : DataFrame) (k : scalar) :
  rebate_column ∈ columns df →
  k ∈ rebate_key <$> restructured_rows (columns df) (normalized_dates to_datetime df) ↔
  k ∈ rebate_key <$> rows df.
Proof.
  intros Hrebate. unfold restructured_rows. rewrite <- list_fmap_compose.
  rewrite (stable_sort_perm presort_key key_leb).
  rewrite !list_elem_of_fmap. split.
  - intros (r & -> & Hr). simpl. rewrite rebate_key_out_row by done.
    pose proof (merged_rows_keys to_datetime df r Hr) as Hk.
    apply list_elem_of_bind in Hk as (k & Hk & Hin).
    apply elem_of_ascending_keys in Hin as (r0 & Hr0 & <-).
    exists r0. split; [|done]. unfold tier_keys, presort_key in Hk.
    rewrite !elem_of_cons in Hk.
    destruct Hk as [Hk|[Hk|Hk]]; [by simplify_eq..|by apply elem_of_nil in Hk].
  - intros (r0 & -> & Hr0).
    exists (lumpsum_row (normalized_row to_datetime df r0)). split.
    + simpl. rewrite rebate_key_out_row by done.
      by rewrite rebate_key_lumpsum_row, rebate_key_normalized_row.
    + rewrite merged_rows_normalized_dates, elem_of_app. right.
      apply list_elem_of_fmap. eexists. split; [done|].
      apply list_elem_of_fmap. by eexists.
Qed.

(** (X5) The engine is not idempotent.  The table returned for a valid
    table is a valid table again, and the engine may run on it, where the
    date parser returns on its date columns (they hold dates in the
    canonical form and empty strings): it then takes the Header rows for
    detail rows: all rows of the first result come back tagged Lumpsum, and
    one new Header row is added for each key.  So the second result has as
    many rows more as there are keys, and running the engine on a table
    with at least one row always returns a table with more rows. *)
Theorem running_again_regroups_headers (df : DataFrame) :
  valid_table df →
  ∀ out m, (process_dataframe to_datetime df).2 = Returned (out, m) →
    valid_table out ∧
    (rows df ≠ [] → len df < len out) ∧
    (dates_parse to_datetime out →
     ∃ out2 m2, (process_dataframe to_datetime out).2 = Returned (out2, m2) ∧
       length (filter is_lumpsum (rows out2)) = len out ∧
       length (filter is_header (rows out2)) = length (unique (rebate_key <$> rows df)) ∧
       len out2 = len out + length (unique (rebate_key <$> rows df))).
Proof.
  intros Hvalid out m (Hrebate & Hscratch & -> & _)%process_dataframe_returned_inv.
  set (out := {| columns := returned_columns (columns df);
                 rows := restructured_rows (columns df)
                           (normalized_dates to_datetime df) |}).
  assert (Hvalid' : valid_table out).
  { unfold valid_table, validate_columns. rewrite <- Hvalid.
    apply list_filter_iff. intros c. unfold out. cbn [columns].
    by rewrite elem_of_returned_columns. }
  assert (Hrebate' : rebate_column ∈ columns out).
  { unfold out. cbn [columns]. by apply elem_of_returned_columns. }
  assert (Hscratch' : scratch_column ∉ columns out).
  { unfold out. cbn [columns]. by rewrite elem_of_returned_columns. }
  assert (Hkeys : nunique (column rebate_column out) =
                  length (unique (rebate_key <$> rows df))).
  { unfold nunique, column.
    rewrite (list_fmap_ext _ (Some ∘ rebate_key) (rows out)).
    2: { intros i r Hr. apply list_elem_of_lookup_2 in Hr.
         unfold out in Hr. cbn [rows] in Hr. unfold restructured_rows in Hr.
         apply list_elem_of_fmap in Hr as (r0 & -> & _). simpl.
         rewrite lookup_out_row_rebate by done.
         by rewrite rebate_key_out_row. }
    rewrite list_fmap_compose, unique_fmap_inj, length_fmap by congruence.
    apply length_unique_same_elements. intros k.
    by apply elem_of_restructured_keys. }
  assert (Hlen : len out = nunique (column rebate_column df) + len df).
  { unfold len, out, restructured_rows, merged_rows. cbn [rows].
    rewrite length_fmap, (stable_sort_length presort_key key_leb).
    rewrite length_app, !length_fmap, length_group_keys.
    rewrite column_normalized_dates_other by apply rebate_not_date_column.
    fold (len (normalized_dates to_datetime df)). by rewrite len_normalized_dates. }
  split_and!.
  - done.
  - intros Hne. rewrite Hlen.
    assert (nunique (column rebate_column df) ≠ 0); [|lia].
    unfold nunique, column. intros Hz. apply length_zero_iff_nil in Hz.
    apply unique_nil_inv, fmap_nil_inv in Hz. done.
  - intros Hp. eexists _, _. split.
    { apply process_dataframe_returns; done. }
    cbn [rows]. split_and!.
    + rewrite returned_lumpsum_rows by (by apply valid_table_level).
      by rewrite length_fmap.
    + rewrite (returned_header_rows to_datetime out Hvalid').
      by rewrite length_fmap, length_group_keys.
    + unfold len at 1. cbn [rows]. unfold restructured_rows, merged_rows.
      rewrite length_fmap, (stable_sort_length presort_key key_leb).
      rewrite length_app, !length_fmap, length_group_keys.
      rewrite column_normalized_dates_other by apply rebate_not_date_column.
      fold (len (normalized_dates to_datetime out)). rewrite len_normalized_dates.
      rewrite Hkeys. lia.
Qed.

End detail_rows.

Lemma detail_rows_preserved_witness :
  valid_table sample_table ∧
  ∃ out m, (process_dataframe parse_mdY sample_table).2 = Returned (out, m) ∧
    length (filter is_lumpsum (rows out)) = 3.
Proof.
  assert (H1 : valid_table sample_table) by (vm_compute; reflexivity).
  assert (H2 : rebate_column ∈ columns sample_table) by (by apply (bool_decide_unpack _)).
  assert (H3 : scratch_column ∉ columns sample_table) by (by apply (bool_decide_unpack _)).
  split; [done|]. eexists _, _. split.
  { apply (process_dataframe_returns parse_mdY sample_table H2 H3 (dates_parse_mdY _)). }
  destruct (detail_rows_preserved parse_mdY sample_table H1 _ _
              (process_dataframe_returns parse_mdY sample_table H2 H3
                 (dates_parse_mdY _)))
    as (_ & Hperm & _).
  by rewrite Hperm.
Defined.

Lemma running_again_regroups_headers_witness :
  valid_table sample_table ∧
  ∃ out m out2 m2,
    (process_dataframe parse_mdY sample_table).2 = Returned (out, m) ∧
    (process_dataframe parse_mdY out).2 = Returned (out2, m2) ∧
    len out = 5 ∧ len out2 = 7.
Proof.
  assert (H1 : valid_table sample_table) by (vm_compute; reflexivity).
  assert (H2 : rebate_column ∈ columns sample_table) by (by apply (bool_decide_unpack _)).
  assert (H3 : scratch_column ∉ columns sample_table) by (by apply (bool_decide_unpack _)).
  split; [done|].
  pose proof (process_dataframe_returns parse_mdY sample_table H2 H3
                (dates_parse_mdY _)) as Hrun.
  destruct (running_again_regroups_headers parse_mdY sample_table H1 _ _ Hrun)
    as (_ & _ & Hagain).
  destruct (Hagain (dates_parse_mdY _)) as (out2 & m2 & Hrun2 & _ & _ & Hlen2).
  eexists _, _, out2, m2. split_and!; [exact Hrun|exact Hrun2| |].
  - vm_compute. reflexivity.
  - rewrite Hlen2. vm_compute. reflexivity.
Defined.

(** * File names *)

Section filenames.

Variable alnum : N → bool.

Lemma kept_hex_digit (n : N) : kept alnum (hex_digit n) = true.
Proof.
  unfold hex_digit. pose proof (N.mod_upper_bound n 16 ltac:(done)) as Hlt.
  destruct (n mod 16)%N as [|p] eqn:E; [done|].
  do 5 (try destruct p as [p|p|]); try done; lia.
Qed.

Lemma Forall_kept_hex8 (w : N) : Forall (λ ch, kept alnum ch = true) (hex8 w).
Proof. unfold hex8. cbn [fmap list_fmap]. repeat constructor; apply kept_hex_digit. Qed.

Lemma Forall_kept_fallback (w : N) :
  Forall (λ ch, kept alnum ch = true) (lit "upload-" ++ hex8 w ++ lit ".csv").
Proof.
  rewrite !Forall_app. split_and!.
  - by repeat constructor.
  - apply Forall_kept_hex8.
  - by repeat constructor.
Qed.

Lemma Forall_kept_sanitize_filename (uuid : N) (name : list N) :
  Forall (λ ch, kept alnum ch = true) (sanitize_filename alnum uuid name).
Proof.
  unfold sanitize_filename.
  destruct (filter (λ ch, kept alnum ch = true) name) as [|ch s] eqn:E.
  - apply Forall_kept_fallback.
  - rewrite <- E. apply Forall_forall. intros c Hc.
    by apply list_elem_of_filter in Hc as [Hc _].
Qed.

Lemma sanitize_filename_nonempty (uuid : N) (name : list N) :
  sanitize_filename alnum uuid name ≠ [].
Proof.
  unfold sanitize_filename.
  by destruct (filter (λ ch, kept alnum ch = true) name).
Qed.

Lemma sanitize_filename_fixed (uuid : N) (s : list N) :
  Forall (λ ch, kept alnum ch = true) s → s ≠ [] → sanitize_filename alnum uuid s = s.
Proof.
  intros Hs Hne. unfold sanitize_filename.
  rewrite filter_all by (by apply Forall_forall). by destruct s.
Qed.

(** (X6) [sanitize_filename] returns a name that is never empty and holds
    only letters, digits, "-", "_" and ".": no "/", no backslash, no NUL.
    When the given name has such a character the result is the given name
    without the others, in order.  The function is idempotent: a name it
    returned is returned as it is, and no UUID matters then. *)
Theorem sanitize_filename_safe (uuid : N) (name : list N) :
  let safe := sanitize_filename alnum uuid name in
  safe ≠ [] ∧
  Forall (λ ch, kept alnum ch = true) safe ∧
  (∀ ch, ch ∈ lit "/" ++ lit "\" ++ [0%N] → ch ∉ safe) ∧
  (filter (λ ch, kept alnum ch = true) name ≠ [] →
   safe = filter (λ ch, kept alnum ch = true) name ∧ safe `sublist_of` name) ∧
  (∀ uuid', sanitize_filename alnum uuid' safe = safe).
Proof.
  intros safe. pose proof (Forall_kept_sanitize_filename uuid name) as Hkept.
  pose proof (sanitize_filename_nonempty uuid name) as Hne.
  split_and!; [done|done| | |].
  - intros ch Hch Hin. rewrite Forall_forall in Hkept. specialize (Hkept ch Hin).
    unfold lit in Hch. cbn in Hch. rewrite !elem_of_cons in Hch.
    destruct Hch as [->|[->|[->|Hch]]]; [done..|by apply elem_of_nil in Hch].
  - intros Hsome. unfold safe, sanitize_filename.
    destruct (filter (λ ch, kept alnum ch = true) name) as [|ch s] eqn:E; [done|].
    split; [done|]. rewrite <- E. apply sublist_filter.
  - intros uuid'. by apply sanitize_filename_fixed.
Qed.

(** (X7) A name without any letter, digit, "-", "_" or "." is replaced by
    "upload-", eight hexadecimal digits of a fresh UUID and ".csv"; this
    name passes the test of line 138, whatever the name given was. *)
Theorem fallback_name_is_csv (lower_unicode : list N → list N) (uuid : N)
    (name : list N) :
  filter (λ ch, kept alnum ch = true) name = [] →
  sanitize_filename alnum uuid name = lit "upload-" ++ hex8 uuid ++ lit ".csv" ∧
  length (sanitize_filename alnum uuid name) = 19 ∧
  endswith (lower lower_unicode (sanitize_filename alnum uuid name)) (lit ".csv") = true.
Proof.
  intros Hnone. unfold sanitize_filename. rewrite Hnone. split_and!; [done|done|].
  assert (Hhex : ∀ n, (hex_digit n <? 128)%N = true ∧
                      ((65 <=? hex_digit n) && (hex_digit n <=? 90))%N = false).
  { intros n. unfold hex_digit.
    pose proof (N.mod_upper_bound n 16 ltac:(done)) as Hlt.
    destruct (n mod 16)%N as [|p] eqn:E; [done|].
    do 5 (try destruct p as [p|p|]); try done; lia. }
  unfold lower, hex8. cbn [fmap list_fmap app lit String.list_ascii_of_string forallb].
  cbn.
  repeat (rewrite (proj1 (Hhex _)) || rewrite (proj2 (Hhex _))). cbn.
  unfold endswith. apply bool_decide_eq_true_2.
  eexists (_ :: _ :: _ :: _ :: _ :: _ :: _ :: _ :: _ :: _ :: _ :: _ :: _ :: _ :: [_]).
  reflexivity.
Qed.

End filenames.

Lemma fallback_name_is_csv_witness :
  filter (λ ch, kept (λ _, false) ch = true) (lit " /?*/ ") = [] ∧
  sanitize_filename (λ _, false) 3735928559 (lit " /?*/ ") = lit "upload-deadbeef.csv".
Proof.
  assert (H : filter (λ ch, kept (λ _, false) ch = true) (lit " /?*/ ") = [])
    by (vm_compute; reflexivity).
  split; [done|].
  destruct (fallback_name_is_csv (λ _, false) (λ s, s) 3735928559 (lit " /?*/ ") H)
    as (-> & _).
  vm_compute. reflexivity.
Defined.

(** * The HTTP handlers *)

Section handler_facts.

Context {float : Type} (env : Env float).

(** What an upload that goes through has met on its way. *)
Lemma process_upload_inr (i : nat) (upload : UploadFile) (w w' : World)
    (r : FileResult float) :
  process_upload env i upload w = (w', inr r) →
  ∃ df out m,
    endswith (lower (lower_unicode env) (safe_name_of env i upload)) (lit ".csv") = true ∧
    content upload ≠ [] ∧
    read_csv env i (content upload) = inr df ∧
    validate_columns df = [] ∧
    (process_dataframe (env_to_datetime env) df).2 = Returned (out, m) ∧
    r = {| input_file := safe_name_of env i upload;
           output_file := lit "processed-" ++ hex8 (uuid4_prefix env i) ++ lit "-" ++
                          safe_name_of env i upload;
           download_url := lit "/api/download/" ++ lit "processed-" ++
                           hex8 (uuid4_prefix env i) ++ lit "-" ++ safe_name_of env i upload;
           size_bytes := length (content upload);
           elapsed_ms := elapsed env i;
           result_metrics := m |} ∧
    upload_dir w' =
      <[hex8 (uuid4_prefix env i) ++ lit "-" ++ safe_name_of env i upload := content upload]>
        (upload_dir w) ∧
    output_dir w' =
      <[lit "processed-" ++ hex8 (uuid4_prefix env i) ++ lit "-" ++ safe_name_of env i upload
        := out]> (output_dir w).
Proof.
  unfold process_upload. cbv zeta. fold (safe_name_of env i upload).
  destruct (negb (endswith _ _)) eqn:Hcsv; [by intros [=]|].
  apply negb_false_iff in Hcsv.
  destruct (content upload) as [|b l] eqn:Hcontent; [by intros [=]|].
  destruct (write_bytes_error env i) eqn:Hwrite; [by intros [=]|].
  destruct (read_csv env i (b :: l)) as [exc|df] eqn:Hread; [by intros [=]|].
  destruct (validate_columns df) eqn:Hvalid; [|by intros [=]].
  destruct ((process_dataframe (env_to_datetime env) df).2) as [[out m]|exc] eqn:Hrun;
    [|by intros [=]].
  destruct (to_csv_error env i) eqn:Hout; [by intros [=]|].
  intros [= <- <-]. exists df, out, m. split_and!; done.
Qed.

(** What an upload that is refused has raised. *)
Lemma process_upload_inl (i : nat) (upload : UploadFile) (w w' : World) (e : raised) :
  process_upload env i upload w = (w', inl e) →
  output_dir w' = output_dir w ∧
  ((∃ msg, e = OSError msg ∧ write_bytes_error env i = Some msg) ∨
   (∃ text, e = Http {| status_code := 400; http_detail := Text text |}) ∨
   (∃ df, read_csv env i (content upload) = inr df ∧ validate_columns df ≠ [] ∧
          is_Some (upload_dir w' !! (hex8 (uuid4_prefix env i) ++ lit "-" ++
                                     safe_name_of env i upload)) ∧
          e = Http {| status_code := 422;
                      http_detail := MissingColumns (safe_name_of env i upload)
                                       (lit "Missing required columns.")
                                       (validate_columns df) |}) ∨
   (∃ df exc, read_csv env i (content upload) = inr df ∧ validate_columns df = [] ∧
          (process_dataframe (env_to_datetime env) df).2 = Raised exc ∧
          e = Http {| status_code := 500;
                      http_detail := Text (lit "Failed to process " ++
                                           safe_name_of env i upload ++ lit ": " ++
                                           str_exn env exc) |}) ∨
   (∃ msg, to_csv_error env i = Some msg ∧
          e = Http {| status_code := 500;
                      http_detail := Text (lit "Could not write output for " ++
                                           safe_name_of env i upload ++ lit ": " ++ msg) |})).
Proof.
  unfold process_upload. cbv zeta. fold (safe_name_of env i upload).
  destruct (negb (endswith _ _)) eqn:Hcsv.
  { intros [= <- <-]. split; [done|]. right. left. by eexists. }
  destruct (content upload) as [|b l] eqn:Hcontent.
  { intros [= <- <-]. split; [done|]. right. left. by eexists. }
  destruct (write_bytes_error env i) eqn:Hwrite.
  { intros [= <- <-]. split; [done|]. left. by eexists. }
  destruct (read_csv env i (b :: l)) as [exc|df] eqn:Hread.
  { intros [= <- <-]. split; [done|]. right. left. by eexists. }
  destruct (validate_columns df) eqn:Hvalid.
  - destruct ((process_dataframe (env_to_datetime env) df).2) as [[out m]|exc] eqn:Hrun.
    + destruct (to_csv_error env i) eqn:Hout; [|by intros [=]].
      intros [= <- <-]. split; [done|]. do 4 right. by eexists.
    + intros [= <- <-]. split; [done|]. do 3 right. left. by exists df, exc.
  - intros [= <- <-]. split; [done|]. do 2 right. left. exists df.
    rewrite Hvalid. split_and!; try done.
    cbn [upload_dir]. rewrite lookup_insert_eq. by eexists.
Qed.

(** The loop when every upload goes through: one entry for each upload, in
    the order of the uploads, and the output directory only grows. *)
Lemma process_uploads_inr (files : list UploadFile) (i : nat) (w w' : World)
    (acc rs : list (FileResult float)) :
  process_uploads env i files w acc = (w', inr rs) →
  ∃ new, rs = acc ++ new ∧ length new = length files ∧
    (∀ name, is_Some (output_dir w !! name) → is_Some (output_dir w' !! name)) ∧
    ∀ j r, new !! j = Some r →
      is_Some (output_dir w' !! output_file r) ∧
      ∃ upload w1 w2, files !! j = Some upload ∧
        process_upload env (i + j) upload w1 = (w2, inr r).
Proof.
  revert i w acc. induction files as [|upload files IH]; intros i w acc; simpl.
  - intros [= <- <-]. exists []. rewrite app_nil_r. split_and!; try done.
  - destruct (process_upload env i upload w) as [w1 [e|r]] eqn:Hup; [by intros [=]|].
    intros Hrest. apply IH in Hrest as (new & -> & Hlen & Hmono & Hall).
    destruct (process_upload_inr _ _ _ _ _ Hup)
      as (df & out & m & _ & _ & _ & _ & _ & Hr & _ & Hout).
    exists (r :: new). split; [by rewrite <- app_assoc|]. split; [simpl; lia|].
    split.
    + intros name Hname. apply Hmono. rewrite Hout. apply lookup_insert_is_Some'. by right.
    + intros [|j] r' Hj; simpl in Hj.
      * injection Hj as <-. split.
        -- apply Hmono. rewrite Hout, Hr. cbn [output_file].
           rewrite lookup_insert_eq. by eexists.
        -- exists upload, w, w1. by rewrite Nat.add_0_r.
      * apply Hall in Hj as (Hfile & upload' & w2 & w3 & Hlook & Hup').
        split; [done|]. exists upload', w2, w3. split; [done|].
        by replace (i + S j) with (S i + j) by lia.
Qed.

(** The loop over a batch is the loop over its first part, then, when that
    went through, the loop over the rest. *)
Lemma process_uploads_app (files more : list UploadFile) (i : nat) (w : World)
    (acc : list (FileResult float)) :
  process_uploads env i (files ++ more) w acc =
  match process_uploads env i files w acc with
  | (w', inl e) => (w', inl e)
  | (w', inr rs) => process_uploads env (i + length files) more w' rs
  end.
Proof.
  revert i w acc. induction files as [|upload files IH]; intros i w acc; simpl.
  - by rewrite Nat.add_0_r.
  - destruct (process_upload env i upload w) as [w1 [e|r]]; [done|].
    rewrite IH. by replace (S i + length files) with (i + S (length files)) by lia.
Qed.

(** The upload that made the loop fail. *)
Lemma process_uploads_inl (files : list UploadFile) (i : nat) (w w' : World)
    (acc : list (FileResult float)) (e : raised) :
  process_uploads env i files w acc = (w', inl e) →
  ∃ j upload w1, files !! j = Some upload ∧
    process_upload env (i + j) upload w1 = (w', inl e).
Proof.
  revert i w acc. induction files as [|upload files IH]; intros i w acc; simpl.
  - by intros [=].
  - destruct (process_upload env i upload w) as [w1 [e'|r]] eqn:Hup.
    + intros [= <- <-]. exists 0, upload, w. by rewrite Nat.add_0_r.
    + intros Hrest. apply IH in Hrest as (j & upload' & w2 & Hlook & Hup').
      exists (S j), upload', w2. split; [done|].
      by replace (i + S j) with (S i + j) by lia.
Qed.

Lemma sum_of_add (f g h : Metrics → nat) (rs : list (FileResult float)) :
  (∀ r, r ∈ rs → f (result_metrics r) = g (result_metrics r) + h (result_metrics r)) →
  sum_of f rs = sum_of g rs + sum_of h rs.
Proof.
  unfold sum_of. induction rs as [|r rs IH]; intros Hall; [done|]. csimpl.
  rewrite (Hall r) by (apply elem_of_cons; by left).
  rewrite IH by (intros r' Hr'; apply Hall; apply elem_of_cons; by right). lia.
Qed.

Lemma sum_of_ext (f g : Metrics → nat) (rs : list (FileResult float)) :
  (∀ r, r ∈ rs → f (result_metrics r) = g (result_metrics r)) →
  sum_of f rs = sum_of g rs.
Proof.
  unfold sum_of. induction rs as [|r rs IH]; intros Hall; [done|]. csimpl.
  rewrite (Hall r) by (apply elem_of_cons; by left).
  by rewrite IH by (intros r' Hr'; apply Hall; apply elem_of_cons; by right).
Qed.

(** A response of [process_files], taken apart. *)
Lemma process_files_inr (files : list UploadFile) (w w' : World) (resp : Response float) :
  process_files env files w = (w', inr resp) →
  files ≠ [] ∧
  process_uploads env 0 files w [] = (w', inr (results resp)) ∧
  totals resp = {| files_processed := length (results resp);
                   total_headers := sum_of header_count (results resp);
                   total_lumpsum := sum_of lumpsum_count (results resp);
                   total_output_rows := sum_of output_rows (results resp) |}.
Proof.
  unfold process_files. destruct files as [|upload files]; [by intros [=]|].
  destruct (process_uploads env 0 (upload :: files) w []) as [w1 [e|rs]]; [by intros [=]|].
  by intros [= <- <-].
Qed.

(** The output name of an upload is a name that [sanitize_filename] leaves
    as it is. *)
Lemma Forall_kept_output_name (i : nat) (upload : UploadFile) :
  Forall (λ ch, kept (isalnum_nonascii env) ch = true)
    (lit "processed-" ++ hex8 (uuid4_prefix env i) ++ lit "-" ++ safe_name_of env i upload).
Proof.
  rewrite !Forall_app. split_and!.
  - by repeat constructor.
  - apply Forall_kept_hex8.
  - by repeat constructor.
  - apply Forall_kept_sanitize_filename.
Qed.

(** (X8) A response of [process_files] has one entry for each upload, in
    the order of the uploads.  The entry of an upload names the sanitized
    upload name, the output file "processed-", eight hexadecimal digits,
    "-" and that name, the download URL of that file, and the number of
    bytes of the upload, which is not zero; its metrics are the ones
    [process_dataframe] returned for the table read from the upload, which
    passed the validator.  The totals count the uploads and add up the
    entries: [total_lumpsum] is the number of rows of all the tables read,
    [total_headers] the number of their groups, [total_output_rows] the sum
    of the two. *)
Theorem process_files_response (files : list UploadFile) (w w' : World)
    (resp : Response float) :
  process_files env files w = (w', inr resp) →
  length (results resp) = length files ∧
  files_processed (totals resp) = length files ∧
  total_headers (totals resp) = sum_of distinct_rebates (results resp) ∧
  total_lumpsum (totals resp) = sum_of input_rows (results resp) ∧
  total_output_rows (totals resp) =
    total_headers (totals resp) + total_lumpsum (totals resp) ∧
  ∀ j r, results resp !! j = Some r →
    ∃ upload df out,
      files !! j = Some upload ∧
      input_file r = safe_name_of env j upload ∧
      output_file r =
        lit "processed-" ++ hex8 (uuid4_prefix env j) ++ lit "-" ++ input_file r ∧
      download_url r = lit "/api/download/" ++ output_file r ∧
      size_bytes r = length (content upload) ∧ 0 < size_bytes r ∧
      read_csv env j (content upload) = inr df ∧ valid_table df ∧
      (process_dataframe (env_to_datetime env) df).2 = Returned (out, result_metrics r).
Proof.
  intros Hrun. apply process_files_inr in Hrun as (_ & Hloop & Htotals).
  apply process_uploads_inr in Hloop as (new & Hnew & Hlen & _ & Hall).
  rewrite app_nil_l in Hnew. subst new. rewrite Htotals. cbn [files_processed
    total_headers total_lumpsum total_output_rows].
  assert (Hentry : ∀ j r, results resp !! j = Some r →
    ∃ upload df out,
      files !! j = Some upload ∧
      input_file r = safe_name_of env j upload ∧
      output_file r =
        lit "processed-" ++ hex8 (uuid4_prefix env j) ++ lit "-" ++ input_file r ∧
      download_url r = lit "/api/download/" ++ output_file r ∧
      size_bytes r = length (content upload) ∧ 0 < size_bytes r ∧
      read_csv env j (content upload) = inr df ∧ valid_table df ∧
      (process_dataframe (env_to_datetime env) df).2 = Returned (out, result_metrics r)).
  { intros j r Hj. apply Hall in Hj as (_ & upload & w1 & w2 & Hlook & Hup).
    apply process_upload_inr in Hup
      as (df & out & m & _ & Hcontent & Hread & Hvalid & Hdf & -> & _ & _).
    exists upload, df, out. cbn [input_file output_file download_url size_bytes
      result_metrics]. split_and!; try done.
    destruct (content upload); [done|simpl; lia]. }
  assert (Hmetrics : ∀ r, r ∈ results resp →
    header_count (result_metrics r) = distinct_rebates (result_metrics r) ∧
    lumpsum_count (result_metrics r) = input_rows (result_metrics r) ∧
    output_rows (result_metrics r) =
      header_count (result_metrics r) + lumpsum_count (result_metrics r)).
  { intros r Hr. apply list_elem_of_lookup_1 in Hr as (j & Hj).
    apply Hentry in Hj as (upload & df & out & _ & _ & _ & _ & _ & _ & _ & _ & Hdf).
    apply process_dataframe_returned_inv in Hdf as (_ & _ & _ & Hm & _).
    by rewrite Hm. }
  split_and!; try done.
  - apply sum_of_ext. intros r Hr. by apply Hmetrics.
  - apply sum_of_ext. intros r Hr. by apply Hmetrics.
  - apply sum_of_add. intros r Hr. by apply Hmetrics.
Qed.

(** (X9) An upload that is refused ends the batch: when the uploads before
    it went through and it raises, [process_files] raises the same error
    whatever follows it, no upload after it is looked at, and no entry of
    the uploads before it is returned.  The output files of those uploads
    are written all the same and stay in the output directory. *)
Theorem refused_upload_ends_batch (good more : list UploadFile) (bad : UploadFile)
    (w w1 w2 : World) (rs : list (FileResult float)) (e : raised) :
  process_uploads env 0 good w [] = (w1, inr rs) →
  process_upload env (length good) bad w1 = (w2, inl e) →
  process_files env (good ++ bad :: more) w = (w2, inl e) ∧
  length rs = length good ∧
  ∀ r, r ∈ rs → is_Some (output_dir w2 !! output_file r).
Proof.
  intros Hgood Hbad.
  assert (Hloop : process_uploads env 0 (good ++ bad :: more) w [] = (w2, inl e)).
  { rewrite process_uploads_app, Hgood. simpl. by rewrite Hbad. }
  apply process_upload_inl in Hbad as (Hout & _).
  apply process_uploads_inr in Hgood as (new & Hnew & Hlen & _ & Hall).
  rewrite app_nil_l in Hnew. subst new.
  split_and!; try done.
  - unfold process_files. rewrite Hloop. by destruct good.
  - intros r Hr. apply list_elem_of_lookup_1 in Hr as (j & Hj).
    rewrite Hout. by apply Hall in Hj as (? & _).
Qed.

(** (X10) Every output file that a response of [process_files] names can
    be downloaded afterwards: [download] of the [output_file] of an entry
    returns that file, as "text/csv" and under the same name, whatever else
    the same batch wrote. *)
Theorem processed_files_can_be_downloaded (files : list UploadFile) (w w' : World)
    (resp : Response float) (uuid : N) (r : FileResult float) :
  process_files env files w = (w', inr resp) →
  r ∈ results resp →
  is_Some (output_dir w' !! output_file r) ∧
  download env uuid w' (output_file r) =
    inr {| path := output_file r; media_type := lit "text/csv";
           response_filename := output_file r |}.
Proof.
  intros Hrun Hr. apply process_files_inr in Hrun as (_ & Hloop & _).
  apply process_uploads_inr in Hloop as (new & Hnew & _ & _ & Hall).
  rewrite app_nil_l in Hnew. subst new.
  apply list_elem_of_lookup_1 in Hr as (j & Hj).
  apply Hall in Hj as (Hfile & upload & w1 & w2 & _ & Hup). split; [done|].
  apply process_upload_inr in Hup as (df & out & m & _ & _ & _ & _ & _ & Hr & _ & _).
  unfold download. cbv zeta.
  assert (Hname : sanitize_filename (isalnum_nonascii env) uuid (output_file r) =
                  output_file r).
  { apply sanitize_filename_fixed.
    - rewrite Hr. cbn [output_file]. apply Forall_kept_output_name.
    - rewrite Hr. by cbn [output_file]. }
  rewrite Hname. unfold path_exists.
  by rewrite (bool_decide_eq_true_2 (is_Some _)), orb_true_r.
Qed.

(** (X11) The errors of [process_files].  An [HTTPException] that it raises
    has status 400, 422 or 500.  Status 422 is raised for an upload whose
    table lacks required columns, and only then: the detail names the
    sanitized upload name and exactly the required columns that the table
    read from the upload lacks, in the order of [REQUIRED_COLUMNS].  Status
    500 is raised when the output could not be written, or for an upload
    whose table passed the validator and made [process_dataframe] raise:
    the detail then carries the text of what the date parser raised on a
    date column of the table, or of the [KeyError] of line 111 for a table
    with a column named "_level_sort". *)
Theorem process_files_errors (files : list UploadFile) (w w' : World) (e : HTTPException) :
  process_files env files w = (w', inl (Http e)) →
  (status_code e = 400 ∧ ∃ text, http_detail e = Text text) ∨
  (status_code e = 422 ∧
   ∃ j upload df, files !! j = Some upload ∧
     read_csv env j (content upload) = inr df ∧
     http_detail e = MissingColumns (safe_name_of env j upload)
                       (lit "Missing required columns.")
                       (filter (λ c, c ∉ columns df) REQUIRED_COLUMNS) ∧
     filter (λ c, c ∉ columns df) REQUIRED_COLUMNS ≠ []) ∨
  (status_code e = 500 ∧
   ∃ j upload, files !! j = Some upload ∧
     ((∃ df exc, read_csv env j (content upload) = inr df ∧ valid_table df ∧
         http_detail e = Text (lit "Failed to process " ++ safe_name_of env j upload ++
                               lit ": " ++ str_exn env exc) ∧
         ((∃ col, col ∈ DATE_COLUMNS ∧
                  to_datetime_coerce (env_to_datetime env) (column col df) = Raised exc) ∨
          (dates_parse (env_to_datetime env) df ∧ scratch_column ∈ columns df ∧
           exc = KeyError_not_in_index [scratch_column]))) ∨
      (∃ msg, to_csv_error env j = Some msg ∧
              http_detail e = Text (lit "Could not write output for " ++
                                    safe_name_of env j upload ++ lit ": " ++ msg)))).
Proof.
  unfold process_files. destruct files as [|upload0 files0] eqn:Hfiles.
  { intros [= <- <-]. left. split; [done|]. by eexists. }
  rewrite <- Hfiles. clear Hfiles.
  destruct (process_uploads env 0 files w []) as [w1 [e'|rs]] eqn:Hloop; [|by intros [=]].
  intros [= -> ->].
  apply process_uploads_inl in Hloop as (j & upload & w2 & Hlook & Hup).
  rewrite Nat.add_0_l in Hup.
  apply process_upload_inl in Hup
    as (_ & [(msg & [=] & _)|[(text & [= ->])|[(df & Hread & Hne & _ & [= ->])|
             [(df & exc & Hread & Hvalid & Hdf & [= ->])|(msg & Hcsv & [= ->])]]]]).
  - left. split; [done|]. by eexists.
  - right. left. split; [done|]. exists j, upload, df. by split_and!.
  - right. right. split; [done|]. exists j, upload. split; [done|]. left. exists df, exc.
    split_and!; [done..|].
    apply process_dataframe_raised_inv in Hdf
      as [(col & Hcol & _ & He)|[(_ & Hn & _)|(Hp & _ & Hs & ->)]].
    + left. by exists col.
    + destruct Hn. by apply valid_table_rebate.
    + by right.
  - right. right. split; [done|]. exists j, upload. split; [done|]. right. by exists msg.
Qed.

(** What the upload at position 0 is answered when [process_dataframe]
    raises on its table. *)
Lemma process_upload_engine_raises (upload : UploadFile) (w : World) (df : DataFrame)
    (exc : exn) :
  endswith (lower (lower_unicode env) (safe_name_of env 0 upload)) (lit ".csv") = true →
  content upload ≠ [] →
  write_bytes_error env 0 = None →
  read_csv env 0 (content upload) = inr df →
  valid_table df →
  (process_dataframe (env_to_datetime env) df).2 = Raised exc →
  ∃ w1, output_dir w1 = output_dir w ∧
    process_upload env 0 upload w =
      (w1, inl (Http {| status_code := 500;
                 http_detail := Text (lit "Failed to process " ++ safe_name_of env 0 upload ++
                                      lit ": " ++ str_exn env exc) |})).
Proof.
  intros Hcsv Hcontent Hwrite Hread Hvalid Hrun.
  unfold process_upload. cbv zeta. fold (safe_name_of env 0 upload).
  rewrite Hcsv. cbn [negb]. destruct (content upload) as [|b l] eqn:Hc; [done|].
  rewrite Hwrite, Hread, Hvalid, Hrun.
  eexists. split; [|reflexivity]. done.
Qed.

(** (X12) A CSV upload whose table passes the validator and has a column
    named "_level_sort", and on whose date columns the parser returns, is
    answered with status 500, "Failed to process" and the text of the
    [KeyError] of line 111 (that "_level_sort" is not in the index), and no
    output file is written for it. *)
Theorem scratch_column_upload_fails (upload : UploadFile) (more : list UploadFile)
    (w : World) (df : DataFrame) :
  endswith (lower (lower_unicode env) (safe_name_of env 0 upload)) (lit ".csv") = true →
  content upload ≠ [] →
  write_bytes_error env 0 = None →
  read_csv env 0 (content upload) = inr df →
  valid_table df →
  scratch_column ∈ columns df →
  dates_parse (env_to_datetime env) df →
  (process_files env (upload :: more) w).2 =
    inl (Http {| status_code := 500;
                 http_detail :=
                   Text (lit "Failed to process " ++ safe_name_of env 0 upload ++
                         lit ": " ++
                         str_exn env (KeyError_not_in_index [scratch_column])) |}) ∧
  output_dir (process_files env (upload :: more) w).1 = output_dir w.
Proof.
  intros Hcsv Hcontent Hwrite Hread Hvalid Hscratch Hp.
  destruct (process_upload_engine_raises upload w df
              (KeyError_not_in_index [scratch_column]) Hcsv Hcontent Hwrite Hread Hvalid)
    as (w1 & Hout & Hup).
  { apply process_dataframe_scratch_collision; [by apply valid_table_rebate|done|done]. }
  unfold process_files, process_uploads. by rewrite Hup.
Qed.

(** (X15) An exception of the date parser is answered as a request-level
    error.  A CSV upload whose table passes the validator and has a date
    column on which the parser raises is answered with status 500, "Failed
    to process" and the text of an exception that the parser raised on a
    date column of the table; no output file is written for it. *)
Theorem date_parser_error_upload_fails (upload : UploadFile) (more : list UploadFile)
    (w : World) (df : DataFrame) (col : string) (e : exn) :
  endswith (lower (lower_unicode env) (safe_name_of env 0 upload)) (lit ".csv") = true →
  content upload ≠ [] →
  write_bytes_error env 0 = None →
  read_csv env 0 (content upload) = inr df →
  valid_table df →
  col ∈ DATE_COLUMNS →
  to_datetime_coerce (env_to_datetime env) (column col df) = Raised e →
  ∃ col' exc,
    col' ∈ DATE_COLUMNS ∧
    to_datetime_coerce (env_to_datetime env) (column col' df) = Raised exc ∧
    (process_files env (upload :: more) w).2 =
      inl (Http {| status_code := 500;
                   http_detail :=
                     Text (lit "Failed to process " ++ safe_name_of env 0 upload ++
                           lit ": " ++ str_exn env exc) |}) ∧
    output_dir (process_files env (upload :: more) w).1 = output_dir w.
Proof.
  intros Hcsv Hcontent Hwrite Hread Hvalid Hcol He.
  assert (Hin : col ∈ columns df).
  { apply valid_table_columns; [done|].
    unfold DATE_COLUMNS, REQUIRED_COLUMNS in *. rewrite !elem_of_cons in *. tauto. }
  destruct (normalize_dates_cases (env_to_datetime env) df)
    as [[Hp _]|(col' & exc & df' & Hcol' & _ & He' & _ & Hraise)].
  { destruct (Hp col Hcol Hin) as [ps Hps]. by rewrite He in Hps. }
  exists col', exc. split; [done|]. split; [done|].
  destruct (process_upload_engine_raises upload w df exc
              Hcsv Hcontent Hwrite Hread Hvalid)
    as (w1 & Hout & Hup).
  { by rewrite (process_dataframe_parser_raises _ df df' exc Hraise). }
  unfold process_files, process_uploads. by rewrite Hup.
Qed.

(** (X13) What [download] serves.  A response carries a name that holds
    only letters, digits, "-", "_" and ".", so no path separator, and that
    is "." or ".." or the name of a file of the output directory; it is the
    sanitized form of the requested name.  Every other request is answered
    with status 404. *)
Theorem download_serves_output_directory (uuid : N) (w : World) (name : list N) :
  match download env uuid w name with
  | inr response =>
      path response = sanitize_filename (isalnum_nonascii env) uuid name ∧
      response_filename response = path response ∧
      media_type response = lit "text/csv" ∧
      Forall (λ ch, kept (isalnum_nonascii env) ch = true) (path response) ∧
      (path response = lit "." ∨ path response = lit ".." ∨
       is_Some (output_dir w !! path response))
  | inl e =>
      e = {| status_code := 404; http_detail := Text (lit "File not found") |} ∧
      output_dir w !! sanitize_filename (isalnum_nonascii env) uuid name = None
  end.
Proof.
  unfold download. cbv zeta.
  destruct (path_exists w _) eqn:Hexists; cbn [path response_filename media_type].
  - split_and!; try done; [apply Forall_kept_sanitize_filename|].
    unfold path_exists in Hexists. apply orb_true_iff in Hexists as [H|H].
    + apply bool_decide_eq_true in H. tauto.
    + apply bool_decide_eq_true in H. tauto.
  - split; [done|]. unfold path_exists in Hexists.
    apply orb_false_iff in Hexists as [_ H]. apply bool_decide_eq_false in H.
    by apply eq_None_not_Some.
Qed.

(** The files that one upload writes. *)
Lemma process_upload_writes (i : nat) (upload : UploadFile) (w : World) :
  (upload_dir (process_upload env i upload w).1 = upload_dir w ∨
   upload_dir (process_upload env i upload w).1 =
     <[hex8 (uuid4_prefix env i) ++ lit "-" ++ safe_name_of env i upload := content upload]>
       (upload_dir w)) ∧
  (output_dir (process_upload env i upload w).1 = output_dir w ∨
   ∃ out, output_dir (process_upload env i upload w).1 =
     <[lit "processed-" ++ hex8 (uuid4_prefix env i) ++ lit "-" ++ safe_name_of env i upload
       := out]> (output_dir w)).
Proof.
  unfold process_upload. cbv zeta. fold (safe_name_of env i upload).
  destruct (negb (endswith _ _)); [by split; left|].
  destruct (content upload) as [|b l]; [by split; left|].
  destruct (write_bytes_error env i); [by split; left|].
  destruct (read_csv env i (b :: l)) as [exc|df]; [by split; [right|left]|].
  destruct (validate_columns df); [|by split; [right|left]].
  destruct ((process_dataframe (env_to_datetime env) df).2) as [[out m]|exc];
    [|by split; [right|left]].
  destruct (to_csv_error env i); [by split; [right|left]|].
  split; right; [done|by exists out].
Qed.

Lemma process_uploads_writes (files : list UploadFile) (i : nat) (w : World)
    (acc : list (FileResult float)) :
  (∀ name, is_Some (upload_dir w !! name) →
           is_Some (upload_dir (process_uploads env i files w acc).1 !! name)) ∧
  (∀ name, is_Some (output_dir w !! name) →
           is_Some (output_dir (process_uploads env i files w acc).1 !! name)) ∧
  (∀ name, is_Some (upload_dir (process_uploads env i files w acc).1 !! name) →
           is_Some (upload_dir w !! name) ∨
           ∃ j upload, files !! j = Some upload ∧
             name = hex8 (uuid4_prefix env (i + j)) ++ lit "-" ++
                    safe_name_of env (i + j) upload) ∧
  (∀ name, is_Some (output_dir (process_uploads env i files w acc).1 !! name) →
           is_Some (output_dir w !! name) ∨
           ∃ j upload, files !! j = Some upload ∧
             name = lit "processed-" ++ hex8 (uuid4_prefix env (i + j)) ++ lit "-" ++
                    safe_name_of env (i + j) upload).
Proof.
  revert i w acc. induction files as [|upload files IH]; intros i w acc.
  { simpl. split_and!; auto. }
  cbn [process_uploads].
  destruct (process_upload_writes i upload w) as (Hup & Hout).
  destruct (process_upload env i upload w) as [w1 [e|r]] eqn:Hrun; cbn [fst] in *.
  - split_and!.
    + intros name Hname. destruct Hup as [->| ->]; [done|].
      apply lookup_insert_is_Some'. by right.
    + intros name Hname. destruct Hout as [->|(out & ->)]; [done|].
      apply lookup_insert_is_Some'. by right.
    + intros name Hname. destruct Hup as [Hup|Hup]; rewrite Hup in Hname; [by left|].
      apply lookup_insert_is_Some' in Hname as [<-|Hname]; [|by left].
      right. exists 0, upload. by rewrite Nat.add_0_r.
    + intros name Hname. destruct Hout as [Hout|(out & Hout)]; rewrite Hout in Hname;
        [by left|].
      apply lookup_insert_is_Some' in Hname as [<-|Hname]; [|by left].
      right. exists 0, upload. by rewrite Nat.add_0_r.
  - destruct (IH (S i) w1 (acc ++ [r])) as (IH1 & IH2 & IH3 & IH4). split_and!.
    + intros name Hname. apply IH1. destruct Hup as [->| ->]; [done|].
      apply lookup_insert_is_Some'. by right.
    + intros name Hname. apply IH2. destruct Hout as [->|(out & ->)]; [done|].
      apply lookup_insert_is_Some'. by right.
    + intros name Hname. apply IH3 in Hname as [Hname|(j & upload' & Hlook & ->)].
      * destruct Hup as [Hup|Hup]; rewrite Hup in Hname; [by left|].
        apply lookup_insert_is_Some' in Hname as [<-|Hname]; [|by left].
        right. exists 0, upload. by rewrite Nat.add_0_r.
      * right. exists (S j), upload'. split; [done|].
        by replace (i + S j) with (S i + j) by lia.
    + intros name Hname. apply IH4 in Hname as [Hname|(j & upload' & Hlook & ->)].
      * destruct Hout as [Hout|(out & Hout)]; rewrite Hout in Hname; [by left|].
        apply lookup_insert_is_Some' in Hname as [<-|Hname]; [|by left].
        right. exists 0, upload. by rewrite Nat.add_0_r.
      * right. exists (S j), upload'. split; [done|].
        by replace (i + S j) with (S i + j) by lia.
Qed.

(** (X14) [process_files] only adds files, whether it answers or raises.
    Every file of the upload directory and of the output directory is still
    there afterwards (it may have been overwritten), and a file that is new
    is the stored copy of one of the uploads, named by eight hexadecimal
    digits, "-" and the sanitized upload name, or the output of one of the
    uploads, named "processed-" followed by such a name. *)
Theorem process_files_only_adds_files (files : list UploadFile) (w : World) :
  (∀ name, is_Some (upload_dir w !! name) →
           is_Some (upload_dir (process_files env files w).1 !! name)) ∧
  (∀ name, is_Some (output_dir w !! name) →
           is_Some (output_dir (process_files env files w).1 !! name)) ∧
  (∀ name, is_Some (upload_dir (process_files env files w).1 !! name) →
           is_Some (upload_dir w !! name) ∨
           ∃ j upload, files !! j = Some upload ∧
             name = hex8 (uuid4_prefix env j) ++ lit "-" ++ safe_name_of env j upload) ∧
  (∀ name, is_Some (output_dir (process_files env files w).1 !! name) →
           is_Some (output_dir w !! name) ∨
           ∃ j upload, files !! j = Some upload ∧
             name = lit "processed-" ++ hex8 (uuid4_prefix env j) ++ lit "-" ++
                    safe_name_of env j upload).
Proof.
  assert (Hfst : (process_files env files w).1 = (process_uploads env 0 files w []).1).
  { unfold process_files. destruct files as [|upload files]; [done|].
    by destruct (process_uploads env 0 (upload :: files) w []) as [w1 [e|rs]]. }
  rewrite Hfst. apply (process_uploads_writes files 0 w []).
Qed.

End handler_facts.

Lemma process_files_response_witness :
  ∃ w' resp,
    process_files (quiet_env sample_table) [fees_upload; unnamed_upload] empty_world =
      (w', inr resp) ∧
    length (results resp) = 2 ∧
    total_output_rows (totals resp) =
      total_headers (totals resp) + total_lumpsum (totals resp).
Proof.
  assert (H : match (process_files (quiet_env sample_table) [fees_upload; unnamed_upload]
                       empty_world).2 with
              | inr _ => True
              | inl _ => False
              end) by (vm_compute; exact I).
  destruct (process_files (quiet_env sample_table) [fees_upload; unnamed_upload]
              empty_world) as [w' [e|resp]] eqn:Hrun; [destruct H|].
  exists w', resp. split; [reflexivity|].
  destruct (process_files_response _ _ _ _ _ Hrun) as (Hlen & _ & _ & _ & Hsum & _).
  split; [exact Hlen|exact Hsum].
Defined.

Lemma refused_upload_ends_batch_witness :
  (process_files (quiet_env sample_table)
     ([fees_upload] ++ notes_upload :: [unnamed_upload]) empty_world).2 =
  inl (Http {| status_code := 400;
               http_detail := Text (lit "Only CSV files are supported: notes.txt") |}).
Proof.
  assert (H : match (process_uploads (quiet_env sample_table) 0 [fees_upload]
                       empty_world []).2 with
              | inr _ => True
              | inl _ => False
              end) by (vm_compute; exact I).
  destruct (process_uploads (quiet_env sample_table) 0 [fees_upload] empty_world [])
    as [w1 [e|rs]] eqn:Hgood; [destruct H|].
  assert (Hbad : process_upload (quiet_env sample_table) (length [fees_upload])
                   notes_upload w1 =
                 (w1, inl (Http {| status_code := 400;
                                   http_detail :=
                                     Text (lit "Only CSV files are supported: notes.txt") |})))
    by reflexivity.
  destruct (refused_upload_ends_batch _ _ [unnamed_upload] _ _ _ _ _ _ Hgood Hbad)
    as (Hrun & _).
  rewrite Hrun. reflexivity.
Defined.

Lemma processed_files_can_be_downloaded_witness :
  ∃ w' resp r,
    process_files (quiet_env sample_table) [fees_upload; unnamed_upload] empty_world =
      (w', inr resp) ∧
    r ∈ results resp ∧
    download (quiet_env sample_table) 0 w' (output_file r) =
      inr {| path := output_file r; media_type := lit "text/csv";
             response_filename := output_file r |}.
Proof.
  assert (H : match (process_files (quiet_env sample_table) [fees_upload; unnamed_upload]
                       empty_world).2 with
              | inr resp => match results resp with _ :: _ => True | [] => False end
              | inl _ => False
              end) by (vm_compute; exact I).
  destruct (process_files (quiet_env sample_table) [fees_upload; unnamed_upload]
              empty_world) as [w' [e|resp]] eqn:Hrun; [destruct H|].
  cbn [snd] in H. destruct (results resp) as [|r rs] eqn:Hresults; [destruct H|].
  assert (Hr : r ∈ results resp) by (rewrite Hresults; apply elem_of_cons; left; reflexivity).
  exists w', resp, r. split; [reflexivity|]. split; [exact Hr|].
  destruct (processed_files_can_be_downloaded _ _ _ _ _ 0%N _ Hrun Hr) as (_ & Hdown).
  exact Hdown.
Defined.

Lemma process_files_errors_witness :
  ∃ w' e,
    process_files (quiet_env keyless_table) [fees_upload] empty_world = (w', inl (Http e)) ∧
    ∃ df, http_detail e =
            MissingColumns (lit "Fees2024.CSV") (lit "Missing required columns.")
              (filter (λ c, c ∉ columns df) REQUIRED_COLUMNS).
Proof.
  assert (H : match (process_files (quiet_env keyless_table) [fees_upload]
                       empty_world).2 with
              | inl (Http e) => status_code e = 422
              | _ => False
              end) by (vm_compute; reflexivity).
  destruct (process_files (quiet_env keyless_table) [fees_upload] empty_world)
    as [w' [[e|msg]|resp]] eqn:Hrun; [|destruct H|destruct H].
  cbn [snd] in H. exists w', e. split; [reflexivity|].
  destruct (process_files_errors _ _ _ _ _ Hrun)
    as [(Hstatus & _)|[(_ & j & upload & df & Hlook & _ & Hdetail & _)|(Hstatus & _)]].
  - rewrite H in Hstatus. discriminate Hstatus.
  - exists df. rewrite Hdetail.
    destruct j as [|j]; [|destruct j; discriminate Hlook].
    injection Hlook as <-. reflexivity.
  - rewrite H in Hstatus. discriminate Hstatus.
Defined.

Lemma scratch_column_upload_fails_witness :
  (process_files (quiet_env scratch_table) [fees_upload; unnamed_upload] empty_world).2 =
  inl (Http {| status_code := 500;
               http_detail :=
                 Text (lit "Failed to process Fees2024.CSV: " ++ [34%N] ++
                       lit "['_level_sort'] not in index" ++ [34%N]) |}).
Proof.
  assert (Hcsv : endswith (lower (lower_unicode (quiet_env scratch_table))
                             (safe_name_of (quiet_env scratch_table) 0 fees_upload))
                   (lit ".csv") = true) by (vm_compute; reflexivity).
  assert (Hcontent : content fees_upload ≠ []) by discriminate.
  assert (Hvalid : valid_table scratch_table) by (vm_compute; reflexivity).
  assert (Hscratch : scratch_column ∈ columns scratch_table)
    by (by apply (bool_decide_unpack _)).
  destruct (scratch_column_upload_fails (quiet_env scratch_table) fees_upload
              [unnamed_upload] empty_world scratch_table Hcsv Hcontent eq_refl eq_refl
              Hvalid Hscratch (dates_parse_mdY _)) as (Hrun & _).
  exact Hrun.
Defined.

Lemma date_parser_error_upload_fails_witness :
  (process_files (inferring_env offset_table) [fees_upload; unnamed_upload]
     empty_world).2 =
  inl (Http {| status_code := 500;
               http_detail :=
                 Text (lit "Failed to process Fees2024.CSV: Mixed timezones detected. Pass utc=True in to_datetime or tz='UTC' in DatetimeIndex to convert to a common timezone.") |}).
Proof.
  assert (Hcsv : endswith (lower (lower_unicode (inferring_env offset_table))
                             (safe_name_of (inferring_env offset_table) 0 fees_upload))
                   (lit ".csv") = true) by (vm_compute; reflexivity).
  assert (Hcontent : content fees_upload ≠ []) by discriminate.
  assert (Hvalid : valid_table offset_table) by (vm_compute; reflexivity).
  assert (Hcol : "Lumpsum - Lumpsum Date" ∈ DATE_COLUMNS)
    by (by apply (bool_decide_unpack _)).
  assert (He : to_datetime_coerce (env_to_datetime (inferring_env offset_table))
                 (column "Lumpsum - Lumpsum Date" offset_table) = Raised mixed_timezones)
    by (vm_compute; reflexivity).
  destruct (date_parser_error_upload_fails (inferring_env offset_table) fees_upload
              [unnamed_upload] empty_world offset_table _ _ Hcsv Hcontent eq_refl eq_refl
              Hvalid Hcol He) as (col' & exc & Hcol' & Hexc & Hrun & _).
  assert (Heq : exc = mixed_timezones).
  { unfold DATE_COLUMNS in Hcol'. rewrite !elem_of_cons in Hcol'.
    destruct Hcol' as [->|[->|Hnil]]; [| |by apply elem_of_nil in Hnil];
      vm_compute in Hexc.
    - by injection Hexc as <-.
    - discriminate Hexc. }
  rewrite Hrun, Heq. vm_compute. reflexivity.
Defined.
